(** * DEXBot strategies: order placement and order maintenance

    A shallow embedding of the "King of the Hill" strategy
    ([dexbot/strategies/king_of_the_hill.py]) and of the boundary check of
    the "Staggered Orders" strategy ([dexbot/strategies/staggered_orders.py]),
    together with the part of Python's [decimal] arithmetic that
    [place_order] relies on and the conversion of a [Decimal] to [float]. *)

From Stdlib Require Import ZArith List String Bool Lia.
From Stdlib Require QArith Qpower Lqa.
Import ListNotations.
Open Scope Z_scope.

(** ** Python's [decimal.Decimal] under the default context

    A finite decimal is a signed coefficient and an exponent; its value is
    [dint * 10 ^ dexp].  The default context has 28 significant digits and
    rounds half to even.  Infinities, NaNs, the sign of zero and the
    exponent limits (|exponent| <= 999999) are left out. *)
Module Dec.

Inductive signal : Type :=
| DivisionByZero
| InvalidOperation.

Record Decimal : Type := mkDecimal { dint : Z; dexp : Z }.

Definition prec : Z := 28.

(** [len(str(n))] for a non-negative [n]. *)
Fixpoint digits_aux (fuel : nat) (n : Z) : Z :=
  match fuel with
  | O => 1
  | S f => if n <? 10 then 1 else 1 + digits_aux f (n / 10)
  end.

Definition ndigits (n : Z) : Z :=
  digits_aux (Z.to_nat (Z.log2 (Z.abs n))) (Z.abs n).

(** Quotient of [n] by [d] rounded half to even ([0 <= n], [0 < d]). *)
Definition round_half_even (n d : Z) : Z :=
  let q := n / d in
  let r := n mod d in
  if (d <? 2 * r) || ((2 * r =? d) && Z.odd q) then q + 1 else q.

(** [Decimal._rescale]: the same number at exponent [e], rounded if digits
    are lost. *)
Definition rescale (x : Decimal) (e : Z) : Decimal :=
  if e <=? dexp x
  then mkDecimal (dint x * 10 ^ (dexp x - e)) e
  else mkDecimal (Z.sgn (dint x) * round_half_even (Z.abs (dint x)) (10 ^ (e - dexp x))) e.

(** [Decimal._fix]: round a result to the context precision. *)
Definition fix_ (x : Decimal) : Decimal :=
  let n := ndigits (dint x) in
  if n <=? prec then x
  else
    let drop := n - prec in
    let c := round_half_even (Z.abs (dint x)) (10 ^ drop) in
    if prec <? ndigits c
    then mkDecimal (Z.sgn (dint x) * (c / 10)) (dexp x + drop + 1)
    else mkDecimal (Z.sgn (dint x) * c) (dexp x + drop).

(** [x.quantize(Decimal(0).scaleb(e))]: round to exponent [e]; the operation
    is invalid when the result would need more than [prec] digits. *)
Definition quantize (x : Decimal) (e : Z) : signal + Decimal :=
  if dint x =? 0 then inr (mkDecimal 0 e)
  else if prec <? ndigits (dint x) + dexp x - e then inl InvalidOperation
  else
    let ans := rescale x e in
    if prec <? ndigits (dint ans) then inl InvalidOperation
    else inr ans.

(** The loop of [__truediv__] that brings an exact quotient as close to the
    ideal exponent as its trailing zeros allow. *)
Fixpoint strip_zeros (fuel : nat) (coeff exp : Z) : Z * Z :=
  match fuel with
  | O => (coeff, exp)
  | S f => if coeff mod 10 =? 0 then strip_zeros f (coeff / 10) (exp + 1)
           else (coeff, exp)
  end.

(** [a / b] *)
Definition div (a b : Decimal) : signal + Decimal :=
  if dint b =? 0 then
    if dint a =? 0 then inl InvalidOperation else inl DivisionByZero
  else if dint a =? 0 then inr (fix_ (mkDecimal 0 (dexp a - dexp b)))
  else
    let s := Z.sgn (dint a) * Z.sgn (dint b) in
    let n1 := Z.abs (dint a) in
    let n2 := Z.abs (dint b) in
    let shift := ndigits n2 - ndigits n1 + prec + 1 in
    let exp := dexp a - dexp b - shift in
    let qr := if 0 <=? shift
              then Z.div_eucl (n1 * 10 ^ shift) n2
              else Z.div_eucl n1 (n2 * 10 ^ (- shift)) in
    let ce := if snd qr =? 0
              then strip_zeros (Z.to_nat (dexp a - dexp b - exp)) (fst qr) exp
              else (if fst qr mod 5 =? 0 then fst qr + 1 else fst qr, exp) in
    inr (fix_ (mkDecimal (s * fst ce) (snd ce))).

(** [a * b] *)
Definition mul (a b : Decimal) : Decimal :=
  fix_ (mkDecimal (dint a * dint b) (dexp a + dexp b)).

(** [a + b].  The operands are aligned exactly before the sum is rounded;
    CPython shortens the alignment when the exponents are far apart, with
    the same rounded result. *)
Definition add (a b : Decimal) : Decimal :=
  let exp := Z.min (dexp a) (dexp b) in
  if (dint a =? 0) && (dint b =? 0) then fix_ (mkDecimal 0 exp)
  else if dint a =? 0 then fix_ (rescale b (Z.max exp (dexp b - prec - 1)))
  else if dint b =? 0 then fix_ (rescale a (Z.max exp (dexp a - prec - 1)))
  else fix_ (mkDecimal (dint a * 10 ^ (dexp a - exp) + dint b * 10 ^ (dexp b - exp)) exp).

Definition opp (a : Decimal) : Decimal := mkDecimal (- dint a) (dexp a).

(** [a - b] *)
Definition sub (a b : Decimal) : Decimal := add a (opp b).

(** Comparison of the values; Python compares a [Decimal] with a [float] or
    an [int] by value as well. *)
Definition compare (a b : Decimal) : comparison :=
  let m := Z.min (dexp a) (dexp b) in
  (dint a * 10 ^ (dexp a - m) ?= dint b * 10 ^ (dexp b - m)).

Definition ltb (a b : Decimal) : bool :=
  match compare a b with Lt => true | _ => false end.
Definition leb (a b : Decimal) : bool :=
  match compare a b with Gt => false | _ => true end.
Definition gtb (a b : Decimal) : bool := ltb b a.
Definition geb (a b : Decimal) : bool := leb b a.

(** Truth value: [bool(x)] is false exactly for zero. *)
Definition is_zero (a : Decimal) : bool := dint a =? 0.

(** [Decimal(10) ** -p] *)
Definition unit_of (p : Z) : Decimal := mkDecimal 1 (- p).

(** [Decimal(n)] for an [int]. *)
Definition of_Z (n : Z) : Decimal := mkDecimal n 0.

(** Sequencing of operations that can signal. *)
Definition and_then {A B} (x : signal + A) (f : A -> signal + B) : signal + B :=
  match x with
  | inl sg => inl sg
  | inr a => f a
  end.

(** The product of two decimals without rounding. *)
Definition mul_exact (a b : Decimal) : Decimal :=
  mkDecimal (dint a * dint b) (dexp a + dexp b).

(** [m / 2 ^ k] in lowest terms, for [0 <= k]. *)
Fixpoint lowest_terms (fuel : nat) (m k : Z) : Z * Z :=
  match fuel with
  | O => (m, k)
  | S f => if (0 <? k) && Z.even m then lowest_terms f (m / 2) (k - 1) else (m, k)
  end.

(** The exponent [k] of the power of two at or below [n / d]:
    [2 ^ k <= n / d < 2 ^ (k + 1)], for positive [n] and [d]. *)
Definition binade (n d : Z) : Z :=
  let k0 := Z.log2 n - Z.log2 d in
  let below := if 0 <=? k0 then n <? d * 2 ^ k0 else n * 2 ^ (- k0) <? d in
  if below then k0 - 1 else k0.

(** [n / d * 2 ^ shift] rounded half to even. *)
Definition scaled_round (n d shift : Z) : Z :=
  if 0 <=? shift then round_half_even (n * 2 ^ shift) d
  else round_half_even n (d * 2 ^ (- shift)).

(** [m / 2 ^ shift] as the decimal that [Decimal.from_float] gives for it. *)
Definition of_dyadic (m shift : Z) : Decimal :=
  if 0 <=? shift then
    let mk := lowest_terms (Z.to_nat shift) m shift in
    mkDecimal (fst mk * 5 ^ snd mk) (- snd mk)
  else mkDecimal (m * 2 ^ (- shift)) 0.

(** The binary64 number nearest to [n / d], ties to even, for positive [n]
    and [d]: 53 significant bits. *)
Definition nearest_binary64 (n d : Z) : Decimal :=
  let shift := 52 - binade n d in
  of_dyadic (scaled_round n d shift) shift.

(** [Decimal(float(x))]: the binary64 number nearest to [x], written as the
    decimal that [Decimal.from_float] gives for it.  Subnormal numbers and
    overflow are left out. *)
Definition to_binary64 (x : Decimal) : Decimal :=
  if dint x =? 0 then mkDecimal 0 0
  else
    let y := nearest_binary64 (Z.abs (dint x) * 10 ^ Z.max (dexp x) 0)
                              (10 ^ Z.max (- dexp x) 0) in
    mkDecimal (Z.sgn (dint x) * dint y) (dexp y).

End Dec.

(** ** The numbers behind the decimals *)
Module DecValue.
Import Dec.
Import QArith.

(** The rational number that a decimal stands for. *)
Definition value (x : Decimal) : Q := (inject_Z (dint x) * 10 ^ dexp x)%Q.

(** The fraction [n / d]. *)
Definition ratio (n d : Z) : Q := (inject_Z n / inject_Z d)%Q.

End DecValue.

(** ** King of the Hill *)
Module Koth.
Import Dec.

(** [order_type]: ['buy'] or ['sell']. *)
Inductive side : Type := Buy | Sell.

Definition side_eqb (a b : side) : bool :=
  match a, b with
  | Buy, Buy | Sell, Sell => true
  | _, _ => false
  end.

Inductive asset : Type := Base | Quote.

(** An order as the exchange reports it: [order['id']], [order['price']],
    [order['base']['amount']], [order['quote']['amount']], and the two amounts
    the fill test of the base class looks at. *)
Record Order : Type := mkOrder {
  order_id : string;
  price : Decimal;
  base_amount : Decimal;
  quote_amount : Decimal;
  original_amount : Decimal;
  remaining_amount : Decimal }.

(** Exceptions that the modelled code can raise. *)
Inductive exn : Type :=
| DecimalSignal (s : signal)
| ZeroDivisionError.

(** What the strategy consumes from its base class and from the exchange.
    Numbers that Python holds as [float] or [int] are carried as the decimal
    that [Decimal(x)] gives, which is exact; the [float] operations that
    round are fields of the interface. *)
Class Exchange : Type := {
  world : Type;
  (** [datetime.now()], in microseconds *)
  now : world -> Z;
  (** [timedelta(seconds=x)], in microseconds *)
  timedelta_seconds : Decimal -> Z;
  (** [self.get_market_orders(depth=100)] *)
  get_market_orders : world -> list Order * world;
  (** [self.own_orders] *)
  own_orders : world -> list Order * world;
  (** [self.filter_buy_orders(orders)] *)
  filter_buy_orders : list Order -> list Order;
  (** [self.filter_sell_orders(orders, invert=True)] *)
  filter_sell_orders : list Order -> list Order;
  (** [self.get_order(order_id)] *)
  get_order : option string -> world -> option Order * world;
  (** [self.cancel_orders(order)] *)
  cancel_orders : Order -> world -> bool * world;
  (** [self.place_market_buy_order(amount, price)] *)
  place_market_buy_order : Decimal -> Decimal -> world -> option Order * world;
  (** [self.place_market_sell_order(amount, price)] *)
  place_market_sell_order : Decimal -> Decimal -> world -> option Order * world;
  (** [float(self.balance(asset))] *)
  balance : asset -> world -> Decimal * world;
  (** binary64 product, quotient and reciprocal *)
  float_mul : Decimal -> Decimal -> Decimal;
  float_div : Decimal -> Decimal -> Decimal;
  float_inv : Decimal -> Decimal }.

(** The attributes that [__init__] reads from the worker configuration and
    the market, and that nothing assigns afterwards. *)
Record worker_config : Type := mkConfig {
  mode : string;
  buy_order_amount : Decimal;
  sell_order_amount : Decimal;
  is_relative_order_size : bool;
  buy_order_size_threshold : Decimal;
  sell_order_size_threshold : Decimal;
  upper_bound : Decimal;
  lower_bound : Decimal;
  min_check_interval : Decimal;
  partial_fill_threshold : Decimal;
  base_precision : nat;
  quote_precision : nat }.

(** The attributes that the strategy assigns while it runs.  [orders] is the
    dict [{order_type: id}] in insertion order. *)
Record state : Type := mkState {
  top_buy_price : Decimal;
  top_sell_price : Decimal;
  orders : list (side * string);
  buy_order_to_beat : option string;
  sell_order_to_beat : option string;
  beaten_buy_order : option string;
  beaten_sell_order : option string;
  last_check : Z;
  disabled : bool }.

Definition set_top_buy_price (v : Decimal) (s : state) : state :=
  mkState v (top_sell_price s) (orders s) (buy_order_to_beat s) (sell_order_to_beat s)
          (beaten_buy_order s) (beaten_sell_order s) (last_check s) (disabled s).
Definition set_top_sell_price (v : Decimal) (s : state) : state :=
  mkState (top_buy_price s) v (orders s) (buy_order_to_beat s) (sell_order_to_beat s)
          (beaten_buy_order s) (beaten_sell_order s) (last_check s) (disabled s).
Definition set_orders (v : list (side * string)) (s : state) : state :=
  mkState (top_buy_price s) (top_sell_price s) v (buy_order_to_beat s) (sell_order_to_beat s)
          (beaten_buy_order s) (beaten_sell_order s) (last_check s) (disabled s).
Definition set_buy_order_to_beat (v : option string) (s : state) : state :=
  mkState (top_buy_price s) (top_sell_price s) (orders s) v (sell_order_to_beat s)
          (beaten_buy_order s) (beaten_sell_order s) (last_check s) (disabled s).
Definition set_sell_order_to_beat (v : option string) (s : state) : state :=
  mkState (top_buy_price s) (top_sell_price s) (orders s) (buy_order_to_beat s) v
          (beaten_buy_order s) (beaten_sell_order s) (last_check s) (disabled s).
Definition set_beaten_buy_order (v : option string) (s : state) : state :=
  mkState (top_buy_price s) (top_sell_price s) (orders s) (buy_order_to_beat s) (sell_order_to_beat s)
          v (beaten_sell_order s) (last_check s) (disabled s).
Definition set_beaten_sell_order (v : option string) (s : state) : state :=
  mkState (top_buy_price s) (top_sell_price s) (orders s) (buy_order_to_beat s) (sell_order_to_beat s)
          (beaten_buy_order s) v (last_check s) (disabled s).
Definition set_last_check (v : Z) (s : state) : state :=
  mkState (top_buy_price s) (top_sell_price s) (orders s) (buy_order_to_beat s) (sell_order_to_beat s)
          (beaten_buy_order s) (beaten_sell_order s) v (disabled s).
Definition set_disabled (v : bool) (s : state) : state :=
  mkState (top_buy_price s) (top_sell_price s) (orders s) (buy_order_to_beat s) (sell_order_to_beat s)
          (beaten_buy_order s) (beaten_sell_order s) (last_check s) v.

(** [datetime(2000, 1, 1)] in microseconds since the epoch. *)
Definition datetime_2000_01_01 : Z := 946684800000000.

(** The state that [__init__] leaves. *)
Definition init_state : state :=
  mkState (of_Z 0) (of_Z 0) [] None None None None datetime_2000_01_01 false.

(** [d[k] = v] on a dict kept in insertion order. *)
Fixpoint dict_set (k : side) (v : string) (d : list (side * string)) : list (side * string) :=
  match d with
  | [] => [(k, v)]
  | (k', v') :: d' => if side_eqb k k' then (k, v) :: d' else (k', v') :: dict_set k v d'
  end.

Fixpoint dict_get (k : side) (d : list (side * string)) : option string :=
  match d with
  | [] => None
  | (k', v') :: d' => if side_eqb k k' then Some v' else dict_get k d'
  end.

(** The lines the strategy writes to its log.  A number that a line formats
    is carried as the number. *)
Inductive message : Type :=
| CannotDetermineTopPrice (t : side)
| ZeroAmount (t : side)
| AmountTooSmall (t : side)
| FailedToPlace (t : side)
| OwnOrderFilledTooMuch (t : side)
| OwnOrderFilled (t : side)
| TopPriceBeyondBound (t : side) (top bound : Decimal)
| TopPriceToBeHigher (t : side) (top : Decimal)
| NoBeatenOrder (t : side)
| DetectedOrderAbove.

(** What an observer of the worker sees: its log and its requests to the
    exchange that change the book.  A placement carries the arguments of the
    call, which are the [float] conversions of the amount and the price. *)
Inductive event : Type :=
| LogError (m : message)
| LogInfo (m : message)
| LogDebug (m : message)
| CancelOrder (id : string)
| PlaceBuy (amount price : Decimal)
| PlaceSell (amount price : Decimal).

(** How a run ends: it returns, raises, or (a loop ran out of fuel) has not
    ended yet. *)
Inductive outcome (A : Type) : Type :=
| Ret (a : A)
| Raise (e : exn)
| OutOfFuel.
Arguments Ret {A} a.
Arguments Raise {A} e.
Arguments OutOfFuel {A}.

Section Strategy.

Context {E : Exchange}.
Variable cfg : worker_config.

(** A run from a strategy state and a world: how it ends, the state and the
    world it leaves, and the events it emitted, oldest first. *)
Record run (A : Type) : Type := mkRun {
  result : outcome A;
  final : state;
  final_world : world;
  events : list event }.
Arguments mkRun {A}.
Arguments result {A}.
Arguments final {A}.
Arguments final_world {A}.
Arguments events {A}.

Definition M (A : Type) : Type := state -> world -> run A.

Definition ret {A} (a : A) : M A := fun s w => mkRun (Ret a) s w [].

(** A run with earlier events put in front of its own. *)
Definition prepend {A} (earlier : list event) (r : run A) : run A :=
  match r with
  | mkRun res s w evs => mkRun res s w (earlier ++ evs)
  end.

Definition bind {A B} (m : M A) (k : A -> M B) : M B :=
  fun s w =>
    match m s w with
    | mkRun (Ret a) s' w' evs => prepend evs (k a s' w')
    | mkRun (Raise e) s' w' evs => mkRun (Raise e) s' w' evs
    | mkRun OutOfFuel s' w' evs => mkRun OutOfFuel s' w' evs
    end.

Definition get : M state := fun s w => mkRun (Ret s) s w [].
Definition modify (f : state -> state) : M unit := fun s w => mkRun (Ret tt) (f s) w [].
Definition emit (e : event) : M unit := fun s w => mkRun (Ret tt) s w [e].
Definition ext {A} (op : world -> A * world) : M A :=
  fun s w => mkRun (Ret (fst (op w))) s (snd (op w)) [].
Definition clock : M Z := fun s w => mkRun (Ret (now w)) s w [].
Definition of_outcome {A} (o : outcome A) : M A := fun s w => mkRun o s w [].
Definition dec {A} (x : signal + A) : M A :=
  match x with
  | inl sg => of_outcome (Raise (DecimalSignal sg))
  | inr a => ret a
  end.

Notation "x <- c1 ;; c2" := (bind c1 (fun x => c2))
  (at level 61, c1 at next level, right associativity).
Notation "' pat <- c1 ;; c2" := (bind c1 (fun x => match x with pat => c2 end))
  (at level 61, pat pattern, c1 at next level, right associativity).
Notation "c1 ;; c2" := (bind c1 (fun _ => c2))
  (at level 61, right associativity).

(** [amount_quote] (property) *)
Definition amount_quote : M Decimal :=
  let amount := sell_order_amount cfg in
  if is_relative_order_size cfg then
    quote_balance <- ext (balance Quote) ;;
    ret (float_mul quote_balance (float_div amount (of_Z 100)))
  else ret amount.

(** [amount_base] (property) *)
Definition amount_base : M Decimal :=
  let amount := buy_order_amount cfg in
  if is_relative_order_size cfg then
    base_balance <- ext (balance Base) ;;
    ret (float_mul base_balance (float_div amount (of_Z 100)))
  else ret amount.

(** The [for ... break] scans of [get_top_prices]. *)
Definition scan_sell_orders (threshold : Decimal) (sell_orders : list Order) : M unit :=
  match find (fun o => gtb (quote_amount o) threshold) sell_orders with
  | Some o =>
      modify (set_top_sell_price (price o)) ;;
      modify (set_sell_order_to_beat (Some (order_id o))) ;;
      s <- get ;;
      if ltb (top_sell_price s) (lower_bound cfg) then
        emit (LogDebug (TopPriceBeyondBound Sell (top_sell_price s) (lower_bound cfg))) ;;
        modify (set_top_sell_price (lower_bound cfg))
      else
        emit (LogDebug (TopPriceToBeHigher Sell (top_sell_price s)))
  | None => ret tt
  end.

Definition scan_buy_orders (threshold : Decimal) (buy_orders : list Order) : M unit :=
  match find (fun o => gtb (base_amount o) threshold) buy_orders with
  | Some o =>
      modify (set_top_buy_price (price o)) ;;
      modify (set_buy_order_to_beat (Some (order_id o))) ;;
      s <- get ;;
      if gtb (top_buy_price s) (upper_bound cfg) then
        emit (LogDebug (TopPriceBeyondBound Buy (top_buy_price s) (upper_bound cfg))) ;;
        modify (set_top_buy_price (upper_bound cfg))
      else
        emit (LogDebug (TopPriceToBeHigher Buy (top_buy_price s)))
  | None => ret tt
  end.

(** The order book without the worker's own orders. *)
Definition foreign_orders (market_orders own : list Order) : list Order :=
  filter (fun o => negb (existsb (String.eqb (order_id o)) (map order_id own))) market_orders.

(** [get_top_prices] *)
Definition get_top_prices : M unit :=
  market_orders <- ext get_market_orders ;;
  own <- ext own_orders ;;
  let market_orders := foreign_orders market_orders own in
  let buy_orders := filter_buy_orders market_orders in
  let sell_orders := filter_sell_orders market_orders in
  sell_threshold <- (if is_zero (sell_order_size_threshold cfg) then amount_quote
                     else ret (sell_order_size_threshold cfg)) ;;
  buy_threshold <- (if is_zero (buy_order_size_threshold cfg) then amount_base
                    else ret (buy_order_size_threshold cfg)) ;;
  scan_sell_orders sell_threshold sell_orders ;;
  scan_buy_orders buy_threshold buy_orders.

(** [is_too_small_amounts] *)
Definition is_too_small_amounts (amount_quote amount_base : Decimal) : bool :=
  ltb amount_quote (unit_of (Z.of_nat (quote_precision cfg)))
  || ltb amount_base (unit_of (Z.of_nat (base_precision cfg))).

(** The [while] loop of the buy branch of [place_order]: it returns the
    final [(amount_quote, price)]. *)
Fixpoint buy_loop (fuel : nat) (top amount_base amount_quote price : Decimal)
  : outcome (Decimal * Decimal) :=
  if leb price top then
    match fuel with
    | O => OutOfFuel
    | S fuel' =>
        let amount_quote := sub amount_quote (unit_of (Z.of_nat (quote_precision cfg))) in
        match div amount_base amount_quote with
        | inl sg => Raise (DecimalSignal sg)
        | inr price => buy_loop fuel' top amount_base amount_quote price
        end
    end
  else Ret (amount_quote, price).

(** The [while] loop of the sell branch: it returns the final
    [(amount_base, price)]. *)
Fixpoint sell_loop (fuel : nat) (top amount_quote amount_base price : Decimal)
  : outcome (Decimal * Decimal) :=
  if geb price top then
    match fuel with
    | O => OutOfFuel
    | S fuel' =>
        let amount_base := sub amount_base (unit_of (Z.of_nat (base_precision cfg))) in
        match div amount_base amount_quote with
        | inl sg => Raise (DecimalSignal sg)
        | inr price => sell_loop fuel' top amount_quote amount_base price
        end
    end
  else Ret (amount_base, price).

(** The tail of [place_order]: [if new_order: ... else: ...]. *)
Definition record_order (order_type : side) (new_order : option Order) : M unit :=
  match new_order with
  | Some o => modify (fun s => set_orders (dict_set order_type (order_id o) (orders s)) s)
  | None => emit (LogError (FailedToPlace order_type))
  end.

(** [place_order]; [fuel] bounds the iterations of the [while] loop, and
    [float(x)] of a [Decimal] is [to_binary64 x]. *)
Definition place_order (fuel : nat) (order_type : side) : M unit :=
  match order_type with
  | Buy =>
      s <- get ;;
      if is_zero (top_buy_price s) then
        emit (LogError (CannotDetermineTopPrice Buy)) ;;
        modify (set_disabled true)
      else
        configured <- amount_base ;;
        amount_base <- dec (quantize configured (- Z.of_nat (base_precision cfg))) ;;
        if is_zero amount_base then
          emit (LogError (ZeroAmount Buy)) ;;
          modify (set_disabled true)
        else
          let price := top_buy_price s in
          quotient <- dec (div amount_base price) ;;
          amount_quote <- dec (quantize quotient (- Z.of_nat (quote_precision cfg))) ;;
          price <- dec (div amount_base amount_quote) ;;
          '(amount_quote, price) <-
             of_outcome (buy_loop fuel (top_buy_price s) amount_base amount_quote price) ;;
          '(amount_quote, price) <-
             (if gtb price (upper_bound cfg) then
                let price := upper_bound cfg in
                amount_quote <- dec (div amount_base price) ;;
                ret (amount_quote, price)
              else ret (amount_quote, price)) ;;
          if is_too_small_amounts amount_quote amount_base then
            emit (LogError (AmountTooSmall Buy))
          else
            let amount := to_binary64 amount_quote in
            let price := to_binary64 price in
            emit (PlaceBuy amount price) ;;
            new_order <- ext (place_market_buy_order amount price) ;;
            modify (fun s => set_beaten_buy_order (buy_order_to_beat s) s) ;;
            record_order Buy new_order
  | Sell =>
      s <- get ;;
      if is_zero (top_sell_price s) then
        emit (LogError (CannotDetermineTopPrice Sell)) ;;
        modify (set_disabled true)
      else
        configured <- amount_quote ;;
        amount_quote <- dec (quantize configured (- Z.of_nat (quote_precision cfg))) ;;
        if is_zero amount_quote then
          emit (LogError (ZeroAmount Sell)) ;;
          modify (set_disabled true)
        else
          let price := top_sell_price s in
          let amount_base := mul amount_quote price in
          amount_base <- dec (quantize amount_base (- Z.of_nat (base_precision cfg))) ;;
          price <- dec (div amount_base amount_quote) ;;
          '(amount_base, price) <-
             of_outcome (sell_loop fuel (top_sell_price s) amount_quote amount_base price) ;;
          let price := if ltb price (lower_bound cfg) then lower_bound cfg else price in
          if is_too_small_amounts amount_quote amount_base then
            emit (LogError (AmountTooSmall Sell))
          else
            let amount := to_binary64 amount_quote in
            let price := to_binary64 price in
            emit (PlaceSell amount price) ;;
            new_order <- ext (place_market_sell_order amount price) ;;
            modify (fun s => set_beaten_sell_order (sell_order_to_beat s) s) ;;
            record_order Sell new_order
  end.

(** [place_orders] *)
Definition place_orders (fuel : nat) : M unit :=
  get_top_prices ;;
  let place_buy := String.eqb (mode cfg) "both" || String.eqb (mode cfg) "buy" in
  let place_sell := String.eqb (mode cfg) "both" || String.eqb (mode cfg) "sell" in
  (if place_buy then place_order fuel Buy else ret tt) ;;
  (if place_sell then place_order fuel Sell else ret tt).

(** Modelled from the spec: [is_partially_filled] of the strategy base
    class, whose code is not among the sources.  The spec signals a partial
    fill when [remaining_amount < threshold * original_amount]. *)
Definition is_partially_filled (order : Order) (threshold : Decimal) : bool :=
  ltb (remaining_amount order) (mul_exact threshold (original_amount order)).

(** The [if ... elif ...] chain of [check_orders] for an order that is still
    on the book: does it have to be cancelled? *)
Definition need_cancel (order_type : side) (order : Order) : M bool :=
  if is_partially_filled order (partial_fill_threshold cfg) then
    emit (LogInfo (OwnOrderFilledTooMuch order_type)) ;;
    ret true
  else
    s <- get ;;
    match order_type with
    | Buy =>
        beaten <- ext (get_order (beaten_buy_order s)) ;;
        match beaten with
        | None =>
            emit (LogDebug (NoBeatenOrder Buy)) ;;
            ret true
        | Some _ =>
            if ltb (price order) (top_buy_price s) then
              emit (LogDebug DetectedOrderAbove) ;;
              ret true
            else ret false
        end
    | Sell =>
        beaten <- ext (get_order (beaten_sell_order s)) ;;
        match beaten with
        | None =>
            emit (LogDebug (NoBeatenOrder Sell)) ;;
            ret true
        | Some _ =>
            if is_zero (price order) then of_outcome (Raise ZeroDivisionError)
            else if gtb (float_inv (price order)) (top_sell_price s) then
              emit (LogDebug DetectedOrderAbove) ;;
              ret true
            else ret false
        end
    end.

(** The body of the [for] loop of [check_orders]. *)
Definition check_order (fuel : nat) (entry : side * string) : M unit :=
  let order_type := fst entry in
  order <- ext (get_order (Some (snd entry))) ;;
  match order with
  | Some o =>
      cancel <- need_cancel order_type o ;;
      if cancel then
        emit (CancelOrder (order_id o)) ;;
        cancelled <- ext (cancel_orders o) ;;
        if cancelled then place_order fuel order_type else ret tt
      else ret tt
  | None =>
      emit (LogInfo (OwnOrderFilled order_type)) ;;
      place_order fuel order_type
  end.

Fixpoint for_each {A} (body : A -> M unit) (l : list A) : M unit :=
  match l with
  | [] => ret tt
  | x :: l' => body x ;; for_each body l'
  end.

(** [check_orders]; the loop runs over a copy of [self.orders]. *)
Definition check_orders (fuel : nat) : M unit :=
  get_top_prices ;;
  s <- get ;;
  for_each (check_order fuel) (orders s).

(** [maintain_strategy] *)
Definition maintain_strategy (fuel : nat) : M unit :=
  t <- clock ;;
  s <- get ;;
  let delta := t - last_check s in
  if delta <? timedelta_seconds (min_check_interval cfg) then ret tt
  else
    match orders s with
    | _ :: _ => check_orders fuel
    | [] => place_orders fuel
    end ;;
    t <- clock ;;
    modify (set_last_check t).

End Strategy.

Arguments mkRun {E A}.
Arguments result {E A}.
Arguments final {E A}.
Arguments final_world {E A}.
Arguments events {E A}.
Arguments bind {E A B} m k s w /.
Arguments get {E} s w /.
Arguments ret {E A} a s w /.
Arguments modify {E} f s w /.
Arguments emit {E} e s w /.
Arguments ext {E A} op s w /.
Arguments clock {E} s w /.
Arguments of_outcome {E A} o s w /.

(** *** Vocabulary for the properties *)
Section Vocabulary.

Context {E : Exchange}.
Variable cfg : worker_config.

(** The reference price of a side: [top_buy_price] or [top_sell_price]. *)
Definition top_price (t : side) (s : state) : Decimal :=
  match t with
  | Buy => top_buy_price s
  | Sell => top_sell_price s
  end.

Definition order_to_beat (t : side) (s : state) : option string :=
  match t with
  | Buy => buy_order_to_beat s
  | Sell => sell_order_to_beat s
  end.

Definition set_beaten_order (t : side) (s : state) : state :=
  match t with
  | Buy => set_beaten_buy_order (buy_order_to_beat s) s
  | Sell => set_beaten_sell_order (sell_order_to_beat s) s
  end.

Definition other_side (t : side) : side :=
  match t with
  | Buy => Sell
  | Sell => Buy
  end.

(** The request that submits an order of a side. *)
Definition placement (t : side) (amount p : Decimal) : event :=
  match t with
  | Buy => PlaceBuy amount p
  | Sell => PlaceSell amount p
  end.

Definition is_placement (ev : event) : bool :=
  match ev with
  | PlaceBuy _ _ | PlaceSell _ _ => true
  | _ => false
  end.

Definition is_cancel (ev : event) : bool :=
  match ev with
  | CancelOrder _ => true
  | _ => false
  end.

(** The asset precision that the configured amount of a side is rounded to. *)
Definition amount_precision (t : side) : nat :=
  match t with
  | Buy => base_precision cfg
  | Sell => quote_precision cfg
  end.

(** The value of the property [amount_base] (for a buy) or [amount_quote]
    (for a sell) in a world. *)
Definition configured_amount (t : side) (w : world) : Decimal :=
  let amount := match t with Buy => buy_order_amount cfg | Sell => sell_order_amount cfg end in
  let a := match t with Buy => Base | Sell => Quote end in
  if is_relative_order_size cfg
  then float_mul (fst (balance a w)) (float_div amount (of_Z 100))
  else amount.

(** The price that [place_order] computes for an order, against the
    reference price [C] and the bound of its side: it is within the bound;
    it is beyond [C] when [C] is strictly within the bound; it is the bound
    itself when [C] is at the bound or beyond it. *)
Definition computed_price (t : side) (s : state) (p : Decimal) : Prop :=
  match t with
  | Buy =>
      leb p (upper_bound cfg) = true /\
      (ltb (top_buy_price s) (upper_bound cfg) = true -> ltb (top_buy_price s) p = true) /\
      (ltb (top_buy_price s) (upper_bound cfg) = false -> p = upper_bound cfg)
  | Sell =>
      geb p (lower_bound cfg) = true /\
      (ltb (lower_bound cfg) (top_sell_price s) = true -> ltb p (top_sell_price s) = true) /\
      (ltb (lower_bound cfg) (top_sell_price s) = false -> p = lower_bound cfg)
  end.

(** The price that the exchange is called with, against the same two
    numbers: it is within the bound; it is not on the wrong side of [C] when
    [C] is within the bound; it is the bound itself when [C] is at the bound
    or beyond it. *)
Definition submitted_price (t : side) (s : state) (p : Decimal) : Prop :=
  match t with
  | Buy =>
      leb p (upper_bound cfg) = true /\
      (leb (top_buy_price s) (upper_bound cfg) = true -> leb (top_buy_price s) p = true) /\
      (ltb (top_buy_price s) (upper_bound cfg) = false -> p = upper_bound cfg)
  | Sell =>
      geb p (lower_bound cfg) = true /\
      (leb (lower_bound cfg) (top_sell_price s) = true -> leb p (top_sell_price s) = true) /\
      (ltb (lower_bound cfg) (top_sell_price s) = false -> p = lower_bound cfg)
  end.

(** The bound of a side. *)
Definition bound (t : side) : Decimal :=
  match t with
  | Buy => upper_bound cfg
  | Sell => lower_bound cfg
  end.

(** A number that Python holds as a [float]: the conversion leaves it as it
    is. *)
Definition is_float (x : Decimal) : Prop := to_binary64 x = x.

(** The submitted price as the strict reading has it: beyond the reference
    price by at least one precision increment, and within the bound. *)
Definition price_beats_by_increment (t : side) (s : state) (p : Decimal) : Prop :=
  match t with
  | Buy =>
      leb (add (top_buy_price s) (unit_of (Z.of_nat (quote_precision cfg)))) p = true /\
      leb p (upper_bound cfg) = true
  | Sell =>
      leb p (sub (top_sell_price s) (unit_of (Z.of_nat (base_precision cfg)))) = true /\
      geb p (lower_bound cfg) = true
  end.

Definition beaten_order (t : side) (s : state) : option string :=
  match t with
  | Buy => beaten_buy_order s
  | Sell => beaten_sell_order s
  end.

(** What the strategy holds for one side: the tracked order, the reference
    price, the order to beat and the beaten order. *)
Definition slot (t : side) (s : state)
  : option string * Decimal * option string * option string :=
  (dict_get t (orders s), top_price t s, order_to_beat t s, beaten_order t s).

(** The foreign orders that [get_top_prices] sees in a world, and the world
    after it has fetched them. *)
Definition book_seen (w : world) : list Order :=
  foreign_orders (fst (get_market_orders w))
                 (fst (own_orders (snd (get_market_orders w)))).

Definition world_after_book (w : world) : world :=
  snd (own_orders (snd (get_market_orders w))).

(** The size thresholds that [get_top_prices] uses, with the worlds in which
    it reads the balances for them. *)
Definition sell_threshold (w : world) : Decimal :=
  if is_zero (sell_order_size_threshold cfg)
  then configured_amount Sell (world_after_book w)
  else sell_order_size_threshold cfg.

Definition world_after_sell_threshold (w : world) : world :=
  if is_zero (sell_order_size_threshold cfg) && is_relative_order_size cfg
  then snd (balance Quote (world_after_book w))
  else world_after_book w.

Definition buy_threshold (w : world) : Decimal :=
  if is_zero (buy_order_size_threshold cfg)
  then configured_amount Buy (world_after_sell_threshold w)
  else buy_order_size_threshold cfg.

Definition world_after_thresholds (w : world) : world :=
  if is_zero (buy_order_size_threshold cfg) && is_relative_order_size cfg
  then snd (balance Base (world_after_sell_threshold w))
  else world_after_sell_threshold w.

(** The state that a scan of [get_top_prices] leaves and the line it logs. *)
Definition after_sell_scan (threshold : Decimal) (sell_orders : list Order) (s : state) : state :=
  match find (fun o => gtb (quote_amount o) threshold) sell_orders with
  | Some o =>
      let s := set_sell_order_to_beat (Some (order_id o)) (set_top_sell_price (price o) s) in
      if ltb (price o) (lower_bound cfg) then set_top_sell_price (lower_bound cfg) s else s
  | None => s
  end.

Definition sell_scan_log (threshold : Decimal) (sell_orders : list Order) : list event :=
  match find (fun o => gtb (quote_amount o) threshold) sell_orders with
  | Some o =>
      if ltb (price o) (lower_bound cfg)
      then [LogDebug (TopPriceBeyondBound Sell (price o) (lower_bound cfg))]
      else [LogDebug (TopPriceToBeHigher Sell (price o))]
  | None => []
  end.

Definition after_buy_scan (threshold : Decimal) (buy_orders : list Order) (s : state) : state :=
  match find (fun o => gtb (base_amount o) threshold) buy_orders with
  | Some o =>
      let s := set_buy_order_to_beat (Some (order_id o)) (set_top_buy_price (price o) s) in
      if gtb (price o) (upper_bound cfg) then set_top_buy_price (upper_bound cfg) s else s
  | None => s
  end.

Definition buy_scan_log (threshold : Decimal) (buy_orders : list Order) : list event :=
  match find (fun o => gtb (base_amount o) threshold) buy_orders with
  | Some o =>
      if gtb (price o) (upper_bound cfg)
      then [LogDebug (TopPriceBeyondBound Buy (price o) (upper_bound cfg))]
      else [LogDebug (TopPriceToBeHigher Buy (price o))]
  | None => []
  end.

(** The lines that [get_top_prices] logs in a world. *)
Definition top_prices_log (w : world) : list event :=
  sell_scan_log (sell_threshold w) (filter_sell_orders (book_seen w)) ++
  buy_scan_log (buy_threshold w) (filter_buy_orders (book_seen w)).

Definition is_debug (ev : event) : bool :=
  match ev with
  | LogDebug _ => true
  | _ => false
  end.

(** The world after [place_order] has read the configured amount. *)
Definition world_after_amount (t : side) (w : world) : world :=
  if is_relative_order_size cfg
  then snd (balance match t with Buy => Base | Sell => Quote end w)
  else w.

(** The call that submits an order of a side. *)
Definition submit (t : side) (amount p : Decimal) (w : world) : option Order * world :=
  match t with
  | Buy => place_market_buy_order amount p w
  | Sell => place_market_sell_order amount p w
  end.

(** What [place_order] has in hand when it reaches the dust check: nothing,
    when the configured amount rounds to zero, or the two amounts and the
    price. *)
Inductive prepared : Type :=
| NothingToPlace
| Amounts (amount_quote amount_base price : Decimal).

(** The arithmetic of [place_order] between the test of the reference price
    and the dust check, for the reference price [top] and the configured
    amount [configured] of the side. *)
Definition prepare (fuel : nat) (t : side) (top configured : Decimal) : outcome prepared :=
  match t with
  | Buy =>
      match quantize configured (- Z.of_nat (base_precision cfg)) with
      | inl sg => Raise (DecimalSignal sg)
      | inr amount_base =>
          if is_zero amount_base then Ret NothingToPlace
          else
            match div amount_base top with
            | inl sg => Raise (DecimalSignal sg)
            | inr quotient =>
                match quantize quotient (- Z.of_nat (quote_precision cfg)) with
                | inl sg => Raise (DecimalSignal sg)
                | inr amount_quote =>
                    match div amount_base amount_quote with
                    | inl sg => Raise (DecimalSignal sg)
                    | inr price =>
                        match buy_loop cfg fuel top amount_base amount_quote price with
                        | Ret (amount_quote, price) =>
                            if gtb price (upper_bound cfg) then
                              match div amount_base (upper_bound cfg) with
                              | inl sg => Raise (DecimalSignal sg)
                              | inr amount_quote =>
                                  Ret (Amounts amount_quote amount_base (upper_bound cfg))
                              end
                            else Ret (Amounts amount_quote amount_base price)
                        | Raise e => Raise e
                        | OutOfFuel => OutOfFuel
                        end
                    end
                end
            end
      end
  | Sell =>
      match quantize configured (- Z.of_nat (quote_precision cfg)) with
      | inl sg => Raise (DecimalSignal sg)
      | inr amount_quote =>
          if is_zero amount_quote then Ret NothingToPlace
          else
            match quantize (mul amount_quote top) (- Z.of_nat (base_precision cfg)) with
            | inl sg => Raise (DecimalSignal sg)
            | inr amount_base =>
                match div amount_base amount_quote with
                | inl sg => Raise (DecimalSignal sg)
                | inr price =>
                    match sell_loop cfg fuel top amount_quote amount_base price with
                    | Ret (amount_base, price) =>
                        Ret (Amounts amount_quote amount_base
                               (if ltb price (lower_bound cfg) then lower_bound cfg else price))
                    | Raise e => Raise e
                    | OutOfFuel => OutOfFuel
                    end
                end
            end
      end
  end.

(** [place_order] in stages: the test of the reference price, the
    arithmetic, the dust check, the call and its bookkeeping. *)
Definition place_order_staged (fuel : nat) (t : side) (s : state) (w : world) : run unit :=
  if is_zero (top_price t s) then
    mkRun (Ret tt) (set_disabled true s) w [LogError (CannotDetermineTopPrice t)]
  else
    let w1 := world_after_amount t w in
    match prepare fuel t (top_price t s) (configured_amount t w) with
    | Raise e => mkRun (Raise e) s w1 []
    | OutOfFuel => mkRun OutOfFuel s w1 []
    | Ret NothingToPlace => mkRun (Ret tt) (set_disabled true s) w1 [LogError (ZeroAmount t)]
    | Ret (Amounts amount_quote amount_base p) =>
        if is_too_small_amounts cfg amount_quote amount_base then
          mkRun (Ret tt) s w1 [LogError (AmountTooSmall t)]
        else
          let answer := submit t (to_binary64 amount_quote) (to_binary64 p) w1 in
          let request := placement t (to_binary64 amount_quote) (to_binary64 p) in
          match fst answer with
          | Some o =>
              mkRun (Ret tt)
                    (set_orders (dict_set t (order_id o) (orders s)) (set_beaten_order t s))
                    (snd answer) [request]
          | None =>
              mkRun (Ret tt) (set_beaten_order t s) (snd answer)
                    [request; LogError (FailedToPlace t)]
          end
    end.

(** The check phase up to a tracked order: [get_top_prices] and the checks
    of the entries of [self.orders] before it. *)
Definition checks_before (fuel : nat) (before : list (side * string)) : M unit :=
  bind (get_top_prices cfg) (fun _ => for_each (check_order cfg fuel) before).

(** No foreign order of the side in the snapshot is larger than the size
    threshold. *)
Definition no_qualifying_order (t : side) (w : world) : Prop :=
  match t with
  | Buy => Forall (fun o => gtb (base_amount o) (buy_threshold w) = false)
                  (filter_buy_orders (book_seen w))
  | Sell => Forall (fun o => gtb (quote_amount o) (sell_threshold w) = false)
                   (filter_sell_orders (book_seen w))
  end.

(** The ways a run of [place_order] can go. *)
Inductive place_order_run (t : side) (s : state) (w : world) (r : run unit) : Prop :=
| no_reference_price :
    is_zero (top_price t s) = true ->
    result r = Ret tt ->
    events r = [LogError (CannotDetermineTopPrice t)] ->
    final r = set_disabled true s ->
    place_order_run t s w r
| zero_amount :
    is_zero (top_price t s) = false ->
    result r = Ret tt ->
    events r = [LogError (ZeroAmount t)] ->
    final r = set_disabled true s ->
    place_order_run t s w r
| aborted :
    is_zero (top_price t s) = false ->
    result r <> Ret tt ->
    events r = [] ->
    final r = s ->
    place_order_run t s w r
| dust :
    is_zero (top_price t s) = false ->
    result r = Ret tt ->
    events r = [LogError (AmountTooSmall t)] ->
    final r = s ->
    place_order_run t s w r
| accepted (amount p : Decimal) (o : Order) :
    is_zero (top_price t s) = false ->
    computed_price t s p ->
    result r = Ret tt ->
    events r = [placement t (to_binary64 amount) (to_binary64 p)] ->
    final r = set_orders (dict_set t (order_id o) (orders s)) (set_beaten_order t s) ->
    place_order_run t s w r
| rejected (amount p : Decimal) :
    is_zero (top_price t s) = false ->
    computed_price t s p ->
    result r = Ret tt ->
    events r = [placement t (to_binary64 amount) (to_binary64 p); LogError (FailedToPlace t)] ->
    final r = set_beaten_order t s ->
    place_order_run t s w r.

End Vocabulary.

(** *** A small exchange to run the strategy on *)
Module Toy.

Record toy_world : Type := mkToy {
  toy_clock : Z;
  toy_book : list Order;
  toy_open : list Order;
  toy_cancel_ok : bool;
  toy_place_ok : bool;
  toy_placed : list Order }.

Definition has_prefix (p : string) (o : Order) : bool := String.prefix p (order_id o).

Definition toy_get_order (id : option string) (w : toy_world) : option Order * toy_world :=
  match id with
  | Some i => (find (fun o => String.eqb (order_id o) i) (toy_open w), w)
  | None => (None, w)
  end.

Definition toy_cancel (o : Order) (w : toy_world) : bool * toy_world :=
  if toy_cancel_ok w then
    (true, mkToy (toy_clock w + 1) (toy_book w)
                 (filter (fun x => negb (String.eqb (order_id x) (order_id o))) (toy_open w))
                 (toy_cancel_ok w) (toy_place_ok w) (toy_placed w))
  else (false, w).

Definition toy_place (tag : string) (amount price : Decimal) (w : toy_world)
  : option Order * toy_world :=
  if toy_place_ok w then
    let o := mkOrder (tag ++ "-new") price amount amount amount amount in
    (Some o, mkToy (toy_clock w + 1) (toy_book w) (o :: toy_open w)
                   (toy_cancel_ok w) (toy_place_ok w) (o :: toy_placed w))
  else (None, w).

Definition toy_quotient (a b : Decimal) : Decimal :=
  match div a b with
  | inr q => q
  | inl _ => of_Z 0
  end.

(** An order seen from the other side of the market: the amounts change
    places and the price is inverted. *)
Definition invert (o : Order) : Order :=
  mkOrder (order_id o) (toy_quotient (of_Z 1) (price o)) (quote_amount o) (base_amount o)
          (original_amount o) (remaining_amount o).

#[export] Instance toy_exchange : Exchange := {|
  world := toy_world;
  now := toy_clock;
  timedelta_seconds := fun d => dint (rescale (mkDecimal (dint d) (dexp d + 6)) 0);
  get_market_orders := fun w => (toy_book w, w);
  own_orders := fun w => (toy_placed w, w);
  filter_buy_orders := filter (has_prefix "buy");
  filter_sell_orders := fun l => map invert (filter (has_prefix "sell") l);
  get_order := toy_get_order;
  cancel_orders := toy_cancel;
  place_market_buy_order := toy_place "buy";
  place_market_sell_order := toy_place "sell";
  balance := fun _ w => (of_Z 1000, w);
  float_mul := mul;
  float_div := toy_quotient;
  float_inv := toy_quotient (of_Z 1) |}.

End Toy.

(** *** Concrete workers on the small exchange *)
Module Scenarios.
Import Toy.
#[local] Open Scope string_scope.

(** A worker in mode ['both'] with absolute order sizes, no size thresholds,
    a minimum interval of one second and the fill threshold [0.8]. *)
Definition worker (upper lower buy_amount sell_amount : Decimal) (bp qp : nat)
  : worker_config :=
  mkConfig "both" buy_amount sell_amount false (of_Z 0) (of_Z 0) upper lower
           (of_Z 1) (mkDecimal 8 (-1)) bp qp.

(** The state after [__init__] with both reference prices set to [c]. *)
Definition with_top_prices (c : Decimal) : state :=
  set_top_sell_price c (set_top_buy_price c init_state).

Definition quiet_world : toy_world := mkToy 0 [] [] true true [].

(** Buying 50 against a reference price of 100, eight digits on both assets. *)
Definition buyer (upper : Decimal) : worker_config :=
  worker upper (of_Z 1) (of_Z 50) (of_Z 50) 8 8.

(** Buying 1 against a reference price of 100, two digits on both assets. *)
Definition small_buyer : worker_config :=
  worker (of_Z 1000) (of_Z 0) (of_Z 1) (of_Z 1) 2 2.

(** Selling 1 against a reference price of [2 ** -14], four digits on both
    assets. *)
Definition small_seller : worker_config :=
  worker (of_Z 1000) (of_Z 0) (of_Z 1) (of_Z 1) 4 4.

Definition two_to_minus_14 : Decimal := mkDecimal 6103515625 (-14).

(** An own buy order of 100 at price 99 of which 15 remain. *)
Definition filled_order : Order :=
  mkOrder "1.7.1" (of_Z 99) (of_Z 100) (of_Z 1) (of_Z 100) (of_Z 15).

(** A foreign buy order of 500 at price 100. *)
Definition foreign_buy : Order :=
  mkOrder "buy-1.7.2" (of_Z 100) (of_Z 500) (of_Z 5) (of_Z 500) (of_Z 500).

(** The worker tracks [filled_order] as its buy order. *)
Definition tracking : state :=
  set_beaten_buy_order (Some "buy-1.7.2")
    (set_orders [(Buy, "1.7.1")] (with_top_prices (of_Z 100))).

(** A book with both orders on which cancellations succeed or not. *)
Definition book (cancel_ok : bool) : toy_world :=
  mkToy (datetime_2000_01_01 + 5000000) [foreign_buy] [filled_order; foreign_buy]
        cancel_ok true [].

(** A foreign buy order of 5 at price 101, below the size threshold of a
    worker that buys 50. *)
Definition thin_buy : Order :=
  mkOrder "buy-1.7.3" (of_Z 101) (of_Z 5) (mkDecimal 5 (-2)) (of_Z 5) (of_Z 5).

Definition thin_book : toy_world := mkToy 0 [thin_buy] [thin_buy] true true [].

(** Buying 1000000 against a reference price of 1, eight digits on both
    assets. *)
Definition large_buyer : worker_config :=
  worker (of_Z 1000) (of_Z 0) (of_Z 1000000) (of_Z 1) 8 8.

(** A book from which the tracked order has gone. *)
Definition book_without_own : toy_world :=
  mkToy (datetime_2000_01_01 + 5000000) [foreign_buy] [foreign_buy] true true [].

End Scenarios.

End Koth.

(** ** Staggered Orders: the boundary check of [maintain_strategy] *)
Module Staggered.
Import Dec.

(** The two attributes that the boundary check assigns. *)
Record state : Type := mkState {
  upper_bound : Decimal;
  lower_bound : Decimal }.

Inductive exn : Type := IndexError.

(** The block under [# Check boundaries]. *)
Definition check_boundaries (market_center_price : Decimal) (s : state) : state :=
  if gtb market_center_price (upper_bound s) then
    mkState market_center_price (lower_bound s)
  else if ltb market_center_price (lower_bound s) then
    mkState (upper_bound s) market_center_price
  else s.

(** [maintain_strategy] up to and including the boundary check.  The centre
    price, the sorted order lists and the balances come from the base class;
    [buy_orders[0]] and [sell_orders[-1]] raise on an empty list.  What
    follows the check (allocation and shifting of orders) is code of the base
    class. *)
Definition maintain_strategy (market_center_price : Decimal)
    (buy_orders sell_orders : list Decimal) (s : state) : exn + state :=
  match buy_orders with
  | [] => inl IndexError
  | highest_buy_price :: _ =>
      match rev sell_orders with
      | [] => inl IndexError
      | lowest_sell_price :: _ => inr (check_boundaries market_center_price s)
      end
  end.

End Staggered.

(** ** King of the Hill: the handlers around the strategy *)
Module KothExt.
Import Dec Koth.

Section Handlers.

Context {E : Exchange}.
Variable cfg : worker_config.

(** [error] *)
Definition error (s : state) : state := set_disabled true s.

(** [tick].  The counter is passed in and the new value of [self.counter] is
    returned; a tick that raises returns none, as the assignment is not
    reached. *)
Definition tick (fuel : nat) (counter : Z) : M Z :=
  bind (if counter mod 4 =? 0 then maintain_strategy cfg fuel else ret tt)
       (fun _ => ret (counter + 1)).

(** A relation that every run of [m] keeps between the state it starts from
    and the state it leaves. *)
Definition keeps {A} (R : state -> state -> Prop) (m : M A) : Prop :=
  forall s w, R s (final (m s w)).

(** A property of every event that [m] emits. *)
Definition emits_only {A} (P : event -> Prop) (m : M A) : Prop :=
  forall s w ev, In ev (events (m s w)) -> P ev.

(** [last_check] is as before, and [disabled] is not cleared. *)
Definition steady (s s' : state) : Prop :=
  last_check s' = last_check s /\ (disabled s = true -> disabled s' = true).

(** What [get_top_prices] does not assign. *)
Definition same_tracking (s s' : state) : Prop :=
  orders s' = orders s /\
  beaten_buy_order s' = beaten_buy_order s /\
  beaten_sell_order s' = beaten_sell_order s /\
  last_check s' = last_check s /\
  disabled s' = disabled s.

(** What [place_order] does not assign. *)
Definition same_references (s s' : state) : Prop :=
  top_buy_price s' = top_buy_price s /\
  top_sell_price s' = top_sell_price s /\
  buy_order_to_beat s' = buy_order_to_beat s /\
  sell_order_to_beat s' = sell_order_to_beat s /\
  last_check s' = last_check s.

(** The first foreign order of a side in the snapshot that is larger than
    the size threshold: the order at which the scan of [get_top_prices]
    breaks. *)
Definition qualifying (t : side) (w : world) : option Order :=
  match t with
  | Buy => find (fun o => gtb (base_amount o) (buy_threshold cfg w))
                (filter_buy_orders (book_seen w))
  | Sell => find (fun o => gtb (quote_amount o) (sell_threshold cfg w))
                 (filter_sell_orders (book_seen w))
  end.

(** A price brought within the bound of its side. *)
Definition clamp (t : side) (p : Decimal) : Decimal :=
  match t with
  | Buy => if gtb p (upper_bound cfg) then upper_bound cfg else p
  | Sell => if ltb p (lower_bound cfg) then lower_bound cfg else p
  end.

Definition within_bound (t : side) (p : Decimal) : bool :=
  match t with
  | Buy => leb p (upper_bound cfg)
  | Sell => geb p (lower_bound cfg)
  end.

(** The ids of the worker's own orders as [get_top_prices] reads them. *)
Definition own_ids_seen (w : world) : list string :=
  map order_id (fst (own_orders (snd (get_market_orders w)))).

(** The tests of [check_orders] on the price of a live own order: a better
    foreign price has appeared. *)
Definition outbid (t : side) (s : state) (o : Order) : bool :=
  match t with
  | Buy => ltb (price o) (top_buy_price s)
  | Sell => gtb (float_inv (price o)) (top_sell_price s)
  end.

(** The sides of the tracked orders. *)
Definition tracked_sides (s : state) : list side := map fst (orders s).

(** The filter of the base class for a side. *)
Definition filter_orders (t : side) : list Order -> list Order :=
  match t with
  | Buy => filter_buy_orders
  | Sell => filter_sell_orders
  end.

(** A filter returns orders under the ids of orders that it was given. *)
Definition keeps_ids (f : list Order -> list Order) : Prop :=
  forall l o, In o (f l) -> In (order_id o) (map order_id l).

(** The line that [check_orders] logs when it cancels an order that is not
    partially filled, with the world in which it looks for the beaten
    order. *)
Definition cancel_reason (t : side) (s : state) (w : world) : message :=
  match fst (get_order (beaten_order t s) w) with
  | None => NoBeatenOrder t
  | Some _ => DetectedOrderAbove
  end.

End Handlers.

(** More situations on the small exchange. *)
Module MoreScenarios.
Import Toy Scenarios.
#[local] Open Scope string_scope.

(** A foreign sell order of 500 at price 0.008, which inverted is 125. *)
Definition foreign_sell : Order :=
  mkOrder "sell-1.7.4" (mkDecimal 8 (-3)) (of_Z 500) (of_Z 62500) (of_Z 500) (of_Z 500).

(** A foreign buy order of 500 at price 2000, above the upper bound 1000. *)
Definition high_buy : Order :=
  mkOrder "buy-1.7.5" (of_Z 2000) (of_Z 500) (mkDecimal 25 (-2)) (of_Z 500) (of_Z 500).

(** An own buy order at price 101 that nothing has filled. *)
Definition resting_order : Order :=
  mkOrder "1.7.6" (of_Z 101) (of_Z 50) (mkDecimal 5 (-1)) (of_Z 50) (of_Z 50).

Definition two_sided_book : toy_world :=
  mkToy (datetime_2000_01_01 + 5000000) [foreign_buy; foreign_sell]
        [foreign_buy; foreign_sell] true true [].

(** An own sell order of 500 at price 0.004, which inverted is 250. *)
Definition own_sell : Order :=
  mkOrder "sell-1.7.8" (mkDecimal 4 (-3)) (of_Z 500) (of_Z 125000) (of_Z 500) (of_Z 500).

(** A book on which the worker's own sell order comes first. *)
Definition book_with_own_sell : toy_world :=
  mkToy (datetime_2000_01_01 + 5000000) [own_sell; foreign_sell]
        [own_sell; foreign_sell] true true [own_sell].

Definition high_book : toy_world :=
  mkToy (datetime_2000_01_01 + 5000000) [high_buy] [high_buy] true true [].

(** The worker tracks [resting_order], placed to beat [foreign_buy]. *)
Definition resting : state :=
  set_beaten_buy_order (Some "buy-1.7.2")
    (set_orders [(Buy, "1.7.6")] (with_top_prices (of_Z 100))).

Definition resting_book : toy_world :=
  mkToy (datetime_2000_01_01 + 5000000) [foreign_buy] [resting_order; foreign_buy]
        true true [].

(** The same book after the beaten order has left it. *)
Definition resting_book_without_beaten : toy_world :=
  mkToy (datetime_2000_01_01 + 5000000) [] [resting_order] true true [].

(** A worker as [buyer] in another mode. *)
Definition one_sided (m : string) : worker_config :=
  mkConfig m (of_Z 50) (of_Z 50) false (of_Z 0) (of_Z 0) (of_Z 1000) (of_Z 1)
           (of_Z 1) (mkDecimal 8 (-1)) 8 8.

End MoreScenarios.

End KothExt.

(** * Properties *)

(** ** Facts about the decimal arithmetic *)
Module DecFacts.
Import Dec.

Lemma digits_aux_pos (fuel : nat) (n : Z) : 1 <= digits_aux fuel n.
Proof.
  revert n; induction fuel as [|f IH]; intros n; cbn [digits_aux]; [lia|].
  destruct (n <? 10); [lia|]. specialize (IH (n / 10)). lia.
Qed.

Lemma digits_aux_upper (fuel : nat) :
  forall n k, 0 <= n < 10 ^ k -> 1 <= k -> digits_aux fuel n <= k.
Proof.
  induction fuel as [|f IH]; intros n k Hn Hk; cbn [digits_aux]; [lia|].
  destruct (Z.ltb_spec n 10) as [|Hge]; [lia|].
  assert (Hk2 : 2 <= k).
  { destruct (Z.eq_dec k 1) as [->|]; [|lia]. change (10 ^ 1) with 10 in Hn. lia. }
  assert (Hpow : 10 ^ k = 10 * 10 ^ (k - 1)).
  { replace k with (Z.succ (k - 1)) at 1 by lia. apply Z.pow_succ_r. lia. }
  assert (n / 10 < 10 ^ (k - 1)).
  { apply Z.div_lt_upper_bound; lia. }
  assert (0 <= n / 10) by (apply Z.div_pos; lia).
  specialize (IH (n / 10) (k - 1)). lia.
Qed.

Lemma digits_aux_lower (fuel : nat) :
  forall n k, 0 <= n < 2 ^ (Z.of_nat fuel + 1) -> digits_aux fuel n <= k -> n < 10 ^ k.
Proof.
  induction fuel as [|f IH]; intros n k Hn Hd; cbn [digits_aux] in Hd.
  - change (2 ^ (Z.of_nat 0 + 1)) with 2 in Hn.
    assert (10 ^ 1 <= 10 ^ k) by (apply Z.pow_le_mono_r; lia).
    change (10 ^ 1) with 10 in *. lia.
  - destruct (Z.ltb_spec n 10) as [Hlt|Hge].
    + assert (10 ^ 1 <= 10 ^ k) by (apply Z.pow_le_mono_r; lia).
      change (10 ^ 1) with 10 in *. lia.
    + pose proof (digits_aux_pos f (n / 10)) as Hp.
      assert (Hpow : 10 ^ k = 10 * 10 ^ (k - 1)).
      { replace k with (Z.succ (k - 1)) at 1 by lia. apply Z.pow_succ_r. lia. }
      assert (H2 : 2 ^ (Z.of_nat (S f) + 1) = 2 * 2 ^ (Z.of_nat f + 1)).
      { replace (Z.of_nat (S f) + 1) with (Z.succ (Z.of_nat f + 1)) by lia.
        apply Z.pow_succ_r. lia. }
      assert (Hq : n / 10 < 2 ^ (Z.of_nat f + 1)).
      { apply Z.div_lt_upper_bound; lia. }
      assert (0 <= n / 10) by (apply Z.div_pos; lia).
      specialize (IH (n / 10) (k - 1) (conj H Hq)).
      assert (n / 10 < 10 ^ (k - 1)) by (apply IH; lia).
      pose proof (Z.div_mod n 10). pose proof (Z.mod_pos_bound n 10). lia.
Qed.

Lemma ndigits_pos (n : Z) : 1 <= ndigits n.
Proof. apply digits_aux_pos. Qed.

(** At most [k] digits means below [10 ^ k]. *)
Lemma ndigits_le_iff (n k : Z) : 1 <= k -> (ndigits n <= k <-> Z.abs n < 10 ^ k).
Proof.
  intros Hk; unfold ndigits; split; intros H.
  - destruct (Z.eq_dec (Z.abs n) 0) as [->|Hnz].
    + apply Z.pow_pos_nonneg; lia.
    + apply (digits_aux_lower _ _ _) with (2 := H).
      pose proof (Z.log2_spec (Z.abs n)) as Hs.
      pose proof (Z.log2_nonneg (Z.abs n)).
      rewrite Z2Nat.id by lia. unfold Z.succ in Hs. lia.
  - apply digits_aux_upper; lia.
Qed.

Lemma fix_small (x : Decimal) : ndigits (dint x) <= prec -> fix_ x = x.
Proof.
  intros H; unfold fix_. destruct (Z.leb_spec (ndigits (dint x)) prec); [reflexivity|lia].
Qed.

(** A successful [quantize] yields the requested exponent and a coefficient
    that fits the context. *)
Lemma quantize_inr (x y : Decimal) (e : Z) :
  quantize x e = inr y -> dexp y = e /\ ndigits (dint y) <= prec.
Proof.
  unfold quantize. destruct (dint x =? 0).
  - intros [= <-]; cbn. split; [reflexivity|]. vm_compute; discriminate.
  - destruct (prec <? _); [discriminate|].
    destruct (Z.ltb_spec prec (ndigits (dint (rescale x e)))); [discriminate|].
    intros [= <-]. split; [|assumption].
    unfold rescale; destruct (e <=? dexp x); reflexivity.
Qed.

Lemma quantize_fixpoint (y : Decimal) :
  ndigits (dint y) <= prec -> quantize y (dexp y) = inr y.
Proof.
  intros Hd; destruct y as [c e]; cbn [dint dexp] in *. unfold quantize; cbn [dint dexp].
  destruct (Z.eqb_spec c 0) as [->|Hc]; [reflexivity|].
  replace (ndigits c + e - e) with (ndigits c) by lia.
  destruct (Z.ltb_spec prec (ndigits c)); [lia|].
  unfold rescale; cbn [dint dexp]. rewrite Z.leb_refl, Z.sub_diag, Z.mul_1_r.
  cbn [dint]. destruct (Z.ltb_spec prec (ndigits c)); [lia|reflexivity].
Qed.

(** C9: quantizing to [p] fractional digits, the operation [place_order]
    rounds amounts with, is idempotent: quantizing the result again gives the
    same result, and where the first quantization signals, so does the
    sequence. *)
Theorem quantize_idempotent (x : Decimal) (p : nat) :
  and_then (quantize x (- Z.of_nat p)) (fun y => quantize y (- Z.of_nat p))
  = quantize x (- Z.of_nat p).
Proof.
  destruct (quantize x (- Z.of_nat p)) as [sg|y] eqn:Hq; cbn [and_then]; [reflexivity|].
  destruct (quantize_inr _ _ _ Hq) as [He Hd].
  rewrite <- He. now apply quantize_fixpoint.
Qed.

Example quantize_twice :
  quantize (mkDecimal 123456789 (-5)) (-2) = inr (mkDecimal 123457 (-2)) /\
  quantize (mkDecimal 123457 (-2)) (-2) = inr (mkDecimal 123457 (-2)).
Proof. split; reflexivity. Qed.

Lemma compare_antisym (a b : Decimal) : compare b a = CompOpp (compare a b).
Proof.
  unfold compare. rewrite (Z.min_comm (dexp b) (dexp a)). apply Z.compare_antisym.
Qed.

Lemma compare_refl (a : Decimal) : compare a a = Eq.
Proof. unfold compare. apply Z.compare_refl. Qed.

(** The comparison can be made at any exponent below both operands. *)
Lemma compare_aligned (a b : Decimal) (m : Z) :
  m <= dexp a -> m <= dexp b ->
  compare a b = (dint a * 10 ^ (dexp a - m) ?= dint b * 10 ^ (dexp b - m)).
Proof.
  intros Ha Hb. unfold compare.
  set (m0 := Z.min (dexp a) (dexp b)).
  assert (Hm0 : m <= m0) by (unfold m0; lia).
  assert (Ha0 : m0 <= dexp a) by (unfold m0; lia).
  assert (Hb0 : m0 <= dexp b) by (unfold m0; lia).
  replace (dexp a - m) with ((dexp a - m0) + (m0 - m)) by lia.
  replace (dexp b - m) with ((dexp b - m0) + (m0 - m)) by lia.
  rewrite !Z.pow_add_r by lia. rewrite !Z.mul_assoc.
  apply Zmult_compare_compat_r.
  apply Z.lt_gt, Z.pow_pos_nonneg; lia.
Qed.

Lemma ltb_leb (a b : Decimal) : ltb a b = true -> leb a b = true.
Proof. unfold ltb, leb. destruct (compare a b); congruence. Qed.

Lemma leb_refl (a : Decimal) : leb a a = true.
Proof. unfold leb. now rewrite compare_refl. Qed.

Lemma ltb_irrefl (a : Decimal) : ltb a a = false.
Proof. unfold ltb. now rewrite compare_refl. Qed.

Lemma gtb_false_leb (a b : Decimal) : gtb a b = false -> leb a b = true.
Proof.
  unfold gtb, ltb, leb. rewrite (compare_antisym a b).
  destruct (compare a b); cbn; congruence.
Qed.

Lemma ltb_false_geb (a b : Decimal) : ltb a b = false -> geb a b = true.
Proof.
  unfold geb, ltb, leb. rewrite (compare_antisym a b).
  destruct (compare a b); cbn; congruence.
Qed.

Lemma leb_false_gtb (a b : Decimal) : leb a b = false -> gtb a b = true.
Proof.
  unfold gtb, ltb, leb. rewrite (compare_antisym a b).
  destruct (compare a b); cbn; congruence.
Qed.

Lemma geb_false_ltb (a b : Decimal) : geb a b = false -> ltb a b = true.
Proof.
  unfold geb, ltb, leb. rewrite (compare_antisym a b).
  destruct (compare a b); cbn; congruence.
Qed.

Lemma ltb_iff (a b : Decimal) (m : Z) :
  m <= dexp a -> m <= dexp b ->
  (ltb a b = true <-> dint a * 10 ^ (dexp a - m) < dint b * 10 ^ (dexp b - m)).
Proof.
  intros Ha Hb. unfold ltb. rewrite (compare_aligned a b m Ha Hb).
  unfold Z.lt. destruct (_ ?= _); split; congruence.
Qed.

Lemma leb_iff (a b : Decimal) (m : Z) :
  m <= dexp a -> m <= dexp b ->
  (leb a b = true <-> dint a * 10 ^ (dexp a - m) <= dint b * 10 ^ (dexp b - m)).
Proof.
  intros Ha Hb. unfold leb. rewrite (compare_aligned a b m Ha Hb).
  unfold Z.le. destruct (_ ?= _); split; congruence.
Qed.

Lemma ltb_leb_trans (a b c : Decimal) :
  ltb a b = true -> leb b c = true -> ltb a c = true.
Proof.
  set (m := Z.min (dexp a) (Z.min (dexp b) (dexp c))).
  rewrite (ltb_iff a b m), (leb_iff b c m), (ltb_iff a c m) by (unfold m; lia). lia.
Qed.

Lemma leb_ltb_trans (a b c : Decimal) :
  leb a b = true -> ltb b c = true -> ltb a c = true.
Proof.
  set (m := Z.min (dexp a) (Z.min (dexp b) (dexp c))).
  rewrite (leb_iff a b m), (ltb_iff b c m), (ltb_iff a c m) by (unfold m; lia). lia.
Qed.

(** Taking one unit off a non-zero quantized amount is exact. *)
Lemma sub_unit (c : Z) (p : nat) :
  c <> 0 -> Z.abs c < 10 ^ prec -> Z.abs (c - 1) < 10 ^ prec ->
  sub (mkDecimal c (- Z.of_nat p)) (unit_of (Z.of_nat p)) = mkDecimal (c - 1) (- Z.of_nat p).
Proof.
  intros Hc Hd Hd'. unfold sub, add, opp, unit_of; cbn [dint dexp].
  destruct (Z.eqb_spec c 0) as [|_]; [contradiction|]. cbn [andb].
  change (- (1) =? 0) with false. cbv iota.
  rewrite Z.min_id, Z.sub_diag. change (10 ^ 0) with 1. rewrite !Z.mul_1_r.
  rewrite fix_small; cbn [dint]; [reflexivity|].
  apply ndigits_le_iff; [unfold prec; lia|]. replace (c + - (1)) with (c - 1) by lia.
  exact Hd'.
Qed.

Lemma div_by_zero (a b : Decimal) :
  dint a <> 0 -> dint b = 0 -> div a b = inl DivisionByZero.
Proof.
  intros Ha Hb. unfold div. rewrite Hb. cbn.
  destruct (Z.eqb_spec (dint a) 0); [contradiction|reflexivity].
Qed.

Lemma div_defined (a b : Decimal) : dint b <> 0 -> exists q, div a b = inr q.
Proof.
  intros Hb. unfold div. destruct (Z.eqb_spec (dint b) 0); [contradiction|].
  destruct (dint a =? 0); eexists; reflexivity.
Qed.

Lemma div_zero (a b q : Decimal) : dint a = 0 -> div a b = inr q -> dint q = 0.
Proof.
  intros Ha. unfold div. destruct (dint b =? 0).
  - rewrite Ha. cbn. discriminate.
  - rewrite Ha. cbn. intros [= <-]. reflexivity.
Qed.

(** Zero is not at or above a positive number. *)
Lemma geb_zero_positive (q top : Decimal) : dint q = 0 -> 0 < dint top -> geb q top = false.
Proof.
  intros Hq Ht. unfold geb, leb, compare. rewrite Hq, Z.mul_0_l.
  assert (0 < dint top * 10 ^ (dexp top - Z.min (dexp top) (dexp q))) as H.
  { apply Z.mul_pos_pos; [exact Ht|]. apply Z.pow_pos_nonneg; lia. }
  apply Z.gt_lt_iff in H. unfold Z.gt in H. now rewrite H.
Qed.

End DecFacts.

(** ** Facts about the conversion to [float] *)
Module FloatFacts.
Import Dec DecFacts DecValue.
Import QArith Qpower Lqa.
#[local] Open Scope Z_scope.

Lemma pow_pos_Q (b : Q) (e : Z) : (0 < b)%Q -> (0 < b ^ e)%Q.
Proof. apply Qpower_0_lt. Qed.

Lemma ten_pos : (0 < 10)%Q. Proof. reflexivity. Qed.
Lemma two_pos : (0 < 2)%Q. Proof. reflexivity. Qed.
Lemma ten_neq : ~ (10 == 0)%Q. Proof. discriminate. Qed.
Lemma two_neq : ~ (2 == 0)%Q. Proof. discriminate. Qed.

Lemma inject_pow (a n : Z) : 0 <= n -> (inject_Z (a ^ n) == inject_Z a ^ n)%Q.
Proof. apply Zpower_Qpower. Qed.

Lemma value_aligned (x : Decimal) (m : Z) :
  m <= dexp x ->
  (value x == inject_Z (dint x * 10 ^ (dexp x - m)) * 10 ^ m)%Q.
Proof.
  intros Hm. unfold value.
  rewrite inject_Z_mult, inject_pow by lia.
  change (inject_Z 10) with 10%Q.
  replace (dexp x) with ((dexp x - m) + m) at 1 by lia.
  rewrite Qpower_plus by exact ten_neq. ring.
Qed.

(** The order of the decimals is the order of the numbers they stand for. *)
Lemma leb_value (x y : Decimal) : leb x y = true <-> (value x <= value y)%Q.
Proof.
  set (m := Z.min (dexp x) (dexp y)).
  rewrite (leb_iff x y m) by (unfold m; lia).
  rewrite (value_aligned x m), (value_aligned y m) by (unfold m; lia).
  rewrite Qmult_le_r by (apply pow_pos_Q, ten_pos).
  rewrite Zle_Qle. reflexivity.
Qed.

Lemma ltb_value (x y : Decimal) : ltb x y = true <-> (value x < value y)%Q.
Proof.
  set (m := Z.min (dexp x) (dexp y)).
  rewrite (ltb_iff x y m) by (unfold m; lia).
  rewrite (value_aligned x m), (value_aligned y m) by (unfold m; lia).
  rewrite Qmult_lt_r by (apply pow_pos_Q, ten_pos).
  rewrite Zlt_Qlt. reflexivity.
Qed.

(** Rounding half to even: the result is within a half of the quotient, and
    a quotient half way between two integers goes to the even one. *)
Lemma round_half_even_spec (A B : Z) :
  0 <= A -> 0 < B ->
  2 * round_half_even A B * B - B <= 2 * A <= 2 * round_half_even A B * B + B /\
  (2 * A = 2 * round_half_even A B * B + B -> Z.even (round_half_even A B) = true) /\
  (2 * A = 2 * round_half_even A B * B - B -> Z.even (round_half_even A B) = true).
Proof.
  intros HA HB. unfold round_half_even.
  pose proof (Z.div_mod A B ltac:(lia)) as Hdm.
  pose proof (Z.mod_pos_bound A B HB) as Hr.
  set (q := A / B) in *. set (r := A mod B) in *.
  destruct (Z.ltb_spec B (2 * r)) as [Hlt|Hge]; cbn [orb].
  - split; [nia|]. split; [intros; nia|intros; nia].
  - destruct (Z.eqb_spec (2 * r) B) as [Heq|Hne]; cbn [andb].
    + destruct (Z.odd q) eqn:Hodd.
      * split; [nia|]. split; [intros; nia|].
        intros _. rewrite Z.even_add, <- Z.negb_odd, Hodd. reflexivity.
      * split; [nia|]. split; [|intros; nia].
        intros _. rewrite <- Z.negb_odd, Hodd. reflexivity.
    + split; [nia|]. split; intros; nia.
Qed.

Lemma inject_Z_sub (a b : Z) : (inject_Z (a - b) == inject_Z a - inject_Z b)%Q.
Proof. unfold Z.sub. rewrite inject_Z_plus, inject_Z_opp. reflexivity. Qed.

Ltac to_Q H :=
  first [rewrite Zle_Qle in H | rewrite Zlt_Qlt in H | apply inject_Z_injective in H | idtac];
  repeat first [rewrite inject_Z_plus in H | rewrite inject_Z_mult in H
               | rewrite inject_Z_sub in H | rewrite inject_Z_opp in H].

Lemma inject_pos (z : Z) : 0 < z -> (0 < inject_Z z)%Q.
Proof. intros H. rewrite Zlt_Qlt in H. exact H. Qed.

(** Rounding half to even, on the quotient as a rational. *)
Lemma round_half_even_Q (A B : Z) (a : Q) :
  0 <= A -> 0 < B ->
  (a * inject_Z B == inject_Z A)%Q ->
  let m := round_half_even A B in
  (inject_Z m - (1 # 2) <= a)%Q /\ (a <= inject_Z m + (1 # 2))%Q /\
  ((a == inject_Z m + (1 # 2))%Q -> Z.even m = true) /\
  ((a == inject_Z m - (1 # 2))%Q -> Z.even m = true).
Proof.
  intros HA HB Ha m.
  destruct (round_half_even_spec A B HA HB) as ([Hlo Hhi] & Hup & Hdown).
  fold m in Hlo, Hhi, Hup, Hdown.
  pose proof (inject_pos B HB) as Hb.
  to_Q Hlo. to_Q Hhi.
  set (b := inject_Z B) in *. set (mq := inject_Z m) in *. set (Aq := inject_Z A) in *.
  change (inject_Z 2) with 2%Q in *.
  split; [|split; [|split]].
  - assert (H : (mq * b - (1 # 2) * b <= a * b)%Q) by (rewrite Ha; lra).
    nra.
  - assert (H : (a * b <= mq * b + (1 # 2) * b)%Q) by (rewrite Ha; lra).
    nra.
  - intros Heq. apply Hup.
    assert (H : (2 * Aq == 2 * mq * b + b)%Q) by (rewrite <- Ha, Heq; ring).
    unfold Aq, mq, b in H. change 2%Q with (inject_Z 2) in H.
    rewrite <- !inject_Z_mult, <- inject_Z_plus in H.
    apply (proj1 (inject_Z_injective _ _)) in H. exact H.
  - intros Heq. apply Hdown.
    assert (H : (2 * Aq == 2 * mq * b - b)%Q) by (rewrite <- Ha, Heq; ring).
    unfold Aq, mq, b in H. change 2%Q with (inject_Z 2) in H.
    rewrite <- !inject_Z_mult, <- inject_Z_sub in H.
    apply (proj1 (inject_Z_injective _ _)) in H. exact H.
Qed.


Lemma ratio_mult (n d : Z) : 0 < d -> (ratio n d * inject_Z d == inject_Z n)%Q.
Proof.
  intros Hd. unfold ratio. field. intros H.
  pose proof (inject_pos d Hd) as Hp. rewrite H in Hp. discriminate.
Qed.

Lemma ratio_pos (n d : Z) : 0 < n -> 0 < d -> (0 < ratio n d)%Q.
Proof.
  intros Hn Hd. pose proof (ratio_mult n d Hd) as H.
  pose proof (inject_pos n Hn). pose proof (inject_pos d Hd).
  destruct (Qlt_le_dec 0 (ratio n d)) as [|Hle]; [assumption|].
  exfalso. nra.
Qed.

Lemma pow2_opp (s : Z) : (2 ^ s * 2 ^ (- s) == 1)%Q.
Proof.
  rewrite <- Qpower_plus by exact two_neq. now rewrite Z.add_opp_diag_r.
Qed.

Lemma pow2_succ (s : Z) : (2 ^ (s + 1) == 2 * 2 ^ s)%Q.
Proof. rewrite Qpower_plus by exact two_neq. change (2 ^ 1)%Q with 2%Q. ring. Qed.

Lemma pow2_pred (s : Z) : (2 * 2 ^ (s - 1) == 2 ^ s)%Q.
Proof. rewrite <- pow2_succ. now replace (s - 1 + 1) with s by lia. Qed.

Lemma scaled_round_Q (n d s : Z) :
  0 < n -> 0 < d ->
  let m := scaled_round n d s in
  let a := (ratio n d * 2 ^ s)%Q in
  (inject_Z m - (1 # 2) <= a)%Q /\ (a <= inject_Z m + (1 # 2))%Q /\
  ((a == inject_Z m + (1 # 2))%Q -> Z.even m = true) /\
  ((a == inject_Z m - (1 # 2))%Q -> Z.even m = true).
Proof.
  intros Hn Hd m a. unfold m, scaled_round.
  pose proof (ratio_mult n d Hd) as Hr.
  destruct (Z.leb_spec 0 s) as [Hs|Hs].
  - apply round_half_even_Q; [apply Z.mul_nonneg_nonneg; [lia|apply Z.pow_nonneg; lia]|lia|].
    unfold a. rewrite inject_Z_mult, inject_pow by lia. change (inject_Z 2) with 2%Q.
    rewrite <- Hr. ring.
  - apply round_half_even_Q; [lia|apply Z.mul_pos_pos; [lia|apply Z.pow_pos_nonneg; lia]|].
    unfold a. rewrite inject_Z_mult, inject_pow by lia. change (inject_Z 2) with 2%Q.
    rewrite <- Hr. pose proof (pow2_opp s) as Ho.
    transitivity (ratio n d * inject_Z d * (2 ^ s * 2 ^ (- s)))%Q; [ring|].
    rewrite Ho. ring.
Qed.

Lemma log2_Q (n : Z) :
  0 < n -> (2 ^ Z.log2 n <= inject_Z n)%Q /\ (inject_Z n < 2 * 2 ^ Z.log2 n)%Q.
Proof.
  intros Hn. destruct (Z.log2_spec n Hn) as [Hlo Hhi].
  pose proof (Z.log2_nonneg n) as Hl.
  rewrite Zle_Qle in Hlo. rewrite Zlt_Qlt in Hhi.
  rewrite inject_pow in Hlo, Hhi by lia. change (inject_Z 2) with 2%Q in *.
  unfold Z.succ in Hhi. rewrite pow2_succ in Hhi. split; assumption.
Qed.

(** [binade] finds the power of two at or below the fraction. *)
Lemma binade_Q (n d : Z) :
  0 < n -> 0 < d ->
  (2 ^ binade n d <= ratio n d)%Q /\ (ratio n d < 2 * 2 ^ binade n d)%Q.
Proof.
  intros Hn Hd. unfold binade.
  destruct (log2_Q n Hn) as [Hn1 Hn2]. destruct (log2_Q d Hd) as [Hd1 Hd2].
  pose proof (ratio_mult n d Hd) as Hr.
  pose proof (inject_pos d Hd) as Hdq.
  set (k0 := Z.log2 n - Z.log2 d).
  assert (Hsplit : (2 ^ Z.log2 n == 2 ^ k0 * 2 ^ Z.log2 d)%Q).
  { rewrite <- Qpower_plus by exact two_neq. unfold k0.
    now replace (Z.log2 n - Z.log2 d + Z.log2 d) with (Z.log2 n) by lia. }
  pose proof (pow_pos_Q 2 k0 two_pos) as HP.
  pose proof (pow_pos_Q 2 (Z.log2 d) two_pos) as HL.
  pose proof (pow2_pred k0) as Hpred.
  assert (Hbelow : (if 0 <=? k0 then n <? d * 2 ^ k0 else n * 2 ^ (- k0) <? d) = true
                   <-> (ratio n d < 2 ^ k0)%Q).
  { destruct (Z.leb_spec 0 k0) as [Hk|Hk].
    - rewrite Z.ltb_lt, Zlt_Qlt, inject_Z_mult, inject_pow by lia.
      change (inject_Z 2) with 2%Q. rewrite <- Hr.
      rewrite (Qmult_comm (inject_Z d)), Qmult_lt_r by exact Hdq. reflexivity.
    - rewrite Z.ltb_lt, Zlt_Qlt, inject_Z_mult, inject_pow by lia.
      change (inject_Z 2) with 2%Q. rewrite <- Hr.
      pose proof (pow2_opp k0) as Ho.
      pose proof (pow_pos_Q 2 (- k0) two_pos) as HN.
      set (N := (2 ^ (- k0))%Q) in *. set (P := (2 ^ k0)%Q) in *.
      set (r := ratio n d) in *. set (dq := inject_Z d) in *.
      assert (Hd' : (P * dq * N == dq)%Q).
      { transitivity (dq * (P * N))%Q; [ring|]. rewrite Ho. ring. }
      split; intros H.
      + assert (H1 : (r * dq * N < P * dq * N)%Q) by (rewrite Hd'; exact H).
        rewrite Qmult_lt_r in H1 by exact HN.
        rewrite Qmult_lt_r in H1 by exact Hdq. exact H1.
      + rewrite <- Hd' at 2.
        rewrite Qmult_lt_r by exact HN.
        rewrite Qmult_lt_r by exact Hdq. exact H. }
  rewrite Hsplit in Hn1, Hn2. rewrite <- Hr in Hn1, Hn2.
  set (P := (2 ^ k0)%Q) in *. set (L := (2 ^ Z.log2 d)%Q) in *.
  set (r := ratio n d) in *. set (dq := inject_Z d) in *.
  destruct (if 0 <=? k0 then n <? d * 2 ^ k0 else n * 2 ^ (- k0) <? d) eqn:Hb.
  - apply proj1 in Hbelow. specialize (Hbelow eq_refl).
    rewrite Hpred. split; [|exact Hbelow].
    set (P' := (2 ^ (k0 - 1))%Q) in *.
    destruct (Qlt_le_dec r P') as [Hlt|]; [|assumption].
    exfalso. nra.
  - assert (Hge : (P <= r)%Q).
    { destruct (Qlt_le_dec r P) as [Hlt|]; [|assumption].
      apply Hbelow in Hlt. discriminate. }
    split; [exact Hge|].
    destruct (Qlt_le_dec r (2 * P)) as [|Hle]; [assumption|].
    exfalso. nra.
Qed.

Lemma lowest_terms_spec (fuel : nat) :
  forall m k, 0 <= k ->
    0 <= snd (lowest_terms fuel m k) <= k /\
    fst (lowest_terms fuel m k) * 2 ^ (k - snd (lowest_terms fuel m k)) = m.
Proof.
  induction fuel as [|f IH]; intros m k Hk; cbn [lowest_terms].
  - cbn [fst snd]. rewrite Z.sub_diag. change (2 ^ 0) with 1. lia.
  - destruct (Z.ltb_spec 0 k) as [Hpos|Hz]; cbn [andb].
    + destruct (Z.even m) eqn:He.
      * destruct (IH (m / 2) (k - 1) ltac:(lia)) as [Hs Hv].
        split; [lia|].
        replace (k - snd (lowest_terms f (m / 2) (k - 1)))
          with (Z.succ (k - 1 - snd (lowest_terms f (m / 2) (k - 1)))) by lia.
        rewrite Z.pow_succ_r by lia.
        apply Z.even_spec in He. destruct He as [h ->].
        assert (Hh : 2 * h / 2 = h) by (rewrite Z.mul_comm; apply Z.div_mul; lia).
        rewrite Hh in *. nia.
      * cbn [fst snd]. rewrite Z.sub_diag. change (2 ^ 0) with 1. lia.
    + cbn [fst snd]. rewrite Z.sub_diag. change (2 ^ 0) with 1. lia.
Qed.

Lemma ten_two_five (s : Z) : (10 ^ s == 2 ^ s * 5 ^ s)%Q.
Proof. rewrite <- Qmult_power. reflexivity. Qed.

(** The decimal of a dyadic number stands for that number. *)
Lemma value_of_dyadic (m s : Z) : (value (of_dyadic m s) == inject_Z m * 2 ^ (- s))%Q.
Proof.
  unfold of_dyadic. destruct (Z.leb_spec 0 s) as [Hs|Hs].
  - destruct (lowest_terms_spec (Z.to_nat s) m s Hs) as [Hb Hv].
    set (m' := fst (lowest_terms (Z.to_nat s) m s)) in *.
    set (s' := snd (lowest_terms (Z.to_nat s) m s)) in *.
    cbv zeta. unfold value; cbn [dint dexp].
    rewrite <- Hv at 1.
    rewrite !inject_Z_mult, !inject_pow by lia.
    change (inject_Z 5) with 5%Q. change (inject_Z 2) with 2%Q.
    rewrite Qpower_opp, ten_two_five.
    assert (H2 : (2 ^ (s - s') * 2 ^ (- s) == / 2 ^ s')%Q).
    { rewrite <- Qpower_plus by exact two_neq. rewrite <- Qpower_opp.
      now replace (s - s' + - s) with (- s') by lia. }
    transitivity (inject_Z m' * (2 ^ (s - s') * 2 ^ (- s)))%Q; [|ring].
    rewrite H2. field. split; apply Qpower_not_0; discriminate.
  - unfold value; cbn [dint dexp].
    rewrite inject_Z_mult, inject_pow by lia. change (inject_Z 2) with 2%Q.
    change (10 ^ 0)%Q with 1%Q. ring.
Qed.

Section Positive.

Variables n d : Z.
Hypothesis Hn : 0 < n.
Hypothesis Hd : 0 < d.

Let k := binade n d.
Let s := 52 - k.
Let m := scaled_round n d s.

Lemma value_nearest : (value (nearest_binary64 n d) == inject_Z m * 2 ^ (k - 52))%Q.
Proof.
  unfold nearest_binary64. fold k. fold s. fold m. rewrite value_of_dyadic.
  now replace (- s) with (k - 52) by (unfold s; lia).
Qed.

Lemma scaled_ratio_bounds :
  (inject_Z (2 ^ 52) <= ratio n d * 2 ^ s)%Q /\ (ratio n d * 2 ^ s < inject_Z (2 ^ 53))%Q.
Proof.
  destruct (binade_Q n d Hn Hd) as [Hlo Hhi]. fold k in Hlo, Hhi.
  pose proof (pow_pos_Q 2 s two_pos) as Hs.
  assert (Hk : (2 ^ k * 2 ^ s == inject_Z (2 ^ 52))%Q).
  { rewrite <- Qpower_plus by exact two_neq. unfold s.
    replace (k + (52 - k)) with 52 by lia. reflexivity. }
  assert (H53 : (inject_Z (2 ^ 53) == 2 * inject_Z (2 ^ 52))%Q) by reflexivity.
  rewrite H53, <- Hk.
  set (T := (2 ^ s)%Q) in *. set (K := (2 ^ k)%Q) in *. set (r := ratio n d) in *.
  split.
  - apply Qmult_le_r; assumption.
  - assert (E : (2 * (K * T) == (2 * K) * T)%Q) by ring.
    rewrite E. apply Qmult_lt_r; assumption.
Qed.

(** The rounded significand has 53 bits, or is the next power of two. *)
Lemma mantissa_bounds : 2 ^ 52 <= m <= 2 ^ 53.
Proof.
  destruct scaled_ratio_bounds as [Hlo Hhi].
  destruct (scaled_round_Q n d s Hn Hd) as (H1 & H2 & _). fold m in H1, H2.
  split.
  - assert (H : (inject_Z (2 ^ 52 - 1) < inject_Z m)%Q).
    { rewrite inject_Z_sub. change (inject_Z 1) with 1%Q. lra. }
    rewrite <- Zlt_Qlt in H. lia.
  - assert (H : (inject_Z m < inject_Z (2 ^ 53 + 1))%Q).
    { rewrite inject_Z_plus. change (inject_Z 1) with 1%Q. lra. }
    rewrite <- Zlt_Qlt in H. lia.
Qed.

Lemma value_nearest_pos : (0 < value (nearest_binary64 n d))%Q.
Proof.
  rewrite value_nearest. pose proof mantissa_bounds as [Hlo _].
  apply Qmult_lt_0_compat; [|apply pow_pos_Q, two_pos].
  apply inject_pos. assert (0 < 2 ^ 52) by reflexivity. lia.
Qed.

End Positive.

(** Rounding to the nearest binary64 number keeps the order of positive
    fractions: within a binade because rounding half to even does, across
    binades because the result stays within the binade of the fraction. *)
Lemma nearest_monotone (n1 d1 n2 d2 : Z) :
  0 < n1 -> 0 < d1 -> 0 < n2 -> 0 < d2 ->
  (ratio n1 d1 <= ratio n2 d2)%Q ->
  (value (nearest_binary64 n1 d1) <= value (nearest_binary64 n2 d2))%Q.
Proof.
  intros Hn1 Hd1 Hn2 Hd2 Hr.
  rewrite !value_nearest.
  destruct (binade_Q n1 d1 Hn1 Hd1) as [Hlo1 Hhi1].
  destruct (binade_Q n2 d2 Hn2 Hd2) as [Hlo2 Hhi2].
  pose proof (mantissa_bounds n1 d1 Hn1 Hd1) as [Hm1 HM1].
  pose proof (mantissa_bounds n2 d2 Hn2 Hd2) as [Hm2 HM2].
  pose proof (scaled_round_Q n1 d1 (52 - binade n1 d1) Hn1 Hd1) as (A1 & B1 & U1 & D1).
  pose proof (scaled_round_Q n2 d2 (52 - binade n2 d2) Hn2 Hd2) as (A2 & B2 & U2 & D2).
  set (k1 := binade n1 d1) in *. set (k2 := binade n2 d2) in *.
  set (m1 := scaled_round n1 d1 (52 - k1)) in *.
  set (m2 := scaled_round n2 d2 (52 - k2)) in *.
  assert (Hk : k1 <= k2).
  { assert (H : (2 ^ k1 < 2 ^ (k2 + 1))%Q).
    { rewrite pow2_succ. eapply Qle_lt_trans; [exact Hlo1|].
      eapply Qle_lt_trans; [exact Hr|exact Hhi2]. }
    apply Qpower_lt_compat_l_inv in H; [lia|reflexivity]. }
  destruct (Z.eq_dec k1 k2) as [Heq|Hne].
  - rewrite <- Heq in *. clear Heq.
    pose proof (pow_pos_Q 2 (52 - k1) two_pos) as HT.
    pose proof (pow_pos_Q 2 (k1 - 52) two_pos) as HP.
    assert (Ha : (ratio n1 d1 * 2 ^ (52 - k1) <= ratio n2 d2 * 2 ^ (52 - k1))%Q)
      by (apply Qmult_le_r; assumption).
    set (a1 := (ratio n1 d1 * 2 ^ (52 - k1))%Q) in *.
    set (a2 := (ratio n2 d2 * 2 ^ (52 - k1))%Q) in *.
    apply Qmult_le_r; [exact HP|]. rewrite <- Zle_Qle.
    destruct (Z_le_gt_dec m1 m2) as [|Hgt]; [assumption|exfalso].
    assert (Hq : (inject_Z m2 + 1 <= inject_Z m1)%Q).
    { change 1%Q with (inject_Z 1). rewrite <- inject_Z_plus, <- Zle_Qle. lia. }
    assert (E1 : (a1 == inject_Z m1 - (1 # 2))%Q) by (apply Qle_antisym; lra).
    assert (E2 : (a2 == inject_Z m2 + (1 # 2))%Q) by (apply Qle_antisym; lra).
    assert (Em : (inject_Z m1 == inject_Z (m2 + 1))%Q).
    { rewrite inject_Z_plus. change (inject_Z 1) with 1%Q. apply Qle_antisym; lra. }
    apply (proj1 (inject_Z_injective _ _)) in Em.
    apply D1 in E1. apply U2 in E2.
    apply Z.even_spec in E1, E2. destruct E1 as [h1 E1], E2 as [h2 E2]. lia.
  - assert (Hlt : k1 + 1 <= k2) by lia.
    pose proof (pow_pos_Q 2 (k1 - 52) two_pos) as HP1.
    pose proof (pow_pos_Q 2 (k2 - 52) two_pos) as HP2.
    assert (Hup : (inject_Z m1 * 2 ^ (k1 - 52) <= 2 ^ (k1 + 1))%Q).
    { assert (E : (2 ^ (k1 + 1) == inject_Z (2 ^ 53) * 2 ^ (k1 - 52))%Q).
      { rewrite inject_pow by lia. change (inject_Z 2) with 2%Q.
        rewrite <- Qpower_plus by exact two_neq.
        now replace (53 + (k1 - 52)) with (k1 + 1) by lia. }
      rewrite E. apply Qmult_le_r; [exact HP1|]. rewrite <- Zle_Qle. exact HM1. }
    assert (Hdown : (2 ^ k2 <= inject_Z m2 * 2 ^ (k2 - 52))%Q).
    { assert (E : (2 ^ k2 == inject_Z (2 ^ 52) * 2 ^ (k2 - 52))%Q).
      { rewrite inject_pow by lia. change (inject_Z 2) with 2%Q.
        rewrite <- Qpower_plus by exact two_neq.
        now replace (52 + (k2 - 52)) with k2 by lia. }
      rewrite E. apply Qmult_le_r; [exact HP2|]. rewrite <- Zle_Qle. exact Hm2. }
    eapply Qle_trans; [exact Hup|]. eapply Qle_trans; [|exact Hdown].
    apply Qpower_le_compat_l; [exact Hlt|discriminate].
Qed.

(** The fraction that [to_binary64] rounds is the absolute value of the
    number. *)
Lemma ratio_of_decimal (x : Decimal) :
  (ratio (Z.abs (dint x) * 10 ^ Z.max (dexp x) 0) (10 ^ Z.max (- dexp x) 0)
   == inject_Z (Z.abs (dint x)) * 10 ^ dexp x)%Q.
Proof.
  unfold ratio. rewrite inject_Z_mult, !inject_pow by lia.
  change (inject_Z 10) with 10%Q.
  assert (E : (10 ^ dexp x == 10 ^ Z.max (dexp x) 0 / 10 ^ Z.max (- dexp x) 0)%Q).
  { rewrite <- Qpower_minus by exact ten_neq.
    now replace (Z.max (dexp x) 0 - Z.max (- dexp x) 0) with (dexp x) by lia. }
  rewrite E. field. apply Qpower_not_0. exact ten_neq.
Qed.

Lemma ratio_of_positive (x : Decimal) :
  0 < dint x ->
  (ratio (Z.abs (dint x) * 10 ^ Z.max (dexp x) 0) (10 ^ Z.max (- dexp x) 0) == value x)%Q.
Proof.
  intros Hx. rewrite ratio_of_decimal. unfold value.
  assert (E : Z.abs (dint x) = dint x) by lia. now rewrite E.
Qed.

Lemma ratio_of_negative (x : Decimal) :
  dint x < 0 ->
  (ratio (Z.abs (dint x) * 10 ^ Z.max (dexp x) 0) (10 ^ Z.max (- dexp x) 0) == - value x)%Q.
Proof.
  intros Hx. rewrite ratio_of_decimal. unfold value.
  assert (E : Z.abs (dint x) = - dint x) by lia. rewrite E, inject_Z_opp. ring.
Qed.

Lemma value_signed (c : Z) (y : Decimal) :
  (value (mkDecimal (c * dint y) (dexp y)) == inject_Z c * value y)%Q.
Proof. unfold value; cbn [dint dexp]. rewrite inject_Z_mult. ring. Qed.

Lemma fraction_pos (x : Decimal) :
  dint x <> 0 ->
  0 < Z.abs (dint x) * 10 ^ Z.max (dexp x) 0 /\ 0 < 10 ^ Z.max (- dexp x) 0.
Proof.
  intros Hx. split.
  - apply Z.mul_pos_pos; [lia|apply Z.pow_pos_nonneg; lia].
  - apply Z.pow_pos_nonneg; lia.
Qed.

(** [float()] keeps the order of the numbers. *)
Theorem to_binary64_monotone (x y : Decimal) :
  leb x y = true -> leb (to_binary64 x) (to_binary64 y) = true.
Proof.
  rewrite !leb_value. intros Hxy.
  assert (Hsign : forall z, (dint z = 0 -> (value z == 0)%Q /\ (value (to_binary64 z) == 0)%Q) /\
                            (0 < dint z -> (0 < value z)%Q /\ (0 < value (to_binary64 z))%Q) /\
                            (dint z < 0 -> (value z < 0)%Q /\ (value (to_binary64 z) < 0)%Q)).
  { intros z. pose proof (pow_pos_Q 10 (dexp z) ten_pos) as Hp.
    split; [|split]; intros Hz.
    - unfold to_binary64. rewrite Hz. cbn [Z.eqb]. unfold value. rewrite Hz. cbn [dint dexp].
      split; ring.
    - destruct (fraction_pos z ltac:(lia)) as [Hn Hd].
      pose proof (value_nearest_pos _ _ Hn Hd) as Hv.
      unfold to_binary64. destruct (Z.eqb_spec (dint z) 0); [lia|]. cbv zeta.
      rewrite value_signed. rewrite (Z.sgn_pos _ Hz). change (inject_Z 1) with 1%Q.
      split; [|lra]. unfold value. apply Qmult_lt_0_compat; [now apply inject_pos|exact Hp].
    - destruct (fraction_pos z ltac:(lia)) as [Hn Hd].
      pose proof (value_nearest_pos _ _ Hn Hd) as Hv.
      unfold to_binary64. destruct (Z.eqb_spec (dint z) 0); [lia|]. cbv zeta.
      rewrite value_signed. rewrite (Z.sgn_neg _ Hz). change (inject_Z (-1)) with (-1)%Q.
      split; [|lra]. unfold value.
      assert (H : (0 < inject_Z (- dint z))%Q) by (apply inject_pos; lia).
      rewrite inject_Z_opp in H. nra. }
  destruct (Hsign x) as (X0 & Xp & Xn). destruct (Hsign y) as (Y0 & Yp & Yn).
  destruct (Z.lt_trichotomy (dint x) 0) as [Hx|[Hx|Hx]];
    destruct (Z.lt_trichotomy (dint y) 0) as [Hy|[Hy|Hy]];
    try specialize (X0 Hx); try specialize (Xp Hx); try specialize (Xn Hx);
    try specialize (Y0 Hy); try specialize (Yp Hy); try specialize (Yn Hy);
    try lra.
  - (* both negative *)
    destruct (fraction_pos x ltac:(lia)) as [Hnx Hdx].
    destruct (fraction_pos y ltac:(lia)) as [Hny Hdy].
    pose proof (nearest_monotone _ _ _ _ Hny Hdy Hnx Hdx) as Hmono.
    rewrite (ratio_of_negative x Hx), (ratio_of_negative y Hy) in Hmono.
    unfold to_binary64.
    destruct (Z.eqb_spec (dint x) 0); [lia|]. destruct (Z.eqb_spec (dint y) 0); [lia|].
    cbv zeta. rewrite !value_signed, !Z.sgn_neg by assumption.
    change (inject_Z (-1)) with (-1)%Q.
    assert (H : (- value y <= - value x)%Q) by lra.
    specialize (Hmono H). lra.
  - (* both positive *)
    destruct (fraction_pos x ltac:(lia)) as [Hnx Hdx].
    destruct (fraction_pos y ltac:(lia)) as [Hny Hdy].
    pose proof (nearest_monotone _ _ _ _ Hnx Hdx Hny Hdy) as Hmono.
    rewrite (ratio_of_positive x Hx), (ratio_of_positive y Hy) in Hmono.
    unfold to_binary64.
    destruct (Z.eqb_spec (dint x) 0); [lia|]. destruct (Z.eqb_spec (dint y) 0); [lia|].
    cbv zeta. rewrite !value_signed, !Z.sgn_pos by assumption.
    change (inject_Z 1) with 1%Q.
    specialize (Hmono Hxy). lra.
Qed.

End FloatFacts.

(** ** Facts about the Staggered Orders boundary check *)
Module StaggeredFacts.
Import Dec DecFacts Staggered.

Lemma maintain_strategy_checks (c h l : Decimal) (buys sells : list Decimal) (s : state) :
  maintain_strategy c (h :: buys) (sells ++ [l]) s = inr (check_boundaries c s).
Proof.
  unfold maintain_strategy. rewrite rev_app_distr. reflexivity.
Qed.

Lemma maintain_strategy_reaches_check (c : Decimal) (buys sells : list Decimal) (s : state) :
  buys <> [] -> sells <> [] ->
  maintain_strategy c buys sells s = inr (check_boundaries c s).
Proof.
  intros Hb Hs. unfold maintain_strategy.
  destruct buys as [|h buys]; [contradiction|].
  destruct (rev sells) as [|l sells'] eqn:Hrev; [|reflexivity].
  apply (f_equal (@rev Decimal)) in Hrev. rewrite rev_involutive in Hrev.
  contradiction.
Qed.

(** C8 (as amended): when the evaluation reaches the boundary check, which
    it does when the lists of buy orders and of sell orders that it indexes
    are not empty, a centre price above [upper_bound] raises [upper_bound] to
    it and leaves [lower_bound]; a centre price that is not above
    [upper_bound] and is below [lower_bound] lowers [lower_bound] to it and
    leaves [upper_bound]; any other centre price leaves both bounds.  With
    [lower_bound] not above [upper_bound], every centre price below
    [lower_bound] lowers it, and after the check the centre price lies
    within the bounds: the range is widened, the price is not clamped. *)
Theorem maintain_strategy_widens (c : Decimal) (buys sells : list Decimal) (s : state) :
  buys <> [] -> sells <> [] ->
  exists s',
    maintain_strategy c buys sells s = inr s' /\
    (gtb c (upper_bound s) = true ->
       upper_bound s' = c /\ lower_bound s' = lower_bound s) /\
    (gtb c (upper_bound s) = false -> ltb c (lower_bound s) = true ->
       lower_bound s' = c /\ upper_bound s' = upper_bound s) /\
    (gtb c (upper_bound s) = false -> ltb c (lower_bound s) = false -> s' = s) /\
    (leb (lower_bound s) (upper_bound s) = true ->
       (ltb c (lower_bound s) = true ->
          lower_bound s' = c /\ upper_bound s' = upper_bound s) /\
       leb (lower_bound s') c = true /\
       leb c (upper_bound s') = true).
Proof.
  intros Hb Hs. exists (check_boundaries c s).
  split; [now apply maintain_strategy_reaches_check|].
  unfold check_boundaries. split; [|split; [|split]].
  - intros ->. auto.
  - intros -> ->. auto.
  - intros -> ->. reflexivity.
  - intros Hinv. destruct (gtb c (upper_bound s)) eqn:Hup; cbn [upper_bound lower_bound].
    + unfold gtb in Hup. split; [|split].
      * intros Hlow.
        pose proof (ltb_leb_trans _ _ _ Hlow Hinv) as H1.
        pose proof (leb_ltb_trans _ _ _ (ltb_leb _ _ H1) Hup) as H2.
        rewrite ltb_irrefl in H2. discriminate.
      * apply ltb_leb. eapply leb_ltb_trans; eassumption.
      * apply leb_refl.
    + destruct (ltb c (lower_bound s)) eqn:Hlow; cbn [upper_bound lower_bound].
      * repeat split; auto using leb_refl, gtb_false_leb.
      * repeat split; try discriminate; auto using gtb_false_leb.
Qed.

Lemma maintain_strategy_widens_witness :
  exists s',
    maintain_strategy (of_Z 5) [of_Z 2] [of_Z 3] (mkState (of_Z 4) (of_Z 1)) = inr s' /\
    upper_bound s' = of_Z 5 /\ lower_bound s' = of_Z 1.
Proof.
  destruct (maintain_strategy_widens (of_Z 5) [of_Z 2] [of_Z 3] (mkState (of_Z 4) (of_Z 1)))
    as (s' & Hrun & Hup & _); [discriminate|discriminate|].
  exists s'. split; [exact Hrun|]. apply Hup. reflexivity.
Defined.

(** C8 (as stated) fails in two ways.  With the bounds the wrong way round,
    as in the defaults of [configure] ([upper_bound] 1.0, [lower_bound]
    1000.0), a centre price of 5 is below [lower_bound], and the evaluation
    raises [upper_bound] and leaves [lower_bound] at 1000.  With no buy
    order, a centre price above [upper_bound] raises [IndexError] before the
    check, and [upper_bound] is not raised. *)
Lemma lower_bound_not_lowered :
  (ltb (of_Z 5) (lower_bound (mkState (of_Z 1) (of_Z 1000))) = true /\
   maintain_strategy (of_Z 5) [of_Z 2] [of_Z 3] (mkState (of_Z 1) (of_Z 1000))
   = inr (mkState (of_Z 5) (of_Z 1000))) /\
  (gtb (of_Z 5) (upper_bound (mkState (of_Z 4) (of_Z 1))) = true /\
   maintain_strategy (of_Z 5) [] [of_Z 3] (mkState (of_Z 4) (of_Z 1)) = inl IndexError).
Proof. repeat split. Qed.

(** With the bounds the wrong way round, as in the defaults of [configure]
    ([upper_bound] 1.0, [lower_bound] 1000.0), a centre price between them
    moves [upper_bound] only. *)
Example check_boundaries_reversed_bounds :
  check_boundaries (of_Z 5) (mkState (of_Z 1) (of_Z 1000)) = mkState (of_Z 5) (of_Z 1000).
Proof. reflexivity. Qed.

End StaggeredFacts.

(** ** Rules for runs *)
Module KothRules.
Import Dec Koth KothExt.

Section Rules.

Context {E : Exchange}.
Variable cfg : worker_config.

Lemma final_prepend {A} (evs : list event) (r : run A) : final (prepend evs r) = final r.
Proof. destruct r; reflexivity. Qed.

Lemma result_prepend {A} (evs : list event) (r : run A) : result (prepend evs r) = result r.
Proof. destruct r; reflexivity. Qed.

Lemma final_world_prepend {A} (evs : list event) (r : run A) :
  final_world (prepend evs r) = final_world r.
Proof. destruct r; reflexivity. Qed.

Lemma events_prepend {A} (evs : list event) (r : run A) :
  events (prepend evs r) = evs ++ events r.
Proof. destruct r; reflexivity. Qed.

Lemma prepend_nil {A} (r : run A) : prepend [] r = r.
Proof. destruct r; reflexivity. Qed.

Lemma prepend_prepend {A} (evs evs' : list event) (r : run A) :
  prepend evs (prepend evs' r) = prepend (evs ++ evs') r.
Proof. destruct r; cbn. now rewrite app_assoc. Qed.

(** How a sequence runs, by the way its first part ends. *)
Lemma bind_run {A B} (m : M A) (k : A -> M B) (s : state) (w : world) :
  bind m k s w
  = match result (m s w) with
    | Ret a => prepend (events (m s w)) (k a (final (m s w)) (final_world (m s w)))
    | Raise e => mkRun (Raise e) (final (m s w)) (final_world (m s w)) (events (m s w))
    | OutOfFuel => mkRun OutOfFuel (final (m s w)) (final_world (m s w)) (events (m s w))
    end.
Proof. unfold bind. destruct (m s w) as [[a| |] s' w' evs]; reflexivity. Qed.

Section Keeps.

Variable R : state -> state -> Prop.
Hypothesis R_refl : forall s, R s s.
Hypothesis R_trans : forall s1 s2 s3, R s1 s2 -> R s2 s3 -> R s1 s3.

Lemma keeps_ret {A} (a : A) : keeps R (ret a).
Proof. intros s w; apply R_refl. Qed.

Lemma keeps_get : keeps R get.
Proof. intros s w; apply R_refl. Qed.

Lemma keeps_emit (ev : event) : keeps R (emit ev).
Proof. intros s w; apply R_refl. Qed.

Lemma keeps_ext {A} (op : world -> A * world) : keeps R (ext op).
Proof. intros s w; apply R_refl. Qed.

Lemma keeps_clock : keeps R clock.
Proof. intros s w; apply R_refl. Qed.

Lemma keeps_of_outcome {A} (o : outcome A) : keeps R (of_outcome o).
Proof. intros s w; apply R_refl. Qed.

Lemma keeps_dec {A} (x : signal + A) : keeps R (dec x).
Proof. destruct x as [sg|a]; intros s w; apply R_refl. Qed.

Lemma keeps_modify (f : state -> state) : (forall s, R s (f s)) -> keeps R (modify f).
Proof. intros Hf s w; apply Hf. Qed.

Lemma keeps_bind {A B} (m : M A) (k : A -> M B) :
  keeps R m -> (forall a, keeps R (k a)) -> keeps R (bind m k).
Proof.
  intros Hm Hk s w. rewrite bind_run. specialize (Hm s w).
  destruct (result (m s w)); cbn [final]; [|exact Hm..].
  rewrite final_prepend. eapply R_trans; [exact Hm|apply Hk].
Qed.

Lemma keeps_for_each {A} (body : A -> M unit) (l : list A) :
  (forall x, In x l -> keeps R (body x)) -> keeps R (for_each body l).
Proof.
  induction l as [|x l IH]; intros Hb; cbn [for_each].
  - apply keeps_ret.
  - apply keeps_bind; [apply Hb; now left|]. intros _. apply IH.
    intros y Hy. apply Hb. now right.
Qed.

End Keeps.

Section Emits.

Variable P : event -> Prop.

Lemma emits_ret {A} (a : A) : emits_only P (ret a).
Proof. intros s w ev []. Qed.

Lemma emits_get : emits_only P get.
Proof. intros s w ev []. Qed.

Lemma emits_modify (f : state -> state) : emits_only P (modify f).
Proof. intros s w ev []. Qed.

Lemma emits_ext {A} (op : world -> A * world) : emits_only P (ext op).
Proof. intros s w ev []. Qed.

Lemma emits_clock : emits_only P clock.
Proof. intros s w ev []. Qed.

Lemma emits_of_outcome {A} (o : outcome A) : emits_only P (of_outcome o).
Proof. intros s w ev []. Qed.

Lemma emits_emit (e : event) : P e -> emits_only P (emit e).
Proof. intros He s w ev [<-|[]]. exact He. Qed.

Lemma emits_bind {A B} (m : M A) (k : A -> M B) :
  emits_only P m -> (forall a, emits_only P (k a)) -> emits_only P (bind m k).
Proof.
  intros Hm Hk s w ev. rewrite bind_run. specialize (Hm s w).
  destruct (result (m s w)); cbn [events]; [|apply Hm..].
  rewrite events_prepend. intros Hin. apply in_app_or in Hin as [Hin|Hin].
  - now apply Hm.
  - eapply Hk; exact Hin.
Qed.

Lemma emits_for_each {A} (body : A -> M unit) (l : list A) :
  (forall x, In x l -> emits_only P (body x)) -> emits_only P (for_each body l).
Proof.
  induction l as [|x l IH]; intros Hb; cbn [for_each].
  - apply emits_ret.
  - apply emits_bind; [apply Hb; now left|]. intros _. apply IH.
    intros y Hy. apply Hb. now right.
Qed.

End Emits.

(** Sequencing is associative. *)
Lemma bind_assoc {A B C} (m : M A) (k : A -> M B) (h : B -> M C) (s : state) (w : world) :
  bind (bind m k) h s w = bind m (fun a => bind (k a) h) s w.
Proof.
  unfold bind. destruct (m s w) as [[a| |] s1 w1 evs]; cbn; try reflexivity.
  destruct (k a s1 w1) as [[b| |] s2 w2 evs2]; cbn; try reflexivity.
  destruct (h b s2 w2) as [res s3 w3 evs3]; cbn. now rewrite app_assoc.
Qed.

(** A loop over a list runs over its first part and then over the rest. *)
Lemma for_each_app {A} (body : A -> M unit) (l1 l2 : list A) (s : state) (w : world) :
  for_each body (l1 ++ l2) s w
  = bind (for_each body l1) (fun _ => for_each body l2) s w.
Proof.
  revert s w; induction l1 as [|x l1 IH]; intros s w.
  - cbn. now rewrite prepend_nil.
  - cbn [for_each app]. rewrite bind_assoc.
    rewrite !(bind_run (body x)).
    destruct (result (body x s w)); try reflexivity. now rewrite IH.
Qed.

End Rules.

Ltac keeps_step refl trans :=
  first
    [ apply (keeps_bind _ trans)
    | apply (keeps_ret _ refl)
    | apply (keeps_get _ refl)
    | apply (keeps_emit _ refl)
    | apply (keeps_ext _ refl)
    | apply (keeps_clock _ refl)
    | apply (keeps_of_outcome _ refl)
    | apply (keeps_dec _ refl)
    | match goal with
      | |- keeps _ (if ?b then _ else _) => destruct b
      | |- keeps _ (match ?x with _ => _ end) => destruct x
      | |- forall _, _ => intro
      end ].

Ltac emits_step :=
  first
    [ apply emits_bind
    | apply emits_ret
    | apply emits_get
    | apply emits_modify
    | apply emits_ext
    | apply emits_clock
    | apply emits_of_outcome
    | match goal with
      | |- emits_only _ (if ?b then _ else _) => destruct b
      | |- emits_only _ (match ?x with _ => _ end) => destruct x
      | |- forall _, _ => intro
      end ].

End KothRules.

(** ** Facts about King of the Hill *)
Module KothFacts.
Import Dec DecFacts FloatFacts Koth KothExt KothRules.

Section Facts.

Context {E : Exchange}.
Variable cfg : worker_config.

Lemma buy_loop_exit (fuel : nat) :
  forall top a_base a_quote p a_quote' p',
    buy_loop cfg fuel top a_base a_quote p = Ret (a_quote', p') ->
    leb p' top = false.
Proof.
  induction fuel as [|f IH]; intros top ab aq p aq' p'; cbn [buy_loop].
  - destruct (leb p top) eqn:Hc; [discriminate|]. intros [= <- <-]. exact Hc.
  - destruct (leb p top) eqn:Hc.
    + destruct (div ab _) as [sg|p1]; [discriminate|]. apply IH.
    + intros [= <- <-]. exact Hc.
Qed.

Lemma sell_loop_exit (fuel : nat) :
  forall top a_quote a_base p a_base' p',
    sell_loop cfg fuel top a_quote a_base p = Ret (a_base', p') ->
    geb p' top = false.
Proof.
  induction fuel as [|f IH]; intros top aq ab p ab' p'; cbn [sell_loop].
  - destruct (geb p top) eqn:Hc; [discriminate|]. intros [= <- <-]. exact Hc.
  - destruct (geb p top) eqn:Hc.
    + destruct (div _ aq) as [sg|p1]; [discriminate|]. apply IH.
    + intros [= <- <-]. exact Hc.
Qed.

(** The buy loop ends within as many iterations as the starting
    [amount_quote] has precision units: it leaves the loop, or the division
    by the exhausted amount raises. *)
Lemma buy_loop_steps (top a_base : Decimal) (fuel : nat) :
  dint a_base <> 0 ->
  forall c p,
    0 < c -> c < 10 ^ prec -> c <= Z.of_nat fuel ->
    buy_loop cfg fuel top a_base (mkDecimal c (- Z.of_nat (quote_precision cfg))) p
    <> OutOfFuel.
Proof.
  intros Hab. induction fuel as [|f IH]; intros c p Hc Hd Hf; [lia|].
  cbn [buy_loop]. destruct (leb p top); [|discriminate].
  rewrite sub_unit by lia.
  destruct (Z.eq_dec c 1) as [->|Hc1].
  - rewrite div_by_zero by (cbn; auto). discriminate.
  - destruct (div_defined a_base (mkDecimal (c - 1) (- Z.of_nat (quote_precision cfg))))
      as [q Hq]; [cbn; lia|].
    rewrite Hq. apply IH; lia.
Qed.

Lemma buy_loop_bounded (top a_base x a_quote p : Decimal) (fuel : nat) :
  quantize x (- Z.of_nat (quote_precision cfg)) = inr a_quote ->
  0 < dint a_quote ->
  dint a_base <> 0 ->
  dint a_quote <= Z.of_nat fuel ->
  buy_loop cfg fuel top a_base a_quote p <> OutOfFuel.
Proof.
  intros Hq Hpos Hab Hf. destruct (quantize_inr _ _ _ Hq) as [He Hd].
  destruct a_quote as [c e]; cbn [dint dexp] in *. subst e.
  apply buy_loop_steps; auto.
  apply ndigits_le_iff in Hd; [lia|unfold prec; lia].
Qed.

(** The sell loop ends within one iteration more than the starting
    [amount_base] has precision units, and it ends by leaving the loop. *)
Lemma sell_loop_steps (top a_quote : Decimal) (fuel : nat) :
  0 < dint top -> dint a_quote <> 0 ->
  forall c p,
    0 <= c -> c < 10 ^ prec -> c < Z.of_nat fuel ->
    div (mkDecimal c (- Z.of_nat (base_precision cfg))) a_quote = inr p ->
    exists r, sell_loop cfg fuel top a_quote (mkDecimal c (- Z.of_nat (base_precision cfg))) p
              = Ret r.
Proof.
  intros Ht Haq. induction fuel as [|f IH]; intros c p Hc Hd Hf Hp; [lia|].
  cbn [sell_loop]. destruct (geb p top) eqn:Hge; [|eexists; reflexivity].
  assert (Hc0 : c <> 0).
  { intros ->. rewrite (geb_zero_positive p top) in Hge; [discriminate| |exact Ht].
    now apply (div_zero _ _ _ (eq_refl : dint (mkDecimal 0 _) = 0) Hp). }
  rewrite sub_unit by lia.
  destruct (div_defined (mkDecimal (c - 1) (- Z.of_nat (base_precision cfg))) a_quote Haq)
    as [q Hq].
  rewrite Hq. apply IH; auto; lia.
Qed.

Lemma sell_loop_bounded (top a_quote x a_base p : Decimal) (fuel : nat) :
  quantize x (- Z.of_nat (base_precision cfg)) = inr a_base ->
  0 <= dint a_base ->
  0 < dint top ->
  dint a_quote <> 0 ->
  div a_base a_quote = inr p ->
  dint a_base < Z.of_nat fuel ->
  exists r, sell_loop cfg fuel top a_quote a_base p = Ret r.
Proof.
  intros Hq Hpos Ht Haq Hp Hf. destruct (quantize_inr _ _ _ Hq) as [He Hd].
  destruct a_base as [c e]; cbn [dint dexp] in *. subst e.
  apply sell_loop_steps; auto.
  apply ndigits_le_iff in Hd; [lia|unfold prec; lia].
Qed.

(** The price that the arithmetic of [place_order] arrives at. *)
Lemma prepare_price (fuel : nat) (t : side) (s : state)
    (configured a_quote a_base p : Decimal) :
  prepare cfg fuel t (top_price t s) configured = Ret (Amounts a_quote a_base p) ->
  computed_price cfg t s p.
Proof.
  destruct t; unfold prepare, top_price, computed_price.
  - destruct (quantize _ _) as [sg|ab]; [discriminate|].
    destruct (is_zero ab); [discriminate|].
    destruct (div ab _) as [sg|q]; [discriminate|].
    destruct (quantize q _) as [sg|aq]; [discriminate|].
    destruct (div ab aq) as [sg|p0]; [discriminate|].
    destruct (buy_loop _ _ _ _ _ _) as [[aq' p']| |] eqn:Hloop; try discriminate.
    apply buy_loop_exit, leb_false_gtb in Hloop. unfold gtb in Hloop.
    destruct (gtb p' (upper_bound cfg)) eqn:Hub.
    + destruct (div ab _) as [sg|aq'']; [discriminate|]. intros [= _ _ <-].
      repeat split; auto using leb_refl.
    + intros [= _ _ <-]. repeat split; auto using gtb_false_leb.
      intros Hc. apply ltb_false_geb in Hc. unfold geb in Hc.
      pose proof (leb_ltb_trans _ _ _ Hc Hloop) as Hgt.
      unfold gtb in Hub. congruence.
  - destruct (quantize _ _) as [sg|aq]; [discriminate|].
    destruct (is_zero aq); [discriminate|].
    destruct (quantize (mul _ _) _) as [sg|ab]; [discriminate|].
    destruct (div ab aq) as [sg|p0]; [discriminate|].
    destruct (sell_loop _ _ _ _ _ _) as [[ab' p']| |] eqn:Hloop; try discriminate.
    apply sell_loop_exit, geb_false_ltb in Hloop.
    intros [= _ _ <-].
    destruct (ltb p' (lower_bound cfg)) eqn:Hlb.
    + repeat split; auto using leb_refl. apply leb_refl.
    + repeat split; auto using ltb_false_geb.
      intros Hc. apply ltb_false_geb in Hc. unfold geb in Hc.
      pose proof (ltb_leb_trans _ _ _ Hloop Hc). congruence.
Qed.

(** One step of a run: split on the test, the signal, the loop or the answer
    of the exchange that the run is waiting for. *)
Ltac run_step :=
  match goal with
  | |- context [(if ?b then _ else _) _ _] => destruct b eqn:?
  | |- context [dec ?x _ _] => destruct x eqn:?
  | |- context [match ?x with Ret _ => _ | Raise _ => _ | OutOfFuel => _ end] =>
      destruct x as [[? ?]| |] eqn:?
  | |- context [record_order _ ?x _ _] => destruct x eqn:?
  end; cbn.

(** [place_order] runs as its stages say. *)
Lemma place_order_in_stages (fuel : nat) (t : side) (s : state) (w : world) :
  place_order cfg fuel t s w = place_order_staged cfg fuel t s w.
Proof.
  destruct t;
    unfold place_order, place_order_staged, prepare, configured_amount, world_after_amount,
      submit, amount_base, amount_quote;
    cbn; repeat run_step; reflexivity.
Qed.

(** Every run of [place_order] is of one of the six kinds. *)
Lemma place_order_cases (fuel : nat) (t : side) (s : state) (w : world) :
  place_order_run cfg t s w (place_order cfg fuel t s w).
Proof.
  rewrite place_order_in_stages. unfold place_order_staged.
  destruct (is_zero (top_price t s)) eqn:Hz.
  { apply no_reference_price; auto. }
  destruct (prepare _ _ _ _ _) as [[|a_quote a_base p]| |] eqn:Hp.
  - apply zero_amount; auto.
  - pose proof (prepare_price _ _ _ _ _ _ _ Hp) as Hprice.
    destruct (is_too_small_amounts cfg a_quote a_base) eqn:Hdust.
    + apply dust; auto.
    + cbv zeta. destruct (fst (submit _ _ _ _)) as [o|].
      * eapply accepted; [exact Hz|exact Hprice|reflexivity..].
      * eapply rejected; [exact Hz|exact Hprice|reflexivity..].
  - apply aborted; auto; discriminate.
  - apply aborted; auto; discriminate.
Qed.

Lemma place_order_unset (fuel : nat) (t : side) (s : state) (w : world) :
  is_zero (top_price t s) = true ->
  place_order cfg fuel t s w
  = mkRun (Ret tt) (set_disabled true s) w [LogError (CannotDetermineTopPrice t)].
Proof.
  intros Hz. rewrite place_order_in_stages. unfold place_order_staged. now rewrite Hz.
Qed.

(** C4: when the reference price of the side is unset (zero), [place_order]
    returns after logging the error: [disabled] is set, nothing is submitted
    or cancelled, and the exchange is not touched. *)
Theorem place_order_without_reference_price (fuel : nat) (t : side) (s : state) (w : world) :
  is_zero (top_price t s) = true ->
  result (place_order cfg fuel t s w) = Ret tt /\
  events (place_order cfg fuel t s w) = [LogError (CannotDetermineTopPrice t)] /\
  (forall ev, In ev (events (place_order cfg fuel t s w)) ->
     is_placement ev = false /\ is_cancel ev = false) /\
  disabled (final (place_order cfg fuel t s w)) = true /\
  orders (final (place_order cfg fuel t s w)) = orders s /\
  final_world (place_order cfg fuel t s w) = w.
Proof.
  intros Hz. rewrite (place_order_unset fuel t s w Hz). cbn.
  repeat split; auto; destruct H as [<-|[]]; reflexivity.
Qed.

(** C7: a call of [maintain_strategy] before the minimum interval has
    elapsed since [last_check] returns at once: the strategy state and the
    exchange are as before, and nothing is logged, cancelled or placed. *)
Theorem maintain_strategy_throttled (fuel : nat) (s : state) (w : world) :
  now w - last_check s < timedelta_seconds (min_check_interval cfg) ->
  maintain_strategy cfg fuel s w = mkRun (Ret tt) s w [].
Proof.
  intros Hlt. unfold maintain_strategy; cbn.
  apply Z.ltb_lt in Hlt. rewrite Hlt. reflexivity.
Qed.

(** What [place_order] submits is the conversion to [float] of an amount and
    a price that it has computed. *)
Lemma place_order_placement (fuel : nat) (t : side) (s : state) (w : world)
    (t' : side) (amount p : Decimal) :
  In (placement t' amount p) (events (place_order cfg fuel t s w)) ->
  t' = t /\ exists p', p = to_binary64 p' /\ computed_price cfg t s p'.
Proof.
  intros Hin.
  destruct (place_order_cases fuel t s w) as
    [_ _ Hev _|_ _ Hev _|_ _ Hev _|_ _ Hev _|? ? ? _ Hp _ Hev _|? ? _ Hp _ Hev _];
    rewrite Hev in Hin; cbn [In] in Hin;
    repeat (destruct Hin as [Hin|Hin]); try contradiction;
    destruct t, t'; cbn [placement] in Hin; try discriminate;
    injection Hin as <- <-; eauto.
Qed.

(** The conversion to [float] takes a computed price to a submitted price
    when the reference price and the bound are [float]s. *)
Lemma computed_price_converted (t : side) (s : state) (p : Decimal) :
  is_float (top_price t s) ->
  is_float (bound cfg t) ->
  computed_price cfg t s p ->
  submitted_price cfg t s (to_binary64 p).
Proof.
  unfold is_float. intros HC Hb.
  destruct t; cbn [top_price bound computed_price submitted_price] in *;
    intros (Hin & Hbeyond & Hat).
  - split; [|split].
    + rewrite <- Hb. now apply to_binary64_monotone.
    + intros Hle. destruct (ltb (top_buy_price s) (upper_bound cfg)) eqn:Hlt.
      * rewrite <- HC. apply to_binary64_monotone. now apply ltb_leb, Hbeyond.
      * rewrite (Hat eq_refl), Hb. exact Hle.
    + intros Hlt. now rewrite (Hat Hlt), Hb.
  - unfold geb in *. split; [|split].
    + rewrite <- Hb. now apply to_binary64_monotone.
    + intros Hle. destruct (ltb (lower_bound cfg) (top_sell_price s)) eqn:Hlt.
      * rewrite <- HC. apply to_binary64_monotone. now apply ltb_leb, Hbeyond.
      * rewrite (Hat eq_refl), Hb. exact Hle.
    + intros Hlt. now rewrite (Hat Hlt), Hb.
Qed.

(** C1 (as amended): every order that [place_order] submits is of the side
    asked for, and its price [P] is the conversion to [float] of a price [P']
    that is within the bound of the side ([<= upper_bound] for a buy,
    [>= lower_bound] for a sell), strictly beyond the reference price [C]
    when [C] is strictly within the bound, and the bound itself otherwise.
    When [C] and the bound are [float]s, [P] is within the bound, not on the
    wrong side of [C] when [C] is within the bound, and the bound itself
    when [C] is at the bound or beyond it. *)
Theorem placed_price_within_bounds (fuel : nat) (t : side) (s : state) (w : world)
    (t' : side) (amount p : Decimal) :
  In (placement t' amount p) (events (place_order cfg fuel t s w)) ->
  t' = t /\
  (exists p', p = to_binary64 p' /\ computed_price cfg t s p') /\
  (is_float (top_price t s) -> is_float (bound cfg t) -> submitted_price cfg t s p).
Proof.
  intros Hin. destruct (place_order_placement _ _ _ _ _ _ _ Hin) as (Ht & p' & -> & Hp).
  split; [exact Ht|]. split; [eauto|].
  intros HC Hb. now apply computed_price_converted.
Qed.

Lemma place_order_never_cancels (fuel : nat) (t : side) (s : state) (w : world) (ev : event) :
  In ev (events (place_order cfg fuel t s w)) ->
  is_cancel ev = false /\ forall amount p, ev <> placement (other_side t) amount p.
Proof.
  intros Hin.
  destruct (place_order_cases fuel t s w) as
    [_ _ Hev _|_ _ Hev _|_ _ Hev _|_ _ Hev _|? ? ? _ Hp _ Hev _|? ? _ Hp _ Hev _];
    rewrite Hev in Hin; cbn [In] in Hin;
    repeat (destruct Hin as [Hin|Hin]); try contradiction; subst ev;
    (split; [destruct t; reflexivity|intros ? ?; destruct t; discriminate]).
Qed.

Lemma dict_get_set_other (t t' : side) (v : string) (d : list (side * string)) :
  t' <> t -> dict_get t' (dict_set t v d) = dict_get t' d.
Proof.
  intros Hne; induction d as [|[k x] d IH]; cbn.
  - destruct t, t'; cbn; congruence.
  - destruct t, k, t'; cbn; congruence.
Qed.

Lemma dict_get_set_same (t : side) (v : string) (d : list (side * string)) :
  dict_get t (dict_set t v d) = Some v.
Proof.
  induction d as [|[k x] d IH]; cbn.
  - destruct t; reflexivity.
  - destruct (side_eqb t k) eqn:Hk; cbn; rewrite ?Hk; [destruct t; reflexivity|exact IH].
Qed.

(** [place_order] leaves what the strategy holds for the other side. *)
Lemma place_order_other_slot (fuel : nat) (t : side) (s : state) (w : world) :
  slot (other_side t) (final (place_order cfg fuel t s w)) = slot (other_side t) s.
Proof.
  destruct (place_order_cases fuel t s w) as
    [_ _ _ Hf|_ _ _ Hf|_ _ _ Hf|_ _ _ Hf|? ? ? _ _ _ _ Hf|? ? _ _ _ _ Hf];
    rewrite Hf; unfold slot; destruct t; cbn;
    rewrite ?dict_get_set_other by discriminate; reflexivity.
Qed.

(** [place_order] reports a missing reference price exactly when the
    reference price of the side is zero. *)
Lemma place_order_refuses_iff (fuel : nat) (t : side) (s : state) (w : world) :
  In (LogError (CannotDetermineTopPrice t)) (events (place_order cfg fuel t s w))
  <-> is_zero (top_price t s) = true.
Proof.
  split.
  - intros Hin.
    destruct (place_order_cases fuel t s w) as
      [Hz _ _ _|_ _ Hev _|_ _ Hev _|_ _ Hev _|? ? ? _ _ _ Hev _|? ? _ _ _ Hev _];
      [exact Hz|..]; rewrite Hev in Hin; cbn [In] in Hin;
      repeat (destruct Hin as [Hin|Hin]); try contradiction;
      destruct t; discriminate.
  - intros Hz. rewrite (place_order_unset fuel t s w Hz). now left.
Qed.

(** The arithmetic stops at a configured amount that rounds to zero. *)
Lemma prepare_nothing (fuel : nat) (t : side) (top configured z : Decimal) :
  quantize configured (- Z.of_nat (amount_precision cfg t)) = inr z ->
  is_zero z = true ->
  prepare cfg fuel t top configured = Ret NothingToPlace.
Proof.
  intros Hq Hz. destruct t; unfold prepare; cbn [amount_precision] in Hq;
    rewrite Hq, Hz; reflexivity.
Qed.

Lemma place_order_zero_amount (fuel : nat) (t : side) (s : state) (w : world) (z : Decimal) :
  quantize (configured_amount cfg t w) (- Z.of_nat (amount_precision cfg t)) = inr z ->
  is_zero z = true ->
  disabled (final (place_order cfg fuel t s w)) = true /\
  (forall ev, In ev (events (place_order cfg fuel t s w)) -> is_placement ev = false).
Proof.
  intros Hq Hz. rewrite place_order_in_stages. unfold place_order_staged.
  rewrite (prepare_nothing fuel t _ _ z Hq Hz).
  destruct (is_zero (top_price t s)); cbn;
    (split; [reflexivity|]); intros ev [<-|[]]; reflexivity.
Qed.

(** The run of [place_order] from amounts that reach the dust check. *)
Lemma place_order_at_dust_check (fuel : nat) (t : side) (s : state) (w : world)
    (a_quote a_base p : Decimal) :
  is_zero (top_price t s) = false ->
  prepare cfg fuel t (top_price t s) (configured_amount cfg t w)
  = Ret (Amounts a_quote a_base p) ->
  place_order cfg fuel t s w
  = if is_too_small_amounts cfg a_quote a_base then
      mkRun (Ret tt) s (world_after_amount cfg t w) [LogError (AmountTooSmall t)]
    else
      let answer := submit t (to_binary64 a_quote) (to_binary64 p) (world_after_amount cfg t w) in
      let request := placement t (to_binary64 a_quote) (to_binary64 p) in
      match fst answer with
      | Some o =>
          mkRun (Ret tt)
                (set_orders (dict_set t (order_id o) (orders s)) (set_beaten_order t s))
                (snd answer) [request]
      | None =>
          mkRun (Ret tt) (set_beaten_order t s) (snd answer)
                [request; LogError (FailedToPlace t)]
      end.
Proof.
  intros Hz Hp. rewrite place_order_in_stages. unfold place_order_staged.
  now rewrite Hz, Hp.
Qed.

(** C3 (as amended): when the configured amount quantizes to zero,
    [place_order] submits nothing and sets [disabled].  When the amounts that
    its arithmetic arrives at fail the dust check [is_too_small_amounts], it
    logs the error and returns: nothing is submitted, and the strategy
    state, [disabled] included, is as it was.  When they pass the check, the
    order is submitted. *)
Theorem place_order_small_amounts (fuel : nat) (t : side) (s : state) (w : world) :
  (forall z,
     quantize (configured_amount cfg t w) (- Z.of_nat (amount_precision cfg t)) = inr z ->
     is_zero z = true ->
     disabled (final (place_order cfg fuel t s w)) = true /\
     (forall ev, In ev (events (place_order cfg fuel t s w)) -> is_placement ev = false)) /\
  (forall a_quote a_base p,
     is_zero (top_price t s) = false ->
     prepare cfg fuel t (top_price t s) (configured_amount cfg t w)
     = Ret (Amounts a_quote a_base p) ->
     (is_too_small_amounts cfg a_quote a_base = true ->
      place_order cfg fuel t s w
      = mkRun (Ret tt) s (world_after_amount cfg t w) [LogError (AmountTooSmall t)]) /\
     (is_too_small_amounts cfg a_quote a_base = false ->
      In (placement t (to_binary64 a_quote) (to_binary64 p))
         (events (place_order cfg fuel t s w)))).
Proof.
  split.
  - intros z. apply place_order_zero_amount.
  - intros a_quote a_base p Hz Hp.
    rewrite (place_order_at_dust_check fuel t s w _ _ _ Hz Hp).
    split; intros ->; [reflexivity|].
    cbv zeta. destruct (fst (submit _ _ _ _)); now left.
Qed.

(** When [place_order] submits an order: its reference price is set, and its
    arithmetic arrives at amounts that pass the dust check. *)
Lemma place_order_submits_iff (fuel : nat) (t : side) (s : state) (w : world) :
  (exists amount p, In (placement t amount p) (events (place_order cfg fuel t s w)))
  <-> (is_zero (top_price t s) = false /\
       exists a_quote a_base p,
         prepare cfg fuel t (top_price t s) (configured_amount cfg t w)
         = Ret (Amounts a_quote a_base p) /\
         is_too_small_amounts cfg a_quote a_base = false).
Proof.
  split.
  - intros (amount & p & Hin). rewrite place_order_in_stages in Hin.
    unfold place_order_staged in Hin.
    destruct (is_zero (top_price t s)).
    { destruct Hin as [Hin|[]]. destruct t; discriminate. }
    split; [reflexivity|].
    destruct (prepare _ _ _ _ _) as [[|a_quote a_base p']| |].
    + destruct Hin as [Hin|[]]. destruct t; discriminate.
    + exists a_quote, a_base, p'. split; [reflexivity|].
      destruct (is_too_small_amounts cfg a_quote a_base); [|reflexivity].
      destruct Hin as [Hin|[]]. destruct t; discriminate.
    + destruct Hin.
    + destruct Hin.
  - intros (Hz & a_quote & a_base & p & Hp & Hdust).
    exists (to_binary64 a_quote), (to_binary64 p).
    rewrite (place_order_at_dust_check fuel t s w _ _ _ Hz Hp), Hdust.
    cbv zeta. destruct (fst (submit _ _ _ _)); now left.
Qed.

(** The runs of the two scans of [get_top_prices]. *)
Lemma scan_sell_orders_run (thr : Decimal) (l : list Order) (s : state) (w : world) :
  scan_sell_orders cfg thr l s w
  = mkRun (Ret tt) (after_sell_scan cfg thr l s) w (sell_scan_log cfg thr l).
Proof.
  unfold scan_sell_orders, after_sell_scan, sell_scan_log.
  destruct (find _ l) as [o|]; cbn; [|reflexivity].
  destruct (ltb (price o) (lower_bound cfg)); reflexivity.
Qed.

Lemma scan_buy_orders_run (thr : Decimal) (l : list Order) (s : state) (w : world) :
  scan_buy_orders cfg thr l s w
  = mkRun (Ret tt) (after_buy_scan cfg thr l s) w (buy_scan_log cfg thr l).
Proof.
  unfold scan_buy_orders, after_buy_scan, buy_scan_log.
  destruct (find _ l) as [o|]; cbn; [|reflexivity].
  destruct (gtb (price o) (upper_bound cfg)); reflexivity.
Qed.

(** The run of [get_top_prices]: the two scans on the snapshot; it returns,
    and all it emits are the lines of the scans. *)
Lemma get_top_prices_run (s : state) (w : world) :
  get_top_prices cfg s w
  = mkRun (Ret tt)
      (after_buy_scan cfg (buy_threshold cfg w) (filter_buy_orders (book_seen w))
         (after_sell_scan cfg (sell_threshold cfg w) (filter_sell_orders (book_seen w)) s))
      (world_after_thresholds cfg w) (top_prices_log cfg w).
Proof.
  unfold get_top_prices, top_prices_log, amount_quote, amount_base, buy_threshold,
    sell_threshold, world_after_thresholds, world_after_sell_threshold, configured_amount,
    book_seen, world_after_book.
  destruct (is_zero (sell_order_size_threshold cfg)),
           (is_zero (buy_order_size_threshold cfg)),
           (is_relative_order_size cfg);
    cbn -[scan_sell_orders scan_buy_orders];
    rewrite scan_sell_orders_run; cbn -[scan_buy_orders];
    rewrite scan_buy_orders_run; cbn; reflexivity.
Qed.

Lemma find_none_of_forall {A} (f : A -> bool) (l : list A) :
  Forall (fun x => f x = false) l -> find f l = None.
Proof.
  induction 1 as [|x l Hx _ IH]; cbn; [reflexivity|]. now rewrite Hx.
Qed.

Lemma after_sell_scan_buy_side (thr : Decimal) (l : list Order) (s : state) :
  top_buy_price (after_sell_scan cfg thr l s) = top_buy_price s /\
  buy_order_to_beat (after_sell_scan cfg thr l s) = buy_order_to_beat s.
Proof.
  unfold after_sell_scan. destruct (find _ l); [|auto].
  destruct (ltb _ _); auto.
Qed.

Lemma after_buy_scan_sell_side (thr : Decimal) (l : list Order) (s : state) :
  top_sell_price (after_buy_scan cfg thr l s) = top_sell_price s /\
  sell_order_to_beat (after_buy_scan cfg thr l s) = sell_order_to_beat s.
Proof.
  unfold after_buy_scan. destruct (find _ l); [|auto].
  destruct (gtb _ _); auto.
Qed.

Lemma get_top_prices_frame (t : side) (s : state) (w : world) :
  no_qualifying_order cfg t w ->
  top_price t (final (get_top_prices cfg s w)) = top_price t s /\
  order_to_beat t (final (get_top_prices cfg s w)) = order_to_beat t s.
Proof.
  intros Hno. rewrite get_top_prices_run. cbn [final].
  destruct t; cbn [no_qualifying_order top_price order_to_beat] in *.
  - unfold after_buy_scan. rewrite (find_none_of_forall _ _ Hno).
    apply after_sell_scan_buy_side.
  - destruct (after_buy_scan_sell_side (buy_threshold cfg w) (filter_buy_orders (book_seen w))
                (after_sell_scan cfg (sell_threshold cfg w)
                   (filter_sell_orders (book_seen w)) s)) as [-> ->].
    unfold after_sell_scan. now rewrite (find_none_of_forall _ _ Hno).
Qed.

Lemma computed_price_same_reference (t : side) (s s' : state) (p : Decimal) :
  top_price t s' = top_price t s -> computed_price cfg t s' p -> computed_price cfg t s p.
Proof. destruct t; cbn [top_price computed_price]; intros ->; auto. Qed.

(** C10 (as amended): when no foreign order of a side in the snapshot is
    larger than the size threshold, [get_top_prices] leaves the reference
    price and the order to beat of that side as they were; a later
    [place_order] of that side then works against the retained price: it
    reports a missing reference price exactly when the retained price is
    zero, and what it submits is priced against the retained price. *)
Theorem get_top_prices_keeps_reference (t : side) (s : state) (w : world) :
  no_qualifying_order cfg t w ->
  top_price t (final (get_top_prices cfg s w)) = top_price t s /\
  order_to_beat t (final (get_top_prices cfg s w)) = order_to_beat t s /\
  forall fuel w',
    (In (LogError (CannotDetermineTopPrice t))
        (events (place_order cfg fuel t (final (get_top_prices cfg s w)) w'))
     <-> is_zero (top_price t s) = true) /\
    (forall amount p,
        In (placement t amount p)
           (events (place_order cfg fuel t (final (get_top_prices cfg s w)) w')) ->
        is_zero (top_price t s) = false /\
        exists p', p = to_binary64 p' /\ computed_price cfg t s p').
Proof.
  intros Hno. destruct (get_top_prices_frame t s w Hno) as [Htop Hbeat].
  split; [exact Htop|]. split; [exact Hbeat|].
  intros fuel w'. split.
  - rewrite place_order_refuses_iff, Htop. reflexivity.
  - intros amount p Hin. split.
    + destruct (is_zero (top_price t s)) eqn:Hz; [|reflexivity].
      rewrite <- Htop in Hz.
      rewrite (place_order_unset fuel t _ w' Hz) in Hin. cbn in Hin.
      destruct Hin as [Hin|[]]. destruct t; discriminate.
    + destruct (place_order_placement _ _ _ _ _ _ _ Hin) as (_ & p' & -> & Hp).
      exists p'. split; [reflexivity|].
      now apply (computed_price_same_reference t s _ p' Htop).
Qed.

(** The check phase at a tracked order: what comes before it, its own
    check, and the checks of the entries after it. *)
Lemma check_orders_reaches (fuel : nat) (s : state) (w : world)
    (before after : list (side * string)) (entry : side * string) :
  orders s = before ++ entry :: after ->
  check_orders cfg fuel s w
  = bind (checks_before cfg fuel before)
         (fun _ => bind (check_order cfg fuel entry)
                        (fun _ => for_each (check_order cfg fuel) after)) s w.
Proof.
  intros Ho. unfold check_orders, checks_before.
  rewrite bind_assoc, !(bind_run (get_top_prices cfg)), get_top_prices_run.
  cbn [result final final_world events]. f_equal.
  rewrite (bind_run get). cbn [get result final final_world events]. rewrite prepend_nil.
  assert (Hsame : orders (after_buy_scan cfg (buy_threshold cfg w)
                            (filter_buy_orders (book_seen w))
                            (after_sell_scan cfg (sell_threshold cfg w)
                               (filter_sell_orders (book_seen w)) s)) = orders s).
  { unfold after_buy_scan, after_sell_scan.
    destruct (find _ _) as [o|]; [destruct (gtb _ _)|];
      (destruct (find _ _) as [o'|]; [destruct (ltb _ _)|]); reflexivity. }
  rewrite Hsame, Ho, for_each_app. reflexivity.
Qed.

(** A run that starts with given events, followed by a continuation. *)
Lemma bind_after_prepend {A B} (m1 m2 : M A) (k : A -> M B) (evs : list event)
    (s s' : state) (w w' : world) :
  m1 s w = prepend evs (m2 s' w') ->
  bind m1 k s w = prepend evs (bind m2 k s' w').
Proof.
  intros H. rewrite !bind_run, H, result_prepend, events_prepend, final_prepend,
    final_world_prepend.
  destruct (result (m2 s' w')); cbn [prepend]; try reflexivity.
  now rewrite prepend_prepend.
Qed.

(** The check phase from the point where it reaches a tracked order. *)
Lemma check_orders_from (fuel : nat) (s : state) (w : world)
    (before after : list (side * string)) (entry : side * string) :
  orders s = before ++ entry :: after ->
  result (checks_before cfg fuel before s w) = Ret tt ->
  check_orders cfg fuel s w
  = prepend (events (checks_before cfg fuel before s w))
      (bind (check_order cfg fuel entry) (fun _ => for_each (check_order cfg fuel) after)
            (final (checks_before cfg fuel before s w))
            (final_world (checks_before cfg fuel before s w))).
Proof.
  intros Ho Hret. rewrite (check_orders_reaches fuel s w before after entry Ho).
  rewrite (bind_run (checks_before cfg fuel before)), Hret. reflexivity.
Qed.

(** The check of a tracked order that the exchange no longer resolves. *)
Lemma check_order_of_absent (fuel : nat) (t : side) (id : string) (s : state) (w : world) :
  fst (get_order (Some id) w) = None ->
  check_order cfg fuel (t, id) s w
  = prepend [LogInfo (OwnOrderFilled t)]
            (place_order cfg fuel t s (snd (get_order (Some id) w))).
Proof.
  intros Habs. unfold check_order; cbn. rewrite Habs; cbn.
  destruct (place_order cfg fuel t s (snd (get_order (Some id) w))) as [[[]| |] ? ? ?];
    reflexivity.
Qed.

(** The check of a tracked order that is on the book and partially filled. *)
Lemma check_order_of_partially_filled (fuel : nat) (t : side) (id : string)
    (s : state) (w : world) (o : Order) :
  fst (get_order (Some id) w) = Some o ->
  is_partially_filled o (partial_fill_threshold cfg) = true ->
  check_order cfg fuel (t, id) s w
  = prepend [LogInfo (OwnOrderFilledTooMuch t); CancelOrder (order_id o)]
      (if fst (cancel_orders o (snd (get_order (Some id) w)))
       then place_order cfg fuel t s (snd (cancel_orders o (snd (get_order (Some id) w))))
       else ret tt s (snd (cancel_orders o (snd (get_order (Some id) w))))).
Proof.
  intros Hlive Hpf. unfold check_order, need_cancel; cbn.
  rewrite Hlive; cbn. rewrite Hpf; cbn.
  destruct (fst (cancel_orders o (snd (get_order (Some id) w)))); [|reflexivity].
  destruct (place_order cfg fuel t s _) as [[[]| |] ? ? ?]; reflexivity.
Qed.

(** C6 (as amended): when the check phase reaches a tracked order that the
    exchange no longer resolves (the checks of the entries before it have
    returned), it logs the fill and runs [place_order] for that side, and
    goes on with the entries after it when [place_order] returns.  That run
    of [place_order] requests no cancellation, submits nothing for the other
    side and leaves what the strategy holds for the other side.  It submits
    a replacement exactly when the reference price of the side is set and
    its arithmetic arrives at amounts that pass the dust check; the
    replacement is then for these amounts and that price, and the side
    tracks it when the exchange accepts it. *)
Theorem check_orders_absent (fuel : nat) (s : state) (w : world)
    (before after : list (side * string)) (t : side) (id : string) :
  orders s = before ++ (t, id) :: after ->
  let reached := checks_before cfg fuel before s w in
  result reached = Ret tt ->
  fst (get_order (Some id) (final_world reached)) = None ->
  let w1 := snd (get_order (Some id) (final_world reached)) in
  let replacement := place_order cfg fuel t (final reached) w1 in
  check_orders cfg fuel s w
  = prepend (events reached ++ [LogInfo (OwnOrderFilled t)])
      (bind (place_order cfg fuel t) (fun _ => for_each (check_order cfg fuel) after)
            (final reached) w1) /\
  (forall ev, In ev (events replacement) ->
     is_cancel ev = false /\ forall amount p, ev <> placement (other_side t) amount p) /\
  slot (other_side t) (final replacement) = slot (other_side t) (final reached) /\
  ((exists amount p, In (placement t amount p) (events replacement))
   <-> (is_zero (top_price t (final reached)) = false /\
        exists a_quote a_base p,
          prepare cfg fuel t (top_price t (final reached)) (configured_amount cfg t w1)
          = Ret (Amounts a_quote a_base p) /\
          is_too_small_amounts cfg a_quote a_base = false)) /\
  (forall a_quote a_base p,
     is_zero (top_price t (final reached)) = false ->
     prepare cfg fuel t (top_price t (final reached)) (configured_amount cfg t w1)
     = Ret (Amounts a_quote a_base p) ->
     is_too_small_amounts cfg a_quote a_base = false ->
     In (placement t (to_binary64 a_quote) (to_binary64 p)) (events replacement) /\
     forall o,
       fst (submit t (to_binary64 a_quote) (to_binary64 p) (world_after_amount cfg t w1))
       = Some o ->
       dict_get t (orders (final replacement)) = Some (order_id o)).
Proof.
  intros Ho reached Hret Habs w1 replacement. split; [|split; [|split; [|split]]].
  - rewrite (check_orders_from fuel s w before after (t, id) Ho Hret).
    fold reached.
    rewrite (bind_after_prepend _ _ _ _ _ _ _ _
               (check_order_of_absent fuel t id (final reached) (final_world reached) Habs)).
    now rewrite prepend_prepend.
  - apply place_order_never_cancels.
  - apply place_order_other_slot.
  - apply place_order_submits_iff.
  - intros a_quote a_base p Hz Hp Hdust. unfold replacement.
    rewrite (place_order_at_dust_check fuel t (final reached) w1 _ _ _ Hz Hp), Hdust.
    cbv zeta. split.
    + destruct (fst (submit _ _ _ _)); now left.
    + intros o ->. cbn [final orders set_orders]. apply dict_get_set_same.
Qed.

(** C5 (as amended): when the check phase reaches a tracked order that is on
    the book with [remaining_amount < threshold * original_amount] (the
    checks of the entries before it have returned), it logs the partial fill
    and requests the cancellation.  When the cancellation succeeds it runs
    [place_order] for that side before it goes on; when it fails it goes on
    with the entries after it at once, from the state it reached the order
    with. *)
Theorem check_orders_partially_filled (fuel : nat) (s : state) (w : world)
    (before after : list (side * string)) (t : side) (id : string) (o : Order) :
  orders s = before ++ (t, id) :: after ->
  let reached := checks_before cfg fuel before s w in
  result reached = Ret tt ->
  fst (get_order (Some id) (final_world reached)) = Some o ->
  is_partially_filled o (partial_fill_threshold cfg) = true ->
  let w1 := snd (get_order (Some id) (final_world reached)) in
  let w2 := snd (cancel_orders o w1) in
  let asked := [LogInfo (OwnOrderFilledTooMuch t); CancelOrder (order_id o)] in
  check_orders cfg fuel s w
  = prepend (events reached ++ asked)
      (if fst (cancel_orders o w1)
       then bind (place_order cfg fuel t) (fun _ => for_each (check_order cfg fuel) after)
                 (final reached) w2
       else for_each (check_order cfg fuel) after (final reached) w2).
Proof.
  intros Ho reached Hret Hlive Hpf w1 w2 asked.
  rewrite (check_orders_from fuel s w before after (t, id) Ho Hret). fold reached.
  pose proof (check_order_of_partially_filled fuel t id (final reached)
                (final_world reached) o Hlive Hpf) as Hbody.
  fold w1 in Hbody. fold w2 in Hbody. fold asked in Hbody.
  destruct (fst (cancel_orders o w1)).
  - rewrite (bind_after_prepend _ _ _ _ _ _ _ _ Hbody). now rewrite prepend_prepend.
  - rewrite (bind_after_prepend _ (ret tt) _ _ _ _ _ _ Hbody).
    rewrite prepend_prepend. f_equal. cbn. now rewrite prepend_nil.
Qed.

End Facts.

(** *** The properties at work on the small exchange *)
Import Toy Scenarios.
#[local] Open Scope string_scope.

(** C1 (as stated) fails in two ways.  With the reference price at the upper
    bound, the buy order is submitted at the reference price itself.  With
    the reference price [0.3] (the [float]) strictly below the upper bound,
    buying 3 computes the price [Decimal('0.3')], which is above the
    reference price, and submits [float(Decimal('0.3'))], which is the
    reference price. *)
Lemma placed_price_equal_to_reference :
  (In (PlaceBuy (mkDecimal 5 (-1)) (of_Z 100))
      (events (place_order (buyer (of_Z 100)) 10 Buy (with_top_prices (of_Z 100)) quiet_world)) /\
   top_buy_price (with_top_prices (of_Z 100)) = of_Z 100 /\
   ltb (top_buy_price (with_top_prices (of_Z 100))) (of_Z 100) = false /\
   ~ price_beats_by_increment (buyer (of_Z 100)) Buy (with_top_prices (of_Z 100)) (of_Z 100)) /\
  (let c := to_binary64 (mkDecimal 3 (-1)) in
   let cfg := worker (of_Z 1000) (of_Z 0) (of_Z 3) (of_Z 1) 8 8 in
   events (place_order cfg 10 Buy (with_top_prices c) quiet_world) = [PlaceBuy (of_Z 10) c] /\
   prepare cfg 10 Buy c (of_Z 3)
   = Ret (Amounts (mkDecimal 1000000000 (-8)) (mkDecimal 300000000 (-8)) (mkDecimal 3 (-1))) /\
   ltb c (mkDecimal 3 (-1)) = true /\
   ltb c (upper_bound cfg) = true /\
   ltb c c = false /\
   ~ price_beats_by_increment cfg Buy (with_top_prices c) c).
Proof.
  split.
  - split; [vm_compute; left; reflexivity|]. split; [vm_compute; reflexivity|].
    split; [vm_compute; reflexivity|].
    intros [H _]. vm_compute in H. discriminate.
  - cbv zeta. repeat split; try (vm_compute; reflexivity).
    intros [H _]. vm_compute in H. discriminate.
Qed.

(** Away from the bound the computed price is above the reference price, but
    by less than a precision increment when the amount is large; so is the
    price that is submitted. *)
Example placed_price_within_increment :
  prepare large_buyer 10 Buy (of_Z 1) (of_Z 1000000)
  = Ret (Amounts (mkDecimal 99999999999999 (-8)) (mkDecimal 100000000000000 (-8))
                 (mkDecimal 1000000000000010000000000000 (-27))) /\
  events (place_order large_buyer 10 Buy (with_top_prices (of_Z 1)) quiet_world)
  = [PlaceBuy (to_binary64 (mkDecimal 99999999999999 (-8)))
              (to_binary64 (mkDecimal 1000000000000010000000000000 (-27)))] /\
  ltb (of_Z 1) (to_binary64 (mkDecimal 1000000000000010000000000000 (-27))) = true /\
  ltb (to_binary64 (mkDecimal 1000000000000010000000000000 (-27)))
      (add (of_Z 1) (unit_of 8)) = true.
Proof. repeat split; vm_compute; reflexivity. Qed.

Lemma placed_price_within_bounds_witness :
  In (placement Buy (to_binary64 (mkDecimal 49999999 (-8)))
                    (to_binary64 (mkDecimal 1000000020000000400000008000 (-25))))
     (events (place_order (buyer (of_Z 1000)) 10 Buy (with_top_prices (of_Z 100)) quiet_world)) /\
  is_float (of_Z 100) /\ is_float (of_Z 1000) /\
  submitted_price (buyer (of_Z 1000)) Buy (with_top_prices (of_Z 100))
     (to_binary64 (mkDecimal 1000000020000000400000008000 (-25))).
Proof.
  assert (H : In (placement Buy (to_binary64 (mkDecimal 49999999 (-8)))
                    (to_binary64 (mkDecimal 1000000020000000400000008000 (-25))))
                 (events (place_order (buyer (of_Z 1000)) 10 Buy
                            (with_top_prices (of_Z 100)) quiet_world)))
    by (vm_compute; left; reflexivity).
  assert (HC : is_float (of_Z 100)) by (vm_compute; reflexivity).
  assert (Hb : is_float (of_Z 1000)) by (vm_compute; reflexivity).
  split; [exact H|]. split; [exact HC|]. split; [exact Hb|].
  exact (proj2 (proj2 (placed_price_within_bounds (E := toy_exchange) (buyer (of_Z 1000)) 10
                         Buy (with_top_prices (of_Z 100)) quiet_world Buy _ _ H)) HC Hb).
Defined.

(** C2: the buy loop divides by an amount that it has decreased to zero.
    Buying 1 against a reference price of 100 with two digits on the quote
    asset: [amount_quote] starts at 0.01, the price 100 is not above the
    reference price, the loop takes [amount_quote] to 0.00 and the division
    raises. *)
Theorem place_order_buy_divides_by_zero (fuel : nat) :
  place_order small_buyer (S fuel) Buy (with_top_prices (of_Z 100)) quiet_world
  = mkRun (Raise (DecimalSignal DivisionByZero)) (with_top_prices (of_Z 100)) quiet_world [].
Proof. cbn. reflexivity. Qed.

(** The same through [maintain_strategy], from the state after [__init__]
    and a book with one foreign buy order at 100: the evaluation ends in the
    exception, with no order placed and [last_check] not updated. *)
Example maintain_strategy_divides_by_zero :
  result (maintain_strategy small_buyer 10 init_state (book true))
  = Raise (DecimalSignal DivisionByZero) /\
  events (maintain_strategy small_buyer 10 init_state (book true))
  = [LogDebug (TopPriceToBeHigher Buy (of_Z 100))] /\
  last_check (final (maintain_strategy small_buyer 10 init_state (book true)))
  = datetime_2000_01_01.
Proof. repeat split; vm_compute; reflexivity. Qed.

(** C3 (as stated) fails: selling 1 against a reference price of [2 ** -14]
    with four digits, the arithmetic arrives at the amounts 1.0000 and
    0.0000, which fail the dust check; the order is not placed, and
    [disabled] stays unset. *)
Lemma dust_does_not_disable :
  prepare small_seller 10 Sell two_to_minus_14 (of_Z 1)
  = Ret (Amounts (mkDecimal 10000 (-4)) (mkDecimal 0 (-4)) (mkDecimal 0 0)) /\
  is_too_small_amounts small_seller (mkDecimal 10000 (-4)) (mkDecimal 0 (-4)) = true /\
  events (place_order small_seller 10 Sell (with_top_prices two_to_minus_14) quiet_world)
  = [LogError (AmountTooSmall Sell)] /\
  disabled (final (place_order small_seller 10 Sell (with_top_prices two_to_minus_14)
                     quiet_world)) = false.
Proof. repeat split; vm_compute; reflexivity. Qed.

Lemma place_order_small_amounts_witness :
  (disabled (final (place_order (worker (of_Z 1000) (of_Z 0) (mkDecimal 4 (-3)) (of_Z 1) 2 2)
                      10 Buy (with_top_prices (of_Z 100)) quiet_world)) = true) /\
  (place_order small_seller 10 Sell (with_top_prices two_to_minus_14) quiet_world
   = mkRun (Ret tt) (with_top_prices two_to_minus_14) quiet_world
           [LogError (AmountTooSmall Sell)]) /\
  In (PlaceBuy (to_binary64 (mkDecimal 49999999 (-8)))
               (to_binary64 (mkDecimal 1000000020000000400000008000 (-25))))
     (events (place_order (buyer (of_Z 1000)) 10 Buy (with_top_prices (of_Z 100)) quiet_world)).
Proof.
  split; [|split].
  - apply (proj1 (place_order_small_amounts (E := toy_exchange)
                    (worker (of_Z 1000) (of_Z 0) (mkDecimal 4 (-3)) (of_Z 1) 2 2)
                    10 Buy (with_top_prices (of_Z 100)) quiet_world)
                 (mkDecimal 0 (-2))); vm_compute; reflexivity.
  - apply (proj1 (proj2 (place_order_small_amounts (E := toy_exchange) small_seller 10 Sell
                           (with_top_prices two_to_minus_14) quiet_world)
                        (mkDecimal 10000 (-4)) (mkDecimal 0 (-4)) (mkDecimal 0 0)
                        eq_refl eq_refl)).
    vm_compute; reflexivity.
  - apply (proj2 (proj2 (place_order_small_amounts (E := toy_exchange) (buyer (of_Z 1000)) 10 Buy
                           (with_top_prices (of_Z 100)) quiet_world)
                        (mkDecimal 49999999 (-8)) (mkDecimal 5000000000 (-8))
                        (mkDecimal 1000000020000000400000008000 (-25))
                        eq_refl eq_refl)).
    vm_compute; reflexivity.
Defined.

Lemma place_order_without_reference_price_witness :
  is_zero (top_price Sell init_state) = true /\
  disabled (final (place_order (buyer (of_Z 1000)) 10 Sell init_state quiet_world)) = true.
Proof.
  split; [vm_compute; reflexivity|].
  apply (place_order_without_reference_price (E := toy_exchange) (buyer (of_Z 1000)) 10 Sell init_state quiet_world).
  vm_compute; reflexivity.
Defined.

(** C5 (as stated) fails: 15 of 100 remain of the tracked buy order, the
    check reports the partial fill and asks for the cancellation, the
    cancellation fails, and no replacement is placed. *)
Lemma partially_filled_not_replaced :
  fst (get_order (Some "1.7.1") (book false)) = Some filled_order /\
  is_partially_filled filled_order (partial_fill_threshold (buyer (of_Z 1000))) = true /\
  events (check_orders (buyer (of_Z 1000)) 10 tracking (book false))
  = [LogDebug (TopPriceToBeHigher Buy (of_Z 100));
     LogInfo (OwnOrderFilledTooMuch Buy); CancelOrder "1.7.1"] /\
  forallb (fun ev => negb (is_placement ev))
          (events (check_orders (buyer (of_Z 1000)) 10 tracking (book false))) = true /\
  orders (final (check_orders (buyer (of_Z 1000)) 10 tracking (book false)))
  = [(Buy, "1.7.1")].
Proof. repeat split; vm_compute; reflexivity. Qed.

Lemma check_orders_partially_filled_witness :
  fst (get_order (Some "1.7.1")
         (final_world (checks_before (buyer (of_Z 1000)) 10 [] tracking (book true))))
  = Some filled_order /\
  is_partially_filled filled_order (partial_fill_threshold (buyer (of_Z 1000))) = true /\
  events (check_orders (buyer (of_Z 1000)) 10 tracking (book true))
  = [LogDebug (TopPriceToBeHigher Buy (of_Z 100));
     LogInfo (OwnOrderFilledTooMuch Buy); CancelOrder "1.7.1";
     PlaceBuy (to_binary64 (mkDecimal 49999999 (-8)))
              (to_binary64 (mkDecimal 1000000020000000400000008000 (-25)))].
Proof.
  split; [vm_compute; reflexivity|]. split; [vm_compute; reflexivity|].
  rewrite (check_orders_partially_filled (E := toy_exchange) (buyer (of_Z 1000)) 10 tracking
             (book true) [] [] Buy "1.7.1" filled_order);
    vm_compute; reflexivity.
Defined.

(** An exception in the check of an entry ends the check phase: the buy
    order has gone and its replacement divides by zero, so the sell order,
    of which 15 of 100 remain, is not looked at. *)
Example check_orders_stops_at_exception :
  let sold := mkOrder "1.7.7" (mkDecimal 1 (-2)) (of_Z 100) (of_Z 1) (of_Z 100) (of_Z 15) in
  let s := set_orders [(Buy, "1.7.1"); (Sell, "1.7.7")] (with_top_prices (of_Z 100)) in
  let w := mkToy (datetime_2000_01_01 + 5000000) [] [sold] true true [] in
  fst (get_order (Some "1.7.7") w) = Some sold /\
  is_partially_filled sold (partial_fill_threshold small_buyer) = true /\
  result (check_orders small_buyer 10 s w) = Raise (DecimalSignal DivisionByZero) /\
  events (check_orders small_buyer 10 s w) = [LogInfo (OwnOrderFilled Buy)].
Proof. cbv zeta. repeat split; vm_compute; reflexivity. Qed.

(** C6 (as stated) fails: the tracked sell order has gone, the amounts of
    its replacement fail the dust check, and the check phase ends without
    having placed a replacement. *)
Lemma absent_order_not_replaced :
  let s := set_orders [(Sell, "1.7.9")] (with_top_prices two_to_minus_14) in
  fst (get_order (Some "1.7.9") quiet_world) = None /\
  result (check_orders small_seller 10 s quiet_world) = Ret tt /\
  events (check_orders small_seller 10 s quiet_world)
  = [LogInfo (OwnOrderFilled Sell); LogError (AmountTooSmall Sell)] /\
  forallb (fun ev => negb (is_placement ev))
          (events (check_orders small_seller 10 s quiet_world)) = true /\
  orders (final (check_orders small_seller 10 s quiet_world)) = [(Sell, "1.7.9")].
Proof. cbv zeta. repeat split; vm_compute; reflexivity. Qed.

Lemma check_orders_absent_witness :
  fst (get_order (Some "1.7.1")
         (final_world (checks_before (buyer (of_Z 1000)) 10 [] tracking book_without_own)))
  = None /\
  events (check_orders (buyer (of_Z 1000)) 10 tracking book_without_own)
  = [LogDebug (TopPriceToBeHigher Buy (of_Z 100));
     LogInfo (OwnOrderFilled Buy);
     PlaceBuy (to_binary64 (mkDecimal 49999999 (-8)))
              (to_binary64 (mkDecimal 1000000020000000400000008000 (-25)))].
Proof.
  split; [vm_compute; reflexivity|].
  rewrite (proj1 (check_orders_absent (E := toy_exchange) (buyer (of_Z 1000)) 10 tracking
                    book_without_own [] [] Buy "1.7.1" eq_refl eq_refl eq_refl)).
  vm_compute; reflexivity.
Defined.

Lemma maintain_strategy_throttled_witness :
  now (book true) - last_check (set_last_check (datetime_2000_01_01 + 4500000) tracking)
    < timedelta_seconds (min_check_interval (buyer (of_Z 1000))) /\
  maintain_strategy (buyer (of_Z 1000)) 10
    (set_last_check (datetime_2000_01_01 + 4500000) tracking) (book true)
  = mkRun (Ret tt) (set_last_check (datetime_2000_01_01 + 4500000) tracking) (book true) [].
Proof.
  split; [vm_compute; reflexivity|].
  apply (maintain_strategy_throttled (E := toy_exchange) (buyer (of_Z 1000)) 10).
  vm_compute; reflexivity.
Defined.

(** C10 (as stated) fails: with [upper_bound] at its default 0, the scan
    takes the price 100 of a foreign buy order and clamps it to the bound;
    the next snapshot has no qualifying buy order, the price stays at zero,
    and [place_order] reports a missing reference price although the price
    has been set. *)
Lemma zero_bound_refuses_after_price_was_set :
  let cfg := worker (of_Z 0) (of_Z 0) (of_Z 50) (of_Z 50) 8 8 in
  let s1 := final (get_top_prices cfg init_state (book true)) in
  events (get_top_prices cfg init_state (book true))
  = [LogDebug (TopPriceBeyondBound Buy (of_Z 100) (of_Z 0))] /\
  buy_order_to_beat s1 = Some "buy-1.7.2" /\
  no_qualifying_order cfg Buy thin_book /\
  events (place_order cfg 10 Buy (final (get_top_prices cfg s1 thin_book)) thin_book)
  = [LogError (CannotDetermineTopPrice Buy)].
Proof.
  cbv zeta. split; [vm_compute; reflexivity|]. split; [vm_compute; reflexivity|].
  split; [|vm_compute; reflexivity].
  constructor; [vm_compute; reflexivity|constructor].
Qed.

Lemma get_top_prices_keeps_reference_witness :
  no_qualifying_order (buyer (of_Z 1000)) Buy thin_book /\
  top_price Buy (final (get_top_prices (buyer (of_Z 1000)) (with_top_prices (of_Z 100)) thin_book))
  = of_Z 100.
Proof.
  assert (H : no_qualifying_order (buyer (of_Z 1000)) Buy thin_book).
  { constructor; [vm_compute; reflexivity|constructor]. }
  split; [exact H|].
  exact (proj1 (get_top_prices_keeps_reference (E := toy_exchange) (buyer (of_Z 1000)) Buy
                  (with_top_prices (of_Z 100)) thin_book H)).
Defined.

(** The stale price is acted on: after a snapshot with only a thin buy order
    at 101, a buy order is placed just above the retained price of 100. *)
Example stale_price_reused :
  events (place_orders (worker (of_Z 1000) (of_Z 1) (of_Z 50) (of_Z 50) 8 8) 10
            (set_top_buy_price (of_Z 100) init_state) thin_book)
  = [PlaceBuy (to_binary64 (mkDecimal 49999999 (-8)))
              (to_binary64 (mkDecimal 1000000020000000400000008000 (-25)));
     LogError (CannotDetermineTopPrice Sell)].
Proof. vm_compute; reflexivity. Qed.

End KothFacts.

(** ** More facts about King of the Hill *)
Module KothExtFacts.
Import Dec DecFacts Koth KothRules KothFacts KothExt.

Section Frames.

Context {E : Exchange}.
Variable cfg : worker_config.

Lemma steady_refl (s : state) : steady s s.
Proof. split; auto. Qed.

Lemma steady_trans (s1 s2 s3 : state) : steady s1 s2 -> steady s2 s3 -> steady s1 s3.
Proof. intros [H1 H2] [H3 H4]; split; [congruence|auto]. Qed.

Lemma same_references_refl (s : state) : same_references s s.
Proof. repeat split. Qed.

Lemma same_references_trans (s1 s2 s3 : state) :
  same_references s1 s2 -> same_references s2 s3 -> same_references s1 s3.
Proof.
  intros (A1 & A2 & A3 & A4 & A5) (B1 & B2 & B3 & B4 & B5).
  repeat split; congruence.
Qed.

Lemma same_tracking_steady (s s' : state) : same_tracking s s' -> steady s s'.
Proof. intros (_ & _ & _ & Hc & Hd); split; [exact Hc|congruence]. Qed.

(** [get_top_prices] assigns the reference prices and the orders to beat,
    and nothing else. *)
Lemma scans_same_tracking (bt st : Decimal) (bl sl : list Order) (s : state) :
  same_tracking s (after_buy_scan cfg bt bl (after_sell_scan cfg st sl s)).
Proof.
  unfold after_buy_scan, after_sell_scan.
  destruct (find _ bl), (find _ sl); cbn;
    repeat match goal with |- context [if ?b then _ else _] => destruct b end;
    repeat split.
Qed.

Lemma get_top_prices_same_tracking : keeps same_tracking (get_top_prices cfg).
Proof. intros s w. rewrite get_top_prices_run. apply scans_same_tracking. Qed.

Lemma get_top_prices_steady : keeps steady (get_top_prices cfg).
Proof. intros s w. apply same_tracking_steady, get_top_prices_same_tracking. Qed.

Lemma top_prices_log_debug (w : world) (ev : event) :
  In ev (top_prices_log cfg w) -> is_debug ev = true.
Proof.
  unfold top_prices_log, sell_scan_log, buy_scan_log. intros Hin.
  apply in_app_or in Hin as [Hin|Hin];
    destruct (find _ _) as [o|]; try destruct Hin;
    match type of Hin with
    | In _ (if ?b then _ else _) => destruct b
    end; destruct Hin as [<-|[]]; reflexivity.
Qed.

Lemma get_top_prices_logs_only : emits_only (fun ev => is_debug ev = true) (get_top_prices cfg).
Proof. intros s w ev. rewrite get_top_prices_run. apply top_prices_log_debug. Qed.

Lemma place_order_steady (fuel : nat) (t : side) : keeps steady (place_order cfg fuel t).
Proof.
  intros s w.
  destruct (place_order_cases cfg fuel t s w) as
    [_ _ _ Hf|_ _ _ Hf|_ _ _ Hf|_ _ _ Hf|? ? ? _ _ _ _ Hf|? ? _ _ _ _ Hf];
    rewrite Hf; split; destruct t; cbn; auto.
Qed.

Lemma place_order_same_references (fuel : nat) (t : side) :
  keeps same_references (place_order cfg fuel t).
Proof.
  intros s w.
  destruct (place_order_cases cfg fuel t s w) as
    [_ _ _ Hf|_ _ _ Hf|_ _ _ Hf|_ _ _ Hf|? ? ? _ _ _ _ Hf|? ? _ _ _ _ Hf];
    rewrite Hf; destruct t; repeat split.
Qed.

Lemma need_cancel_keeps (R : state -> state -> Prop) (t : side) (o : Order) :
  (forall s, R s s) -> (forall s1 s2 s3, R s1 s2 -> R s2 s3 -> R s1 s3) ->
  keeps R (need_cancel cfg t o).
Proof.
  intros refl trans. unfold need_cancel. repeat keeps_step refl trans.
Qed.

Lemma check_order_steady (fuel : nat) (entry : side * string) :
  keeps steady (check_order cfg fuel entry).
Proof.
  unfold check_order.
  apply (keeps_bind _ steady_trans); [apply (keeps_ext _ steady_refl)|].
  intros [o|].
  - apply (keeps_bind _ steady_trans);
      [apply need_cancel_keeps; [exact steady_refl|exact steady_trans]|].
    intros [|]; [|apply (keeps_ret _ steady_refl)].
    apply (keeps_bind _ steady_trans); [apply (keeps_emit _ steady_refl)|]. intros _.
    apply (keeps_bind _ steady_trans); [apply (keeps_ext _ steady_refl)|].
    intros [|]; [apply place_order_steady|apply (keeps_ret _ steady_refl)].
  - apply (keeps_bind _ steady_trans); [apply (keeps_emit _ steady_refl)|]. intros _.
    apply place_order_steady.
Qed.

Lemma check_orders_steady (fuel : nat) : keeps steady (check_orders cfg fuel).
Proof.
  unfold check_orders.
  apply (keeps_bind _ steady_trans); [apply get_top_prices_steady|]. intros _.
  apply (keeps_bind _ steady_trans); [apply (keeps_get _ steady_refl)|]. intros s0.
  apply (keeps_for_each _ steady_refl steady_trans). intros x _. apply check_order_steady.
Qed.

Lemma place_orders_steady (fuel : nat) : keeps steady (place_orders cfg fuel).
Proof.
  unfold place_orders.
  apply (keeps_bind _ steady_trans); [apply get_top_prices_steady|]. intros _.
  apply (keeps_bind _ steady_trans).
  - destruct (_ || _); [apply place_order_steady|apply (keeps_ret _ steady_refl)].
  - intros _. destruct (_ || _); [apply place_order_steady|apply (keeps_ret _ steady_refl)].
Qed.

(** The phase that [maintain_strategy] runs once the interval has elapsed. *)
Lemma evaluation_steady (fuel : nat) (s0 : state) :
  keeps steady (match orders s0 with
                | _ :: _ => check_orders cfg fuel
                | [] => place_orders cfg fuel
                end).
Proof. destruct (orders s0); [apply place_orders_steady|apply check_orders_steady]. Qed.

(** [last_check] moves exactly when an evaluation has run to its end: a
    call that returns after the interval has elapsed leaves [last_check] at
    the time of its end, and a call that raises leaves it as it was. *)
Theorem maintain_strategy_last_check (fuel : nat) (s : state) (w : world) :
  (timedelta_seconds (min_check_interval cfg) <= now w - last_check s ->
   result (maintain_strategy cfg fuel s w) = Ret tt ->
   last_check (final (maintain_strategy cfg fuel s w))
   = now (final_world (maintain_strategy cfg fuel s w))) /\
  (result (maintain_strategy cfg fuel s w) <> Ret tt ->
   last_check (final (maintain_strategy cfg fuel s w)) = last_check s).
Proof.
  unfold maintain_strategy. cbn.
  destruct (Z.ltb_spec (now w - last_check s) (timedelta_seconds (min_check_interval cfg)))
    as [Hlt|Hge]; cbn.
  - split; [lia|]. intros _. reflexivity.
  - pose proof (evaluation_steady fuel s s w) as [Hc _].
    match type of Hc with
    | context [final ?r] => destruct r as [[[]| |] s' w' evs]
    end; cbn in *;
      (split;
       [intros _ Hr; first [discriminate Hr|reflexivity]
       |intros Hn; first [exact Hc|exfalso; apply Hn; reflexivity]]).
Qed.

(** Nothing in an evaluation clears [disabled]. *)
Theorem maintain_strategy_stays_disabled (fuel : nat) (s : state) (w : world) :
  disabled s = true -> disabled (final (maintain_strategy cfg fuel s w)) = true.
Proof.
  set (R := fun s s' : state => disabled s = true -> disabled s' = true).
  assert (refl : forall s, R s s) by (intros ? H; exact H).
  assert (trans : forall s1 s2 s3, R s1 s2 -> R s2 s3 -> R s1 s3)
    by (intros ? ? ? H1 H2 H; auto).
  assert (H : keeps R (maintain_strategy cfg fuel)).
  { unfold maintain_strategy.
    apply (keeps_bind _ trans); [apply (keeps_clock _ refl)|]. intros t.
    apply (keeps_bind _ trans); [apply (keeps_get _ refl)|]. intros s0.
    destruct (_ <? _); [apply (keeps_ret _ refl)|].
    apply (keeps_bind _ trans).
    - intros s1 w1. exact (proj2 (evaluation_steady fuel s0 s1 w1)).
    - intros _. apply (keeps_bind _ trans); [apply (keeps_clock _ refl)|]. intros t'.
      apply keeps_modify. intros s1 Hd. exact Hd. }
  apply H.
Qed.

Lemma emits_weaken {A} (P Q : event -> Prop) (m : M A) :
  (forall ev, P ev -> Q ev) -> emits_only P m -> emits_only Q m.
Proof. intros HPQ Hm s w ev Hin. apply HPQ. eapply Hm; exact Hin. Qed.

(** [get_top_prices] only reads the exchange and only assigns the reference
    prices and the orders to beat: all it emits are the debug lines of its
    two scans, one for each side of which it takes an order; it requests
    nothing of the exchange, and it leaves the tracked orders, the beaten
    orders, [last_check] and [disabled] as they were. *)
Theorem get_top_prices_only_references (s : state) (w : world) :
  events (get_top_prices cfg s w) = top_prices_log cfg w /\
  (forall ev, In ev (events (get_top_prices cfg s w)) -> is_debug ev = true) /\
  same_tracking s (final (get_top_prices cfg s w)).
Proof.
  split; [|split].
  - rewrite get_top_prices_run; reflexivity.
  - intros ev. apply get_top_prices_logs_only.
  - apply get_top_prices_same_tracking.
Qed.

Lemma scan_takes_first (t : side) (s : state) (w : world) (o : Order) :
  qualifying cfg t w = Some o ->
  top_price t (final (get_top_prices cfg s w)) = clamp cfg t (price o) /\
  order_to_beat t (final (get_top_prices cfg s w)) = Some (order_id o) /\
  within_bound cfg t (top_price t (final (get_top_prices cfg s w))) = true.
Proof.
  intros Hq. rewrite get_top_prices_run. cbn [final].
  destruct t; cbn [qualifying top_price order_to_beat clamp within_bound] in *.
  - unfold after_buy_scan. rewrite Hq. cbn.
    destruct (gtb (price o) (upper_bound cfg)) eqn:Hc; cbn;
      repeat split; auto using leb_refl, gtb_false_leb.
  - destruct (after_buy_scan_sell_side cfg (buy_threshold cfg w)
                (filter_buy_orders (book_seen w))
                (after_sell_scan cfg (sell_threshold cfg w)
                   (filter_sell_orders (book_seen w)) s)) as [-> ->].
    unfold after_sell_scan. rewrite Hq. cbn.
    destruct (ltb (price o) (lower_bound cfg)) eqn:Hc; cbn;
      repeat split; auto using ltb_false_geb.
    apply leb_refl.
Qed.

(** When the snapshot has a foreign order of the side larger than the size
    threshold, [get_top_prices] takes the first such order: its id becomes
    the order to beat, and the reference price is its price brought within
    the bound of the side ([upper_bound] for a buy, [lower_bound] for a
    sell), so the new reference price is never beyond the bound. *)
Theorem get_top_prices_takes_first (t : side) (s : state) (w : world) (o : Order) :
  qualifying cfg t w = Some o ->
  top_price t (final (get_top_prices cfg s w)) = clamp cfg t (price o) /\
  order_to_beat t (final (get_top_prices cfg s w)) = Some (order_id o) /\
  within_bound cfg t (top_price t (final (get_top_prices cfg s w))) = true.
Proof. apply scan_takes_first. Qed.

(** Provided the filter of the base class for the side returns orders under
    the ids of orders that it was given (the filter for the sell side
    inverts the orders, which leaves their ids), the order that
    [get_top_prices] takes as the order to beat is never one of the worker's
    own orders. *)
Theorem get_top_prices_skips_own_orders (t : side) (s : state) (w : world) (o : Order) :
  keeps_ids (filter_orders t) ->
  qualifying cfg t w = Some o ->
  order_to_beat t (final (get_top_prices cfg s w)) = Some (order_id o) /\
  ~ In (order_id o) (own_ids_seen w).
Proof.
  intros Hids Hq. split; [apply (scan_takes_first t s w o Hq)|].
  assert (Hin : In (order_id o) (map order_id (book_seen w))).
  { apply Hids. destruct t; cbn [qualifying filter_orders] in *;
      apply find_some in Hq as [Hin _]; exact Hin. }
  apply in_map_iff in Hin as (o' & Hid & Hin).
  unfold book_seen, foreign_orders in Hin. apply filter_In in Hin as [_ Hno].
  intros Hown. apply negb_true_iff in Hno.
  assert (Hex : existsb (String.eqb (order_id o')) (own_ids_seen w) = true).
  { apply existsb_exists. exists (order_id o). split; [exact Hown|].
    rewrite Hid. apply String.eqb_refl. }
  unfold own_ids_seen in Hex. congruence.
Qed.

(** The price of a quantized amount against one precision unit. *)
Lemma ltb_unit (c : Z) (p : nat) :
  ltb (mkDecimal c (- Z.of_nat p)) (unit_of (Z.of_nat p)) = (c <? 1).
Proof.
  unfold ltb, compare, unit_of; cbn [dint dexp].
  rewrite Z.min_id, Z.sub_diag. change (10 ^ 0) with 1. rewrite !Z.mul_1_r.
  unfold Z.ltb. reflexivity.
Qed.

(** For amounts that are quantized to the precisions of their assets, the
    dust check fails exactly when one of them is zero or negative: any
    positive quantized amount passes. *)
Theorem is_too_small_amounts_quantized (cq cb : Z) :
  is_too_small_amounts cfg (mkDecimal cq (- Z.of_nat (quote_precision cfg)))
                           (mkDecimal cb (- Z.of_nat (base_precision cfg)))
  = (cq <? 1) || (cb <? 1).
Proof. unfold is_too_small_amounts. now rewrite !ltb_unit. Qed.

(** The beaten order and the tracked orders change only when an order is
    submitted: a run that submits an order records the order to beat as the
    beaten order of the side, accepted or not, and a run that submits none
    leaves both as they were. *)
Theorem place_order_records_beaten (fuel : nat) (t : side) (s : state) (w : world) :
  ((exists amount p, In (placement t amount p) (events (place_order cfg fuel t s w))) ->
   beaten_order t (final (place_order cfg fuel t s w)) = order_to_beat t s) /\
  ((forall amount p, ~ In (placement t amount p) (events (place_order cfg fuel t s w))) ->
   beaten_order t (final (place_order cfg fuel t s w)) = beaten_order t s /\
   orders (final (place_order cfg fuel t s w)) = orders s).
Proof.
  destruct (place_order_cases cfg fuel t s w) as
    [_ _ Hev Hf|_ _ Hev Hf|_ _ Hev Hf|_ _ Hev Hf|? ? ? _ _ _ Hev Hf|? ? _ _ _ Hev Hf];
    rewrite Hev, Hf; split.
  all: try (intros (a & p & [Hin|[]]); destruct t; discriminate).
  all: try (intros (a & p & []); fail).
  all: try (intros _; destruct t; split; reflexivity).
  all: try (intros _; destruct t; reflexivity).
  all: try (intros Hno; exfalso; eapply Hno; left; reflexivity).
Qed.

Lemma place_order_emits (fuel : nat) (t : side) :
  emits_only (fun ev => is_cancel ev = false /\
                        forall amount p, ev <> placement (other_side t) amount p)
             (place_order cfg fuel t).
Proof. intros s w ev. apply place_order_never_cancels. Qed.

Lemma need_cancel_emits (t : side) (o : Order) :
  emits_only (fun ev => is_cancel ev = false /\ is_placement ev = false) (need_cancel cfg t o).
Proof.
  unfold need_cancel. repeat emits_step; try (apply emits_emit; split; reflexivity).
Qed.

(** What the check of one tracked order emits concerns its own side. *)
Lemma check_order_emits (fuel : nat) (t : side) (id : string) :
  emits_only (fun ev => forall amount p, ev <> placement (other_side t) amount p)
             (check_order cfg fuel (t, id)).
Proof.
  unfold check_order; cbn [fst snd].
  apply emits_bind; [apply emits_ext|]. intros [o|].
  - apply emits_bind.
    + eapply emits_weaken; [|apply need_cancel_emits].
      intros ev [_ Hp] a p ->. destruct t; discriminate.
    + intros [|]; [|apply emits_ret].
      apply emits_bind; [apply emits_emit; intros ? ?; destruct t; discriminate|]. intros _.
      apply emits_bind; [apply emits_ext|].
      intros [|]; [|apply emits_ret].
      eapply emits_weaken; [|apply place_order_emits]. intros ev [_ H]; exact H.
  - apply emits_bind; [apply emits_emit; intros ? ?; destruct t; discriminate|]. intros _.
    eapply emits_weaken; [|apply place_order_emits]. intros ev [_ H]; exact H.
Qed.

Lemma check_orders_untracked (fuel : nat) (t : side) (s : state) (w : world)
    (ev : event) :
  ~ In t (tracked_sides s) ->
  In ev (events (check_orders cfg fuel s w)) ->
  forall amount p, ev <> placement t amount p.
Proof.
  intros Hnot Hin.
  assert (Hloop : forall l, ~ In t (map fst l) ->
            emits_only (fun ev => forall amount p, ev <> placement t amount p)
                       (for_each (check_order cfg fuel) l)).
  { intros l Hl. apply emits_for_each. intros [t' id] Hx.
    assert (Ht : t = other_side t').
    { destruct t, t'; try reflexivity; exfalso; apply Hl;
        apply (in_map fst) in Hx; exact Hx. }
    rewrite Ht. apply check_order_emits. }
  unfold check_orders in Hin. rewrite bind_run, get_top_prices_run in Hin.
  cbn [result events final final_world] in Hin. rewrite events_prepend in Hin.
  apply in_app_or in Hin as [Hin|Hin].
  { apply top_prices_log_debug in Hin. intros a p ->. destruct t; discriminate. }
  rewrite bind_run in Hin. cbn in Hin. rewrite events_prepend in Hin.
  cbn [app] in Hin.
  eapply Hloop; [|exact Hin].
  destruct (scans_same_tracking (buy_threshold cfg w) (sell_threshold cfg w)
              (filter_buy_orders (book_seen w)) (filter_sell_orders (book_seen w)) s)
    as [Ho _].
  rewrite Ho. exact Hnot.
Qed.

(** [check_orders] places orders only for the sides it tracks: a side with
    no entry in [self.orders] gets no order from the check phase, whatever
    the mode. *)
Theorem check_orders_leaves_untracked_side (fuel : nat) (t : side) (s : state) (w : world)
    (ev : event) :
  ~ In t (tracked_sides s) ->
  In ev (events (check_orders cfg fuel s w)) ->
  forall amount p, ev <> placement t amount p.
Proof. apply check_orders_untracked. Qed.

(** In the modes ['buy'] and ['sell'], [place_orders] submits nothing for the
    other side; in any mode other than ['both'], ['buy'] and ['sell'] it runs
    as [get_top_prices] alone: it refreshes the reference prices, emits the
    debug lines of the scans and nothing else, and tracks nothing. *)
Theorem place_orders_by_mode (fuel : nat) (s : state) (w : world) :
  (mode cfg = "buy"%string ->
   forall ev, In ev (events (place_orders cfg fuel s w)) ->
              forall amount p, ev <> PlaceSell amount p) /\
  (mode cfg = "sell"%string ->
   forall ev, In ev (events (place_orders cfg fuel s w)) ->
              forall amount p, ev <> PlaceBuy amount p) /\
  (mode cfg <> "both"%string -> mode cfg <> "buy"%string -> mode cfg <> "sell"%string ->
   place_orders cfg fuel s w = get_top_prices cfg s w /\
   (forall ev, In ev (events (place_orders cfg fuel s w)) -> is_debug ev = true) /\
   same_tracking s (final (place_orders cfg fuel s w))).
Proof.
  assert (Hquiet : forall t, emits_only (fun ev => forall amount p, ev <> placement t amount p)
                                        (get_top_prices cfg)).
  { intros t. eapply emits_weaken; [|apply get_top_prices_logs_only].
    intros ev Hd a p ->. destruct t; discriminate. }
  split; [|split].
  - intros Hm ev Hin.
    assert (H : emits_only (fun ev => forall amount p, ev <> placement (other_side Buy) amount p)
                           (place_orders cfg fuel)).
    { unfold place_orders. rewrite Hm.
      change (String.eqb "buy" "both" || String.eqb "buy" "buy") with true.
      change (String.eqb "buy" "both" || String.eqb "buy" "sell") with false.
      cbv iota.
      apply emits_bind; [apply Hquiet|]. intros _.
      apply emits_bind; [|intros _; apply emits_ret].
      eapply emits_weaken; [|apply place_order_emits]. intros ? [_ H]; exact H. }
    exact (H s w ev Hin).
  - intros Hm ev Hin.
    assert (H : emits_only (fun ev => forall amount p, ev <> placement (other_side Sell) amount p)
                           (place_orders cfg fuel)).
    { unfold place_orders. rewrite Hm.
      change (String.eqb "sell" "both" || String.eqb "sell" "buy") with false.
      change (String.eqb "sell" "both" || String.eqb "sell" "sell") with true.
      cbv iota.
      apply emits_bind; [apply Hquiet|]. intros _.
      apply emits_bind; [apply emits_ret|]. intros _.
      eapply emits_weaken; [|apply place_order_emits]. intros ? [_ H]; exact H. }
    exact (H s w ev Hin).
  - intros H1 H2 H3.
    apply String.eqb_neq in H1, H2, H3.
    assert (Heq : place_orders cfg fuel s w = get_top_prices cfg s w).
    { unfold place_orders. rewrite H1, H2, H3. cbn [orb].
      rewrite bind_run, get_top_prices_run. cbn. now rewrite app_nil_r. }
    rewrite Heq. split; [reflexivity|]. split.
    + intros ev. apply get_top_prices_logs_only.
    + apply get_top_prices_same_tracking.
Qed.

(** A tracked order that is on the book, is not partially filled, whose
    beaten order is still on the book and which no better foreign price has
    appeared against, is left alone: nothing is logged, cancelled or placed
    and the strategy state is as before. *)
Theorem check_order_leaves_live_order (fuel : nat) (t : side) (id : string)
    (s : state) (w : world) (o : Order) :
  fst (get_order (Some id) w) = Some o ->
  is_partially_filled o (partial_fill_threshold cfg) = false ->
  fst (get_order (beaten_order t s) (snd (get_order (Some id) w))) <> None ->
  is_zero (price o) = false ->
  outbid t s o = false ->
  check_order cfg fuel (t, id) s w
  = mkRun (Ret tt) s (snd (get_order (beaten_order t s) (snd (get_order (Some id) w)))) [].
Proof.
  intros Hlive Hpf Hb Hz Hout. unfold check_order, need_cancel; cbn.
  rewrite Hlive; cbn. rewrite Hpf; cbn.
  destruct t; cbn [beaten_order outbid] in *; cbn.
  - destruct (fst (get_order (beaten_buy_order s) (snd (get_order (Some id) w))));
      [|contradiction]; cbn. rewrite Hout. reflexivity.
  - destruct (fst (get_order (beaten_sell_order s) (snd (get_order (Some id) w))));
      [|contradiction]; cbn. rewrite Hz; cbn. rewrite Hout. reflexivity.
Qed.

Lemma need_cancel_beaten (t : side) (s : state) (w1 : world) (o : Order) :
  is_partially_filled o (partial_fill_threshold cfg) = false ->
  is_zero (price o) = false ->
  fst (get_order (beaten_order t s) w1) = None \/ outbid t s o = true ->
  need_cancel cfg t o s w1
  = mkRun (Ret true) s (snd (get_order (beaten_order t s) w1))
          [LogDebug (cancel_reason t s w1)].
Proof.
  intros Hpf Hz Hwhy. unfold need_cancel, cancel_reason. rewrite Hpf. cbn.
  destruct t; cbn [beaten_order outbid] in *; cbn.
  - destruct (fst (get_order (beaten_buy_order s) w1)); cbn; [|reflexivity].
    destruct Hwhy as [Hwhy|Hwhy]; [discriminate|]. now rewrite Hwhy.
  - destruct (fst (get_order (beaten_sell_order s) w1)); cbn; [|reflexivity].
    destruct Hwhy as [Hwhy|Hwhy]; [discriminate|]. rewrite Hz; cbn. now rewrite Hwhy.
Qed.

(** A tracked order that is on the book and not partially filled is
    cancelled when its beaten order has left the book or a better foreign
    price has appeared: the reason goes to the debug log, the cancellation
    is the first thing requested, and without it succeeding nothing is
    placed. *)
Theorem check_order_cancels_beaten_order (fuel : nat) (t : side) (id : string)
    (s : state) (w : world) (o : Order) :
  fst (get_order (Some id) w) = Some o ->
  is_partially_filled o (partial_fill_threshold cfg) = false ->
  is_zero (price o) = false ->
  fst (get_order (beaten_order t s) (snd (get_order (Some id) w))) = None \/
  outbid t s o = true ->
  let w1 := snd (get_order (Some id) w) in
  let w2 := snd (get_order (beaten_order t s) w1) in
  let asked := [LogDebug (cancel_reason t s w1); CancelOrder (order_id o)] in
  check_order cfg fuel (t, id) s w
  = if fst (cancel_orders o w2)
    then prepend asked (place_order cfg fuel t s (snd (cancel_orders o w2)))
    else mkRun (Ret tt) s (snd (cancel_orders o w2)) asked.
Proof.
  intros Hlive Hpf Hz Hwhy w1 w2 asked. unfold check_order; cbn [fst snd].
  rewrite bind_run. cbn [ext result final final_world events]. rewrite Hlive.
  rewrite bind_run, (need_cancel_beaten t s _ o Hpf Hz Hwhy).
  cbn [result final final_world events]. fold w1. fold w2.
  rewrite bind_run. cbn [emit result final final_world events].
  rewrite bind_run. cbn [ext result final final_world events].
  destruct (fst (cancel_orders o w2)).
  - now rewrite !prepend_prepend.
  - reflexivity.
Qed.

(** The price that the buy loop returns is the quotient of the base amount
    by the quote amount that it returns. *)
Lemma buy_loop_price (fuel : nat) :
  forall top a_base a_quote p a_quote' p',
    div a_base a_quote = inr p ->
    buy_loop cfg fuel top a_base a_quote p = Ret (a_quote', p') ->
    div a_base a_quote' = inr p'.
Proof.
  induction fuel as [|f IH]; intros top ab aq p aq' p' Hp; cbn [buy_loop].
  - destruct (leb p top); [discriminate|]. intros [= <- <-]. exact Hp.
  - destruct (leb p top).
    + destruct (div ab (sub aq _)) as [sg|p1] eqn:Hd; [discriminate|].
      apply IH. exact Hd.
    + intros [= <- <-]. exact Hp.
Qed.

(** What the arithmetic of [place_order] arrives at comes from the
    configured amount. *)
Lemma prepare_amounts (fuel : nat) (t : side) (top configured a_quote a_base p : Decimal) :
  prepare cfg fuel t top configured = Ret (Amounts a_quote a_base p) ->
  exists q,
    quantize configured (- Z.of_nat (amount_precision cfg t)) = inr q /\
    is_zero q = false /\
    match t with
    | Sell => a_quote = q
    | Buy => div q a_quote = inr p \/ (p = upper_bound cfg /\ div q p = inr a_quote)
    end.
Proof.
  destruct t; unfold prepare, amount_precision.
  - destruct (quantize _ _) as [sg|ab]; [discriminate|].
    destruct (is_zero ab) eqn:Hz; [discriminate|].
    destruct (div ab _) as [sg|q]; [discriminate|].
    destruct (quantize q _) as [sg|aq]; [discriminate|].
    destruct (div ab aq) as [sg|p0] eqn:Hp0; [discriminate|].
    destruct (buy_loop _ _ _ _ _ _) as [[aq' p']| |] eqn:Hloop; try discriminate.
    pose proof (buy_loop_price _ _ _ _ _ _ _ Hp0 Hloop) as Hp'.
    destruct (gtb p' (upper_bound cfg)).
    + destruct (div ab (upper_bound cfg)) as [sg|aq''] eqn:Hd; [discriminate|].
      intros [= <- _ <-]. exists ab. auto.
    + intros [= <- _ <-]. exists ab. auto.
  - destruct (quantize _ _) as [sg|aq]; [discriminate|].
    destruct (is_zero aq) eqn:Hz; [discriminate|].
    destruct (quantize (mul _ _) _) as [sg|ab]; [discriminate|].
    destruct (div ab aq) as [sg|p0]; [discriminate|].
    destruct (sell_loop _ _ _ _ _ _) as [[ab' p']| |]; try discriminate.
    intros [= <- _ _]. exists aq. auto.
Qed.

(** What [place_order] submits comes from the configured amount.  The
    amount and the price of every submitted order are the conversions to
    [float] of an amount and a price of which the following holds.  The
    amount is at least one precision unit of the quote asset.  A sell order
    is for the configured quote amount, rounded to the quote precision: the
    loop and the bound change its price only.  A buy order spends the
    configured base amount, rounded to the base precision: its price is that
    amount divided by the submitted amount, or, at the upper bound, its
    amount is that amount divided by the bound. *)
Theorem place_order_submits_configured_amount (fuel : nat) (t : side) (s : state)
    (w : world) (amount p : Decimal) :
  In (placement t amount p) (events (place_order cfg fuel t s w)) ->
  exists a p',
    amount = to_binary64 a /\ p = to_binary64 p' /\
    ltb a (unit_of (Z.of_nat (quote_precision cfg))) = false /\
    exists q,
      quantize (configured_amount cfg t w) (- Z.of_nat (amount_precision cfg t)) = inr q /\
      is_zero q = false /\
      match t with
      | Sell => a = q
      | Buy => div q a = inr p' \/ (p' = upper_bound cfg /\ div q p' = inr a)
      end.
Proof.
  rewrite place_order_in_stages. unfold place_order_staged.
  destruct (is_zero (top_price t s)).
  { intros [Hin|[]]. destruct t; discriminate. }
  destruct (prepare _ _ _ _ _) as [[|a_quote a_base p']| |] eqn:Hp.
  - intros [Hin|[]]. destruct t; discriminate.
  - destruct (is_too_small_amounts cfg a_quote a_base) eqn:Hdust.
    { intros [Hin|[]]. destruct t; discriminate. }
    cbv zeta. intros Hin.
    assert (Heq : placement t amount p = placement t (to_binary64 a_quote) (to_binary64 p')).
    { destruct (fst (submit _ _ _ _)); cbn [events In] in Hin;
        repeat (destruct Hin as [Hin|Hin]); try contradiction;
        first [now symmetry | destruct t; discriminate]. }
    exists a_quote, p'.
    assert (amount = to_binary64 a_quote /\ p = to_binary64 p') as [-> ->]
      by (destruct t; injection Heq; auto).
    split; [reflexivity|]. split; [reflexivity|]. split.
    + apply orb_false_elim in Hdust. exact (proj1 Hdust).
    + exact (prepare_amounts _ _ _ _ _ _ _ Hp).
  - intros [].
  - intros [].
Qed.

Lemma buy_loop_ends (top a_base : Decimal) (fuel : nat) :
  dint a_base <> 0 ->
  forall c p,
    0 < c -> c < 10 ^ prec -> c <= Z.of_nat fuel ->
    (exists a_quote' p',
        buy_loop cfg fuel top a_base (mkDecimal c (- Z.of_nat (quote_precision cfg))) p
        = Ret (a_quote', p') /\ leb p' top = false) \/
    buy_loop cfg fuel top a_base (mkDecimal c (- Z.of_nat (quote_precision cfg))) p
    = Raise (DecimalSignal DivisionByZero).
Proof.
  intros Hab. induction fuel as [|f IH]; intros c p Hc Hd Hf; [lia|].
  cbn [buy_loop]. destruct (leb p top) eqn:Hle; [|left; eauto].
  rewrite sub_unit by lia.
  destruct (Z.eq_dec c 1) as [->|Hc1].
  - rewrite div_by_zero by (cbn; auto). now right.
  - destruct (div_defined a_base (mkDecimal (c - 1) (- Z.of_nat (quote_precision cfg))))
      as [q Hq]; [cbn; lia|].
    rewrite Hq. apply IH; lia.
Qed.

(** The buy loop, started from a positive quantized quote amount and a
    non-zero base amount, ends within as many iterations as the quote amount
    has precision units, and it ends in one of two ways: it leaves the loop
    with a price above the reference price, or the division by the exhausted
    amount raises [DivisionByZero]. *)
Theorem buy_loop_exits_or_divides_by_zero (top a_base x a_quote p : Decimal) (fuel : nat) :
  quantize x (- Z.of_nat (quote_precision cfg)) = inr a_quote ->
  0 < dint a_quote ->
  dint a_base <> 0 ->
  dint a_quote <= Z.of_nat fuel ->
  (exists a_quote' p',
      buy_loop cfg fuel top a_base a_quote p = Ret (a_quote', p') /\ leb p' top = false) \/
  buy_loop cfg fuel top a_base a_quote p = Raise (DecimalSignal DivisionByZero).
Proof.
  intros Hq Hpos Hab Hf. destruct (quantize_inr _ _ _ Hq) as [He Hd].
  destruct a_quote as [c e]; cbn [dint dexp] in *. subst e.
  apply buy_loop_ends; auto.
  apply ndigits_le_iff in Hd; [lia|unfold prec; lia].
Qed.

(** With a positive reference price the sell loop always leaves the loop,
    within one iteration more than the starting base amount has precision
    units: it raises nothing, and the price it returns is below the
    reference price. *)
Theorem sell_loop_always_exits (top a_quote x a_base p : Decimal) (fuel : nat) :
  quantize x (- Z.of_nat (base_precision cfg)) = inr a_base ->
  0 <= dint a_base ->
  0 < dint top ->
  dint a_quote <> 0 ->
  div a_base a_quote = inr p ->
  dint a_base < Z.of_nat fuel ->
  exists a_base' p',
    sell_loop cfg fuel top a_quote a_base p = Ret (a_base', p') /\ ltb p' top = true.
Proof.
  intros Hq Hpos Ht Haq Hp Hf.
  destruct (sell_loop_bounded cfg top a_quote x a_base p fuel Hq Hpos Ht Haq Hp Hf)
    as [[ab' p'] Hr].
  exists ab', p'. split; [exact Hr|].
  apply geb_false_ltb. eapply sell_loop_exit; exact Hr.
Qed.

(** A tick evaluates the strategy only on every fourth count and only when
    the minimum interval has elapsed: any other tick counts and does nothing
    else. *)
Theorem tick_is_inert (fuel : nat) (counter : Z) (s : state) (w : world) :
  counter mod 4 <> 0 \/ now w - last_check s < timedelta_seconds (min_check_interval cfg) ->
  tick cfg fuel counter s w = mkRun (Ret (counter + 1)) s w [].
Proof.
  intros Hwhy. unfold tick.
  destruct (Z.eqb_spec (counter mod 4) 0) as [Hz|Hnz]; [|reflexivity].
  destruct Hwhy as [Hwhy|Hwhy]; [contradiction|].
  unfold maintain_strategy; cbn. apply Z.ltb_lt in Hwhy. rewrite Hwhy. reflexivity.
Qed.

(** A tick that evaluates the strategy advances the counter only when the
    evaluation returns: when it raises, the tick raises and the counter is
    not assigned, so the next tick evaluates again. *)
Theorem tick_counts_completed_evaluations (fuel : nat) (counter : Z) (s : state) (w : world) :
  counter mod 4 = 0 ->
  match result (maintain_strategy cfg fuel s w) with
  | Ret _ => result (tick cfg fuel counter s w) = Ret (counter + 1)
  | Raise e => result (tick cfg fuel counter s w) = Raise e
  | OutOfFuel => result (tick cfg fuel counter s w) = OutOfFuel
  end /\
  final (tick cfg fuel counter s w) = final (maintain_strategy cfg fuel s w) /\
  events (tick cfg fuel counter s w) = events (maintain_strategy cfg fuel s w).
Proof.
  intros Hz. unfold tick. rewrite Hz. change (0 =? 0) with true. cbv iota.
  rewrite bind_run.
  destruct (maintain_strategy cfg fuel s w) as [[[]| |] s' w' evs]; cbn;
    rewrite ?app_nil_r; auto.
Qed.

(** While an order is tracked, an evaluation runs the check phase only, so
    it places nothing for a side that has no tracked order: a side whose
    first placement failed is not tried again as long as the order of the
    other side is tracked. *)
Theorem maintain_strategy_leaves_untracked_side (fuel : nat) (t : side) (s : state)
    (w : world) (ev : event) :
  orders s <> [] ->
  ~ In t (tracked_sides s) ->
  In ev (events (maintain_strategy cfg fuel s w)) ->
  forall amount p, ev <> placement t amount p.
Proof.
  intros Hne Hnot Hin.
  unfold maintain_strategy in Hin. rewrite bind_run in Hin.
  cbn [clock result final final_world events] in Hin. rewrite prepend_nil in Hin.
  rewrite bind_run in Hin. cbn [get result final final_world events] in Hin.
  rewrite prepend_nil in Hin.
  destruct (_ <? _); [destruct Hin|].
  destruct (orders s) as [|x l] eqn:Ho; [contradiction|].
  rewrite bind_run in Hin.
  pose proof (check_orders_untracked fuel t s w) as Hcheck.
  destruct (check_orders cfg fuel s w) as [[[]| |] s' w' evs]; cbn in Hin, Hcheck;
    rewrite ?app_nil_r in Hin; now apply Hcheck.
Qed.

End Frames.

(** *** The further properties at work on the small exchange *)
Import Toy Scenarios MoreScenarios.
#[local] Open Scope string_scope.

Lemma maintain_strategy_last_check_witness :
  timedelta_seconds (min_check_interval (buyer (of_Z 1000)))
    <= now (book true) - last_check tracking /\
  result (maintain_strategy (buyer (of_Z 1000)) 10 tracking (book true)) = Ret tt /\
  last_check (final (maintain_strategy (buyer (of_Z 1000)) 10 tracking (book true)))
  = now (final_world (maintain_strategy (buyer (of_Z 1000)) 10 tracking (book true))).
Proof.
  assert (H1 : timedelta_seconds (min_check_interval (buyer (of_Z 1000)))
               <= now (book true) - last_check tracking)
    by (vm_compute; discriminate).
  assert (H2 : result (maintain_strategy (buyer (of_Z 1000)) 10 tracking (book true)) = Ret tt)
    by (vm_compute; reflexivity).
  split; [exact H1|]. split; [exact H2|].
  exact (proj1 (maintain_strategy_last_check (E := toy_exchange) (buyer (of_Z 1000)) 10
                  tracking (book true)) H1 H2).
Defined.

Lemma maintain_strategy_stays_disabled_witness :
  disabled (set_disabled true tracking) = true /\
  disabled (final (maintain_strategy (buyer (of_Z 1000)) 10 (set_disabled true tracking)
                     (book true))) = true.
Proof.
  split; [reflexivity|].
  apply (maintain_strategy_stays_disabled (E := toy_exchange) (buyer (of_Z 1000)) 10).
  reflexivity.
Defined.

Lemma get_top_prices_takes_first_witness :
  qualifying (buyer (of_Z 1000)) Buy high_book = Some high_buy /\
  top_price Buy (final (get_top_prices (buyer (of_Z 1000)) init_state high_book)) = of_Z 1000.
Proof.
  assert (H : qualifying (buyer (of_Z 1000)) Buy high_book = Some high_buy)
    by (vm_compute; reflexivity).
  split; [exact H|].
  exact (proj1 (get_top_prices_takes_first (E := toy_exchange) (buyer (of_Z 1000)) Buy
                  init_state high_book high_buy H)).
Defined.

(** The filters of the small exchange return orders under the ids of orders
    that they were given. *)
Lemma toy_filters_keep_ids (t : side) : keeps_ids (filter_orders (E := toy_exchange) t).
Proof.
  intros l o Hin. destruct t; cbn in Hin.
  - apply filter_In in Hin as [Hin _]. now apply in_map.
  - apply in_map_iff in Hin as (o' & <- & Hin).
    apply filter_In in Hin as [Hin _]. now apply (in_map order_id) in Hin.
Qed.

Lemma get_top_prices_skips_own_orders_witness :
  qualifying (buyer (of_Z 1000)) Sell book_with_own_sell = Some (invert foreign_sell) /\
  own_ids_seen book_with_own_sell = ["sell-1.7.8"] /\
  ~ In (order_id (invert foreign_sell)) (own_ids_seen book_with_own_sell).
Proof.
  assert (H : qualifying (buyer (of_Z 1000)) Sell book_with_own_sell
              = Some (invert foreign_sell))
    by (vm_compute; reflexivity).
  split; [exact H|]. split; [reflexivity|].
  exact (proj2 (get_top_prices_skips_own_orders (E := toy_exchange) (buyer (of_Z 1000)) Sell
                  init_state book_with_own_sell (invert foreign_sell)
                  (toy_filters_keep_ids Sell) H)).
Defined.

Lemma place_order_records_beaten_witness :
  (exists amount p,
      In (placement Buy amount p)
         (events (place_order (buyer (of_Z 1000)) 10 Buy
                    (set_buy_order_to_beat (Some "buy-1.7.2") (with_top_prices (of_Z 100)))
                    quiet_world))) /\
  beaten_order Buy
    (final (place_order (buyer (of_Z 1000)) 10 Buy
              (set_buy_order_to_beat (Some "buy-1.7.2") (with_top_prices (of_Z 100)))
              quiet_world))
  = Some "buy-1.7.2".
Proof.
  assert (H : exists amount p,
      In (placement Buy amount p)
         (events (place_order (buyer (of_Z 1000)) 10 Buy
                    (set_buy_order_to_beat (Some "buy-1.7.2") (with_top_prices (of_Z 100)))
                    quiet_world))).
  { exists (to_binary64 (mkDecimal 49999999 (-8))),
           (to_binary64 (mkDecimal 1000000020000000400000008000 (-25))).
    vm_compute. left; reflexivity. }
  split; [exact H|].
  exact (proj1 (place_order_records_beaten (E := toy_exchange) (buyer (of_Z 1000)) 10 Buy
                  (set_buy_order_to_beat (Some "buy-1.7.2") (with_top_prices (of_Z 100)))
                  quiet_world) H).
Defined.

Lemma check_orders_leaves_untracked_side_witness :
  ~ In Sell (tracked_sides tracking) /\
  CancelOrder "1.7.1" <> placement Sell (of_Z 1) (of_Z 1).
Proof.
  assert (H : ~ In Sell (tracked_sides tracking)).
  { vm_compute. intros [H|[]]. discriminate. }
  split; [exact H|].
  apply (check_orders_leaves_untracked_side (E := toy_exchange) (buyer (of_Z 1000)) 10 Sell
           tracking (book true) (CancelOrder "1.7.1") H).
  vm_compute. right; right; left; reflexivity.
Defined.

Lemma place_orders_by_mode_witness :
  mode (one_sided "buy") = "buy" /\
  In (PlaceBuy (to_binary64 (mkDecimal 49999999 (-8)))
               (to_binary64 (mkDecimal 1000000020000000400000008000 (-25))))
     (events (place_orders (one_sided "buy") 10 init_state two_sided_book)) /\
  PlaceBuy (to_binary64 (mkDecimal 49999999 (-8)))
           (to_binary64 (mkDecimal 1000000020000000400000008000 (-25)))
  <> PlaceSell (of_Z 1) (of_Z 1).
Proof.
  assert (H : In (PlaceBuy (to_binary64 (mkDecimal 49999999 (-8)))
                           (to_binary64 (mkDecimal 1000000020000000400000008000 (-25))))
                 (events (place_orders (one_sided "buy") 10 init_state two_sided_book)))
    by (vm_compute; right; right; left; reflexivity).
  split; [reflexivity|]. split; [exact H|].
  exact (proj1 (place_orders_by_mode (E := toy_exchange) (one_sided "buy") 10 init_state
                  two_sided_book) eq_refl _ H (of_Z 1) (of_Z 1)).
Defined.

Lemma check_order_leaves_live_order_witness :
  fst (get_order (Some "1.7.6") resting_book) = Some resting_order /\
  is_partially_filled resting_order (partial_fill_threshold (buyer (of_Z 1000))) = false /\
  outbid Buy resting resting_order = false /\
  events (check_order (buyer (of_Z 1000)) 10 (Buy, "1.7.6") resting resting_book) = [].
Proof.
  split; [vm_compute; reflexivity|]. split; [vm_compute; reflexivity|].
  split; [vm_compute; reflexivity|].
  rewrite (check_order_leaves_live_order (E := toy_exchange) (buyer (of_Z 1000)) 10 Buy
             "1.7.6" resting resting_book resting_order).
  - reflexivity.
  - vm_compute; reflexivity.
  - vm_compute; reflexivity.
  - vm_compute; discriminate.
  - vm_compute; reflexivity.
  - vm_compute; reflexivity.
Defined.

Lemma check_order_cancels_beaten_order_witness :
  fst (get_order (beaten_order Buy resting)
         (snd (get_order (Some "1.7.6") resting_book_without_beaten))) = None /\
  events (check_order (buyer (of_Z 1000)) 10 (Buy, "1.7.6") resting
            resting_book_without_beaten)
  = [LogDebug (NoBeatenOrder Buy); CancelOrder "1.7.6";
     PlaceBuy (to_binary64 (mkDecimal 49999999 (-8)))
              (to_binary64 (mkDecimal 1000000020000000400000008000 (-25)))].
Proof.
  assert (H : fst (get_order (beaten_order Buy resting)
                     (snd (get_order (Some "1.7.6") resting_book_without_beaten))) = None)
    by (vm_compute; reflexivity).
  split; [exact H|].
  rewrite (check_order_cancels_beaten_order (E := toy_exchange) (buyer (of_Z 1000)) 10 Buy
             "1.7.6" resting resting_book_without_beaten resting_order).
  - vm_compute; reflexivity.
  - vm_compute; reflexivity.
  - vm_compute; reflexivity.
  - vm_compute; reflexivity.
  - left; exact H.
Defined.

Lemma place_order_submits_configured_amount_witness :
  In (placement Sell (to_binary64 (mkDecimal 5000000000 (-8)))
                     (to_binary64 (mkDecimal 999999999998 (-10))))
     (events (place_order (buyer (of_Z 1000)) 10 Sell (with_top_prices (of_Z 100))
                quiet_world)) /\
  exists a p',
    to_binary64 (mkDecimal 5000000000 (-8)) = to_binary64 a /\
    to_binary64 (mkDecimal 999999999998 (-10)) = to_binary64 p' /\
    ltb a (unit_of (Z.of_nat (quote_precision (buyer (of_Z 1000))))) = false.
Proof.
  assert (H : In (placement Sell (to_binary64 (mkDecimal 5000000000 (-8)))
                                 (to_binary64 (mkDecimal 999999999998 (-10))))
                 (events (place_order (buyer (of_Z 1000)) 10 Sell
                            (with_top_prices (of_Z 100)) quiet_world)))
    by (vm_compute; left; reflexivity).
  split; [exact H|].
  destruct (place_order_submits_configured_amount (E := toy_exchange)
              (buyer (of_Z 1000)) 10 Sell (with_top_prices (of_Z 100)) quiet_world
              _ _ H) as (a & p' & Ha & Hp & Hunit & _).
  exists a, p'. exact (conj Ha (conj Hp Hunit)).
Defined.

Lemma buy_loop_exits_or_divides_by_zero_witness :
  (exists a_quote' p',
      buy_loop small_buyer 1 (of_Z 100) (mkDecimal 100 (-2)) (mkDecimal 1 (-2)) (of_Z 100)
      = Ret (a_quote', p') /\ leb p' (of_Z 100) = false) \/
  buy_loop small_buyer 1 (of_Z 100) (mkDecimal 100 (-2)) (mkDecimal 1 (-2)) (of_Z 100)
  = Raise (DecimalSignal DivisionByZero).
Proof.
  apply (buy_loop_exits_or_divides_by_zero small_buyer (of_Z 100)
           (mkDecimal 100 (-2)) (mkDecimal 1 (-2)) (mkDecimal 1 (-2)) (of_Z 100) 1).
  - vm_compute; reflexivity.
  - vm_compute; reflexivity.
  - vm_compute; discriminate.
  - vm_compute; discriminate.
Defined.

Lemma sell_loop_always_exits_witness :
  exists a_base' p',
    sell_loop small_seller 2 two_to_minus_14 (mkDecimal 10000 (-4)) (mkDecimal 1 (-4))
              (mkDecimal 1 (-4))
    = Ret (a_base', p') /\ ltb p' two_to_minus_14 = true.
Proof.
  apply (sell_loop_always_exits small_seller two_to_minus_14
           (mkDecimal 10000 (-4)) (mkDecimal 1 (-4)) (mkDecimal 1 (-4)) (mkDecimal 1 (-4)) 2).
  - vm_compute; reflexivity.
  - vm_compute; discriminate.
  - vm_compute; reflexivity.
  - vm_compute; discriminate.
  - vm_compute; reflexivity.
  - vm_compute; reflexivity.
Defined.

Lemma maintain_strategy_leaves_untracked_side_witness :
  orders tracking <> [] /\
  ~ In Sell (tracked_sides tracking) /\
  CancelOrder "1.7.1" <> placement Sell (of_Z 1) (of_Z 1).
Proof.
  assert (H1 : orders tracking <> []) by (vm_compute; discriminate).
  assert (H2 : ~ In Sell (tracked_sides tracking)).
  { vm_compute. intros [H|[]]. discriminate. }
  split; [exact H1|]. split; [exact H2|].
  apply (maintain_strategy_leaves_untracked_side (E := toy_exchange) (buyer (of_Z 1000)) 10
           Sell tracking (book true) (CancelOrder "1.7.1") H1 H2).
  vm_compute. right; right; left; reflexivity.
Defined.

Lemma tick_is_inert_witness :
  1 mod 4 <> 0 /\
  events (tick (buyer (of_Z 1000)) 10 1 tracking (book true)) = [].
Proof.
  split; [vm_compute; discriminate|].
  rewrite (tick_is_inert (E := toy_exchange) (buyer (of_Z 1000)) 10 1 tracking (book true)).
  - reflexivity.
  - left. vm_compute; discriminate.
Defined.

Lemma tick_counts_completed_evaluations_witness :
  4 mod 4 = 0 /\
  events (tick small_buyer 10 4 init_state (book true))
  = events (maintain_strategy small_buyer 10 init_state (book true)).
Proof.
  split; [reflexivity|].
  apply (tick_counts_completed_evaluations (E := toy_exchange) small_buyer 10 4 init_state
           (book true)).
  reflexivity.
Defined.

End KothExtFacts.

(** ** More facts about the Staggered Orders boundary check *)
Module StaggeredMoreFacts.
Import Dec DecFacts Staggered.

Lemma leb_trans (a b c : Decimal) : leb a b = true -> leb b c = true -> leb a c = true.
Proof.
  set (m := Z.min (dexp a) (Z.min (dexp b) (dexp c))).
  rewrite (leb_iff a b m), (leb_iff b c m), (leb_iff a c m) by (unfold m; lia). lia.
Qed.

(** The boundary check only widens the range: [upper_bound] is never
    lowered and [lower_bound] is never raised, whatever the centre price and
    the bounds. *)
Theorem check_boundaries_never_narrows (c : Decimal) (s : state) :
  leb (upper_bound s) (upper_bound (check_boundaries c s)) = true /\
  leb (lower_bound (check_boundaries c s)) (lower_bound s) = true.
Proof.
  unfold check_boundaries.
  destruct (gtb c (upper_bound s)) eqn:Hup; cbn [upper_bound lower_bound].
  - split; [apply ltb_leb; exact Hup|apply leb_refl].
  - destruct (ltb c (lower_bound s)) eqn:Hlow; cbn [upper_bound lower_bound];
      split; auto using leb_refl, ltb_leb.
Qed.

(** With [lower_bound] not above [upper_bound], the check keeps it so, and a
    second check against the same centre price changes nothing. *)
Theorem check_boundaries_keeps_order (c : Decimal) (s : state) :
  leb (lower_bound s) (upper_bound s) = true ->
  leb (lower_bound (check_boundaries c s)) (upper_bound (check_boundaries c s)) = true /\
  check_boundaries c (check_boundaries c s) = check_boundaries c s.
Proof.
  intros Hinv.
  destruct (gtb c (upper_bound s)) eqn:Hup.
  - assert (Hs : check_boundaries c s = mkState c (lower_bound s))
      by (unfold check_boundaries; now rewrite Hup).
    rewrite Hs. cbn [upper_bound lower_bound].
    assert (Hlc : ltb (lower_bound s) c = true) by (eapply leb_ltb_trans; eassumption).
    split; [now apply ltb_leb|].
    unfold check_boundaries; cbn [upper_bound lower_bound].
    unfold gtb. rewrite ltb_irrefl.
    destruct (ltb c (lower_bound s)) eqn:Hcl; [|reflexivity].
    pose proof (leb_ltb_trans _ _ _ (ltb_leb _ _ Hlc) Hcl) as H.
    rewrite ltb_irrefl in H. discriminate.
  - destruct (ltb c (lower_bound s)) eqn:Hlow.
    + assert (Hs : check_boundaries c s = mkState (upper_bound s) c)
        by (unfold check_boundaries; now rewrite Hup, Hlow).
      rewrite Hs. cbn [upper_bound lower_bound].
      split; [apply ltb_leb; eapply ltb_leb_trans; eassumption|].
      unfold check_boundaries; cbn [upper_bound lower_bound].
      rewrite Hup, ltb_irrefl. reflexivity.
    + assert (Hs : check_boundaries c s = s)
        by (unfold check_boundaries; now rewrite Hup, Hlow).
      rewrite !Hs. split; [exact Hinv|reflexivity].
Qed.

Lemma check_boundaries_keeps_order_witness :
  leb (lower_bound (mkState (of_Z 4) (of_Z 1))) (upper_bound (mkState (of_Z 4) (of_Z 1))) = true /\
  check_boundaries (of_Z 5) (check_boundaries (of_Z 5) (mkState (of_Z 4) (of_Z 1)))
  = check_boundaries (of_Z 5) (mkState (of_Z 4) (of_Z 1)).
Proof.
  split; [reflexivity|].
  apply (check_boundaries_keeps_order (of_Z 5) (mkState (of_Z 4) (of_Z 1))).
  reflexivity.
Defined.

(** With the bounds the wrong way round the second check does change the
    state: both bounds end at the centre price. *)
Example check_boundaries_reversed_twice :
  check_boundaries (of_Z 5) (check_boundaries (of_Z 5) (mkState (of_Z 1) (of_Z 1000)))
  = mkState (of_Z 5) (of_Z 5).
Proof. reflexivity. Qed.

(** [maintain_strategy] needs an order on each side: with no buy order or no
    sell order it raises [IndexError] before the boundary check, so the
    bounds are not touched; with both lists non-empty it gets to the check. *)
Theorem maintain_strategy_needs_orders (c : Decimal) (buys sells : list Decimal) (s : state) :
  (buys = [] \/ sells = [] -> maintain_strategy c buys sells s = inl IndexError) /\
  (buys <> [] -> sells <> [] ->
   maintain_strategy c buys sells s = inr (check_boundaries c s)).
Proof.
  unfold maintain_strategy. split.
  - intros [->| ->]; [reflexivity|]. destruct buys; reflexivity.
  - intros Hb Hs. destruct buys as [|h buys]; [contradiction|].
    destruct (rev sells) as [|l r] eqn:Hr; [|reflexivity].
    apply (f_equal (@rev Decimal)) in Hr. rewrite rev_involutive in Hr. contradiction.
Qed.

Lemma maintain_strategy_needs_orders_witness :
  maintain_strategy (of_Z 5) [] [of_Z 7] (mkState (of_Z 4) (of_Z 1)) = inl IndexError /\
  maintain_strategy (of_Z 5) [of_Z 3] [of_Z 7] (mkState (of_Z 4) (of_Z 1))
  = inr (mkState (of_Z 5) (of_Z 1)).
Proof.
  split.
  - apply (proj1 (maintain_strategy_needs_orders (of_Z 5) [] [of_Z 7]
                    (mkState (of_Z 4) (of_Z 1)))). now left.
  - apply (proj2 (maintain_strategy_needs_orders (of_Z 5) [of_Z 3] [of_Z 7]
                    (mkState (of_Z 4) (of_Z 1)))); discriminate.
Defined.

End StaggeredMoreFacts.
